(** * FomoHead: target building, weighted loss and tolerant metrics

    A shallow embedding of [edgelab/models/heads/fomo_head.py].

    Modelling conventions.
    - float tensors of predictions, targets and losses hold real numbers
      ([R]): arithmetic is exact, rounding is not modelled;
    - the label tensor (one row [batch, class, x, y] per annotation) holds
      rationals ([Q]); Python's [int()] truncates toward zero;
    - integer tensors (arg-max grids, cell coordinates) hold [Z];
    - a tensor is a nested list, outermost dimension first; Python and torch
      indexing accept a negative index [i >= -size] as [i + size] and raise
      IndexError otherwise;
    - exceptions are values of [exn]; a computation that may raise returns
      [result A]. *)

From Stdlib Require Import ZArith QArith Qround Reals Lra Lia.
From Stdlib Require Lqa.
From stdpp Require Import base list gmap strings.

Local Open Scope Z_scope.

(** ** Exceptions *)

Inductive exn : Type :=
  | IndexError
  | ValueError
  | RuntimeError
  | AttributeError
  | TypeError
  | ZeroDivisionError.

Inductive result (A : Type) : Type :=
  | Ok (a : A)
  | Raise (e : exn).
Arguments Ok {A} a.
Arguments Raise {A} e.

#[global] Instance result_ret : MRet result := fun _ a => Ok a.
#[global] Instance result_bind : MBind result := fun _ _ k m =>
  match m with
  | Ok a => k a
  | Raise e => Raise e
  end.

(** A Python [for] loop whose body may raise. *)
Fixpoint for_each {St X : Type} (body : St -> X -> result St) (xs : list X)
    (s : St) : result St :=
  match xs with
  | [] => Ok s
  | x :: xs' => s' ← body s x; for_each body xs' s'
  end.

(** ** Indexing *)

(** Position selected by the integer index [i] in a dimension of [size]
    entries. *)
Definition norm_index (size : nat) (i : Z) : result nat :=
  if (0 <=? i) && (i <? Z.of_nat size) then Ok (Z.to_nat i)
  else if (- Z.of_nat size <=? i) && (i <? 0) then Ok (Z.to_nat (i + Z.of_nat size))
  else Raise IndexError.

(** [l[i]] *)
Definition getitem {A : Type} (l : list A) (i : Z) : result A :=
  k ← norm_index (length l) i;
  match l !! k with
  | Some x => Ok x
  | None => Raise IndexError
  end.

(** [l[i] = f(l[i])], where computing the new entry may raise. *)
Definition update_at {A : Type} (l : list A) (i : Z) (f : A -> result A)
  : result (list A) :=
  x ← getitem l i;
  y ← f x;
  k ← norm_index (length l) i;
  Ok (<[k := y]> l).

Definition tensor3 (A : Type) : Type := list (list (list A)).
Definition tensor4 (A : Type) : Type := list (list (list (list A))).

(** An element-wise operation on the entries of a 3-D tensor (on the channel
    vectors of a 4-D tensor). *)
Definition map3 {A B : Type} (f : A -> B) (t : list (list (list A)))
  : list (list (list B)) :=
  (fun img : list (list A) => (fun row : list A => f <$> row) <$> img) <$> t.

(** [t[b, h, w]] and [t[b, h, w] = v] *)
Definition getitem3 {A : Type} (t : tensor3 A) (idx : Z * Z * Z) : result A :=
  let '(b, h, w) := idx in
  img ← getitem t b; row ← getitem img h; getitem row w.

Definition setitem3 {A : Type} (t : tensor3 A) (idx : Z * Z * Z) (v : A)
  : result (tensor3 A) :=
  let '(b, h, w) := idx in
  update_at t b (fun img =>
  update_at img h (fun row =>
  update_at row w (fun _ => Ok v))).

(** [t[b, h, w, c] = v] *)
Definition setitem4 {A : Type} (t : tensor4 A) (idx : Z * Z * Z * Z) (v : A)
  : result (tensor4 A) :=
  let '(b, h, w, c) := idx in
  update_at t b (fun img =>
  update_at img h (fun row =>
  update_at row w (fun cell =>
  update_at cell c (fun _ => Ok v)))).

(** Shapes.  [B, H, W, C = t.shape] reads the lengths along the first entry
    of every dimension; [has_shape4] says that [t] is rectangular. *)
Definition shape4 {A : Type} (t : tensor4 A) : nat * nat * nat * nat :=
  let img := hd [] t in
  let row := hd [] img in
  (length t, length img, length row, length (hd [] row)).

Definition has_shape3 {A : Type} (B H W : nat) (t : tensor3 A) : Prop :=
  length t = B ∧
  Forall (fun img => length img = H ∧ Forall (fun row => length row = W) img) t.

Definition has_shape4 {A : Type} (B H W C : nat) (t : tensor4 A) : Prop :=
  length t = B ∧
  Forall (fun img => length img = H ∧
    Forall (fun row => length row = W ∧
      Forall (fun cell => length cell = C) row) img) t.

(** The channel vector of cell [(b, h, w)], when the cell exists. *)
Definition cell_at {A : Type} (t : list (list (list A))) (p : nat * nat * nat)
  : option A :=
  let '(b, h, w) := p in
  img ← t !! b; row ← img !! h; row !! w.

(** ** Target builder: [FomoHead.build_target] *)

(** One row [i] of the label tensor: [i[0]] image index, [i[1]] class id,
    [i[2]] and [i[3]] the centre of the box as fractions of the image width
    and height. *)
Record annotation : Type := Annotation {
  batch_index : Q;
  class_id : Q;
  x_center : Q;
  y_center : Q
}.

(** Python's [int(x)] on a float: truncation toward zero. *)
Definition py_int (q : Q) : Z := Z.quot (Qnum q) (Z.pos (Qden q)).

Definition zeros4 (B H W C : nat) : tensor4 R :=
  replicate B (replicate H (replicate W (replicate C 0%R))).

(** [t[..., 0] = v] *)
Definition fill_channel0 (v : R) (t : tensor4 R) : result (tensor4 R) :=
  mapM (mapM (mapM (fun cell => update_at cell 0 (fun _ => Ok v)))) t.

Definition build_target_step (H W : nat) (target_data : tensor4 R) (i : annotation)
  : result (tensor4 R) :=
  let h := py_int (y_center i * inject_Z (Z.of_nat H)) in
  let w := py_int (x_center i * inject_Z (Z.of_nat W)) in
  target_data ← setitem4 target_data (py_int (batch_index i), h, w, 0) 0%R;
  setitem4 target_data (py_int (batch_index i), h, w, py_int (class_id i)) 1%R.

Definition build_target (preds : tensor4 R) (targets : list annotation)
  : result (tensor4 R) :=
  let '(B, H, W, C) := shape4 preds in
  let target_data := zeros4 B H W C in
  target_data ← fill_channel0 1%R target_data;
  for_each (build_target_step H W) targets target_data.

(** ** The head

    The part of a constructed [FomoHead] that the loss and the metric read:
    [self.num_classes] and the [pos_weight] of [self.loss_cls]. *)
Record FomoHead : Type := {
  num_classes : nat;
  cls_weight : R
}.

(** The number of classifications the model needs to classify (including
    background). *)
Definition num_attrib (self : FomoHead) : nat := (num_classes self + 1)%nat.

(** ** Tolerant metric: [FomoHead.get_pricsion_recall_f1] *)

Definition Rgtb (x y : R) : bool := if Rlt_dec y x then true else false.

Definition sumR (xs : list R) : R := foldr Rplus 0%R xs.

(** [torch.softmax(xs, dim=-1)] on one channel vector. *)
Definition softmax (xs : list R) : list R :=
  (fun x => (exp x / sumR (exp <$> xs))%R) <$> xs.

(** Index of the first maximal entry, scanning left to right. *)
Fixpoint argmax_from {A : Type} (gtb : A -> A -> bool) (best : A)
    (besti i : nat) (xs : list A) : nat :=
  match xs with
  | [] => besti
  | x :: xs' =>
      if gtb x best then argmax_from gtb x i (S i) xs'
      else argmax_from gtb best besti (S i) xs'
  end.

(** [torch.argmax(xs, dim=-1)] on one channel vector; an empty reduction
    dimension is an error. *)
Definition argmax_by {A : Type} (gtb : A -> A -> bool) (xs : list A) : result Z :=
  match xs with
  | [] => Raise IndexError
  | x :: xs' => Ok (Z.of_nat (argmax_from gtb x 0 1 xs'))
  end.

Definition argmax : list R -> result Z := argmax_by Rgtb.

Definition argmax_last (t : tensor4 R) : result (tensor3 Z) :=
  mapM (mapM (mapM argmax)) t.

Definition softmax_last (t : tensor4 R) : tensor4 R := map3 softmax t.

(** [torch.stack(torch.where(t > 0), dim=1)]: the coordinates of the positive
    entries, in row-major order. *)
Definition where_positive (t : tensor3 Z) : list (Z * Z * Z) :=
  mjoin (imap (fun b img =>
    mjoin (imap (fun h row =>
      mjoin (imap (fun w v =>
        if 0 <? v then [(Z.of_nat b, Z.of_nat h, Z.of_nat w)] else []) row)) img)) t).

(** Offset of the ground truth box. *)
Definition posit_offset : list (Z * Z * Z) :=
  [(0, -1, 0); (0, -1, -1); (0, 0, -1); (0, 1, 0); (0, 1, 1);
   (0, 0, 1); (0, 1, -1); (0, -1, 1); (0, 0, 0)].

Definition add3 (p q : Z * Z * Z) : Z * Z * Z :=
  let '(pb, ph, pw) := p in
  let '(qb, qh, qw) := q in
  (pb + qb, ph + qh, pw + qw).

(** [torch.any(site < k)] and [torch.any(site > k)] *)
Definition any_lt (site : Z * Z * Z) (k : Z) : bool :=
  let '(b, h, w) := site in (b <? k) || (h <? k) || (w <? k).

Definition any_gt (site : Z * Z * Z) (k : Z) : bool :=
  let '(b, h, w) := site in (b >? k) || (h >? k) || (w >? k).

(** [site in index] for tensors is [(site == index).any()]: the row [site]
    is broadcast against every row of [index] and compared entry by entry. *)
Definition tensor_contains (site : Z * Z * Z) (index : list (Z * Z * Z)) : bool :=
  existsb (fun row =>
    let '(b, h, w) := row in
    let '(sb, sh, sw) := site in
    (sb =? b) || (sh =? h) || (sw =? w)) index.

(** Body of the inner loop, on the state [(preds_max, target_max)]. *)
Definition match_site (preds_index : list (Z * Z * Z)) (ti : Z * Z * Z)
    (st : tensor3 Z * tensor3 Z) (po : Z * Z * Z)
  : result (tensor3 Z * tensor3 Z) :=
  let '(preds_max, target_max) := st in
  let site := add3 ti po in
  if any_lt site 0 || any_gt site 11 then Ok st
  else if tensor_contains site preds_index then
    p ← getitem3 preds_max site;
    t ← getitem3 target_max ti;
    if p =? t then
      v ← getitem3 target_max ti;
      preds_max' ← setitem3 preds_max site v;
      v' ← getitem3 target_max ti;
      target_max' ← setitem3 target_max site v';
      Ok (preds_max', target_max')
    else Ok st
  else Ok st.

Definition match_target (preds_index : list (Z * Z * Z))
    (st : tensor3 Z * tensor3 Z) (ti : Z * Z * Z)
  : result (tensor3 Z * tensor3 Z) :=
  for_each (match_site preds_index ti) posit_offset st.

(** The traversal that compares predicted and ground truth boxes. *)
Definition tolerant_matching (preds_max target_max : tensor3 Z)
  : result (tensor3 Z * tensor3 Z) :=
  let target_index := where_positive target_max in
  let preds_index := where_positive preds_max in
  for_each (match_target preds_index) target_index (preds_max, target_max).

Definition flatten3 {A : Type} (t : tensor3 A) : list A := mjoin (mjoin t).

Definition sumZ (xs : list Z) : Z := foldr Z.add 0 xs.
Definition sumZ2 (m : list (list Z)) : Z := sumZ (sumZ <$> m).

(** [sklearn.metrics.confusion_matrix(y_true, y_pred, labels=range(n))]:
    entry [(i, j)] counts the samples of true label [i] predicted [j];
    samples with a label outside [labels] are dropped. *)
Definition count_pairs (y_true y_pred : list Z) (i j : Z) : Z :=
  Z.of_nat (length (filter (fun p => p = (i, j)) (zip y_true y_pred))).

Definition confusion_matrix (y_true y_pred : list Z) (n_labels : nat)
  : result (list (list Z)) :=
  if decide (n_labels = 0%nat) then Raise ValueError
  else if decide (y_true = []) then
    Ok (replicate n_labels (replicate n_labels 0))
  else if forallb (fun y => negb ((0 <=? y) && (y <? Z.of_nat n_labels))) y_true
    then Raise ValueError
  else
    Ok ((fun i => (fun j => count_pairs y_true y_pred (Z.of_nat i) (Z.of_nat j))
                    <$> seq 0 n_labels) <$> seq 0 n_labels).

(** [np.diagonal], [np.tril(m, k)] and [np.triu(m, k)] *)
Definition diagonal (m : list (list Z)) : list Z :=
  imap (fun i row => default 0 (row !! i)) m.

Definition tril (m : list (list Z)) (k : Z) : list (list Z) :=
  imap (fun i row =>
    imap (fun j x => if Z.of_nat j <=? Z.of_nat i + k then x else 0) row) m.

Definition triu (m : list (list Z)) (k : Z) : list (list Z) :=
  imap (fun i row =>
    imap (fun j x => if Z.of_nat i + k <=? Z.of_nat j then x else 0) row) m.

(** [a / b].  The model reports a zero denominator as [ZeroDivisionError]
    (numpy itself would warn and give nan or inf). *)
Definition true_divide (a b : Q) : result Q :=
  if Qeq_bool b 0 then Raise ZeroDivisionError else Ok (a / b)%Q.

(** The counts read off the confusion matrix: [(tn, tp, fn, fp)]. *)
Definition confusion_counts (confusion : list (list Z)) : Z * Z * Z * Z :=
  let tn := default 0 (confusion !! 0%nat ≫= (.!! 0%nat)) in
  let tp := sumZ (diagonal confusion) - tn in
  let fn := sumZ2 (tril confusion (-1)) in
  let fp := sumZ2 (triu confusion 1) in
  (tn, tp, fn, fp).

Definition scores (confusion : list (list Z)) : result (Q * Q * Q) :=
  let '(tn, tp, fn, fp) := confusion_counts confusion in
  if (tp + fp =? 0) || (tp + fn =? 0) then Ok (0%Q, 0%Q, 0%Q)
  else
    p ← true_divide (inject_Z tp) (inject_Z (tp + fp));
    r ← true_divide (inject_Z tp) (inject_Z (tp + fn));
    f1 ← (if negb (Qeq_bool (p + r) 0)
          then true_divide (2 * (p * r)) (p + r) else Ok 0%Q);
    Ok (p, r, f1).

(** Lines 126 to 163: everything after the two arg-max grids are known. *)
Definition precision_recall_f1_of (self : FomoHead)
    (preds_max target_max : tensor3 Z) : result (Q * Q * Q) :=
  '(preds_max', target_max') ← tolerant_matching preds_max target_max;
  confusion ← confusion_matrix (flatten3 target_max') (flatten3 preds_max')
                 (num_attrib self);
  scores confusion.

Definition get_pricsion_recall_f1 (self : FomoHead) (preds target : tensor4 R)
  : result (Q * Q * Q) :=
  let preds := softmax_last preds in
  target_max ← argmax_last target;
  preds_max ← argmax_last preds;
  precision_recall_f1_of self preds_max target_max.

(** ** Weighted loss: [FomoHead.lossFunction] *)

Definition sigmoid (x : R) : R := (1 / (1 + exp (- x)))%R.

(** [nn.BCEWithLogitsLoss(reduction='none', pos_weight=...)] on one logit [x]
    with target [y]; without [pos_weight] the positive term is unweighted. *)
Definition bce_with_logits (pos_weight : option R) (x y : R) : R :=
  let p := default 1%R pos_weight in
  (- (p * y * ln (sigmoid x) + (1 - y) * ln (1 - sigmoid x)))%R.

Definition zip_with4 {A B D : Type} (f : A -> B -> D)
  : tensor4 A -> tensor4 B -> tensor4 D :=
  zip_with (zip_with (zip_with (zip_with f))).

(** [pred_maps.permute(0, 2, 3, 1)]: from (B, C, H, W) to (B, H, W, C). *)
Definition permute_0231 (t : tensor4 R) : tensor4 R :=
  (fun img =>
     let H := length (hd [] img) in
     let W := length (hd [] (hd [] img)) in
     (fun h => (fun w => (fun ch => default 0%R (ch !! h ≫= (.!! w))) <$> img)
                 <$> seq 0 W) <$> seq 0 H) <$> t.

(** One channel vector times the mask's channel vector, with broadcasting of
    a mask dimension of size 1. *)
Definition mul_channels (cell wt : list R) : result (list R) :=
  if decide (length wt = length cell) then Ok (zip_with Rmult cell wt)
  else if decide (length wt = 1%nat) then Ok ((fun x => x * hd 0 wt)%R <$> cell)
  else Raise RuntimeError.

(** [t *= mask] for [t] of shape (B, H, W, C) and [mask] of shape (H, W, A). *)
Definition imul_mask (t : tensor4 R) (mask : tensor3 R) : result (tensor4 R) :=
  mapM (fun img =>
    mapM (fun rm =>
      mapM (fun cw => mul_channels cw.1 cw.2) (zip rm.1 rm.2)) (zip img mask)) t.

Definition flatten4 {A : Type} (t : tensor4 A) : list A :=
  mjoin (mjoin (mjoin t)).

(** [torch.mean] over all elements. *)
Definition mean (xs : list R) : R := (sumR xs / INR (length xs))%R.

(** The dict returned by [lossFunction]. *)
Record loss_dict : Type := {
  d_loss : R;
  d_fgnd : tensor4 R;
  d_bgnd : tensor4 R;
  d_P : R;
  d_R : R;
  d_F1 : R
}.

Definition lossFunction (self : FomoHead) (pred_maps : tensor4 R)
    (target : list annotation) : result loss_dict :=
  let preds := permute_0231 pred_maps in
  let '(B, H, W, C) := shape4 preds in
  (* pos_weights; the mask is also stored in [self.weight_mask], which
     nothing reads back *)
  weight ← update_at (replicate (num_attrib self) 0%R) 0 (fun _ => Ok 1%R);
  let weight_mask := replicate H (replicate W weight) in
  (* Get the ground truth box that fits the fomo model *)
  data ← build_target preds target;
  (* background loss *)
  let bg_loss := zip_with4 (bce_with_logits None) preds data in
  bg_loss ← imul_mask bg_loss weight_mask;
  (* no background loss *)
  let cls_loss := zip_with4 (bce_with_logits (Some (cls_weight self))) preds data in
  cls_loss ← imul_mask cls_loss (map3 (fun m => (1 - m)%R) weight_mask);
  (* avg loss *)
  let loss := mean (flatten4 (zip_with4 Rplus cls_loss bg_loss)) in
  (* get p,r,f1 *)
  '(p, r, f1) ← get_pricsion_recall_f1 self preds data;
  Ok {| d_loss := loss; d_fgnd := cls_loss; d_bgnd := bg_loss;
        d_P := Q2R p; d_R := Q2R r; d_F1 := Q2R f1 |}.

(** ** Construction: [FomoHead.__init__]

    The instance under construction is its attribute dictionary; a
    statement of the constructor takes the dictionary and gives back the
    dictionary it leaves together with its outcome, so that the attributes
    set before an exception remain visible. *)

Inductive layer : Type :=
  | CBR (in_channels out_channels kernel stride padding : Z)
  | Conv2d (in_channels out_channels kernel padding : Z).

Inductive value : Type :=
  | VInt (n : Z)
  | VInts (l : list Z)
  | VCfg
  | VBCEWithLogitsLoss (pos_weight : option Z)
  | VTensor (rows : list (Z * Z * Z))
  | VModuleList (layers : list layer).

Definition action (A : Type) : Type :=
  gmap string value -> result A * gmap string value.

Definition pure {A : Type} (a : A) : action A := fun self => (Ok a, self).

Definition andthen {A B : Type} (m : action A) (k : A -> action B) : action B :=
  fun self =>
    match m self with
    | (Ok a, self') => k a self'
    | (Raise e, self') => (Raise e, self')
    end.

Notation "m >> k" := (andthen m (fun _ => k)) (at level 62, right associativity).

(** [self.name = v] *)
Definition setattr (name : string) (v : value) : action unit :=
  fun self => (Ok tt, <[name := v]> self).

(** [self.name]; a name that was never assigned is an AttributeError. *)
Definition getattr (name : string) : action value :=
  fun self =>
    match self !! name with
    | Some v => (Ok v, self)
    | None => (Raise AttributeError, self)
    end.

Definition raise {A : Type} (e : exn) : action A := fun self => (Raise e, self).

Fixpoint for_enumerate (body : Z -> Z -> action unit) (idx : Z) (xs : list Z)
  : action unit :=
  match xs with
  | [] => pure tt
  | x :: xs' => body idx x >> for_enumerate body (idx + 1) xs'
  end.

(** [self.name[i] = w] *)
Definition setattr_item (name : string) (i : Z) (w : Z) : action unit :=
  andthen (getattr name) (fun v =>
    match v with
    | VInts l =>
        match update_at l i (fun _ => Ok w) with
        | Ok l' => setattr name (VInts l')
        | Raise e => raise e
        end
    | _ => raise TypeError
    end).

Record init_args : Type := {
  input_channels : list Z;
  middle_channels : list Z;
  out_channels : list Z;
  arg_num_classes : Z;
  arg_cls_weight : Z;
  loss_weight : option (list Z)
}.

(** Truth value of an optional sequence: [None] and the empty sequence are
    false. *)
Definition truthy (l : option (list Z)) : bool :=
  match l with
  | Some (_ :: _) => true
  | _ => false
  end.

Definition _init_layers : action unit :=
  andthen (getattr "input_channels") (fun ic =>
  andthen (getattr "num_classes") (fun nc =>
    match ic, nc with
    | VInts chans, VInt n =>
        setattr "convs_bridge"
          (VModuleList ((fun c => CBR c 48 3 1 1) <$> chans)) >>
        setattr "convs_pred"
          (VModuleList ((fun _ => Conv2d 48 (n + 1) 1 0) <$> chans))
    | _, _ => raise TypeError
    end)).

Definition __init__ (args : init_args) : action unit :=
  setattr "init_cfg" VCfg >>
  setattr "num_classes" (VInt (arg_num_classes args)) >>
  setattr "input_channels" (VInts (input_channels args)) >>
  setattr "output_channels" (VInts (out_channels args)) >>
  (if truthy (loss_weight args)
   then for_enumerate (fun idx w => setattr_item "weight_cls" (idx + 1) w) 0
          (default [] (loss_weight args))
   else pure tt) >>
  setattr "loss_cls" (VBCEWithLogitsLoss (Some (arg_cls_weight args))) >>
  setattr "loss_bg" (VBCEWithLogitsLoss None) >>
  setattr "posit_offset" (VTensor posit_offset) >>
  _init_layers.

(** ** Notions used to state the properties *)

#[global] Instance exn_eq_dec : EqDecision exn.
Proof. solve_decision. Defined.

#[global] Instance result_eq_dec {A : Type} `{EqDecision A} : EqDecision (result A).
Proof. solve_decision. Defined.

(** Exactly channel [k] of the cell is 1 and every other channel is 0. *)
Definition one_hot_at (k : nat) (cell : list R) : Prop :=
  (k < length cell)%nat ∧
  ∀ c v, cell !! c = Some v → v = if decide (c = k) then 1%R else 0%R.

Definition one_hot (cell : list R) : Prop := ∃ k, one_hot_at k cell.

(** The cell that [build_target] writes for annotation [a] on a grid of
    [B] images of [H] rows and [W] columns (negative indices count from the
    end, as Python indexing does). *)
Definition cell_of (B H W : nat) (a : annotation) : result (nat * nat * nat) :=
  b ← norm_index B (py_int (batch_index a));
  h ← norm_index H (py_int (y_center a * inject_Z (Z.of_nat H)));
  w ← norm_index W (py_int (x_center a * inject_Z (Z.of_nat W)));
  Ok (b, h, w).

Definition label_of (a : annotation) : nat := Z.to_nat (py_int (class_id a)).

(** Class ids of the annotations written to cell [p], in input order. *)
Definition labels_at (B H W : nat) (targets : list annotation)
    (p : nat * nat * nat) : list nat :=
  label_of <$> filter (fun a => cell_of B H W a = Ok p) targets.

(** Channel vector with the background bit set when [ls] is empty and the
    bits of the classes in [ls] set otherwise. *)
Definition multi_hot (C : nat) (ls : list nat) : list R :=
  (fun c => if decide (c = 0%nat)
            then (if decide (ls = []) then 1%R else 0%R)
            else (if decide (c ∈ ls) then 1%R else 0%R)) <$> seq 0 C.

(** [t[b, h, w] = f(t[b, h, w])]: the common shape of [setitem3] and
    [setitem4]. *)
Definition update3 {A : Type} (t : list (list (list A))) (b h w : Z)
    (f : A -> result A) : result (list (list (list A))) :=
  update_at t b (fun img => update_at img h (fun row => update_at row w f)).

(** Loop invariant of [build_target] once the annotations [seen] have been
    written. *)
Definition target_invariant (B H W C : nat) (seen : list annotation)
    (g : tensor4 R) : Prop :=
  has_shape3 B H W g ∧
  ∀ p cell, cell_at g p = Some cell →
    (0 < C)%nat ∧ cell = multi_hot C (labels_at B H W seen p).


(** Two boxes of different classes whose centres fall in the same cell of a
    2 by 2 grid with three channels. *)
Definition overlap_preds : tensor4 R :=
  replicate 1 (replicate 2 (replicate 2 (replicate 3 0%R))).

Definition overlap_targets : list annotation :=
  [ {| batch_index := 0; class_id := 1; x_center := 6 # 10; y_center := 6 # 10 |};
    {| batch_index := 0; class_id := 2; x_center := 9 # 10; y_center := 7 # 10 |} ].

Definition overlap_grid : tensor4 R :=
  [[ [[1; 0; 0]; [1; 0; 0]];
     [[1; 0; 0]; [0; 1; 1]] ]]%R.

(** A single box on the same grid. *)
Definition single_targets : list annotation :=
  [ {| batch_index := 0; class_id := 2; x_center := 6 # 10; y_center := 1 # 10 |} ].

Definition single_grid : tensor4 R :=
  [[ [[1; 0; 0]; [0; 0; 1]];
     [[1; 0; 0]; [1; 0; 0]] ]]%R.

(** The constraints on an annotation for a (B, H, W, C) grid: fractions in
    [0, 1), image index below [B], class id in [1, C-1]. *)
Definition valid_annotation (B H W C : nat) (a : annotation) : Prop :=
  (0 <= x_center a < 1)%Q ∧ (0 <= y_center a < 1)%Q ∧
  0 <= py_int (batch_index a) < Z.of_nat B ∧
  1 <= py_int (class_id a) <= Z.of_nat C - 1.

(** Tensors with integer entries, to write down concrete inputs. *)
Definition of_Z4 (t : tensor4 Z) : tensor4 R := map3 (fmap IZR) t.

Definition argmaxZ_last (t : tensor4 Z) : result (tensor3 Z) :=
  mapM (mapM (mapM (argmax_by (fun x y => y <? x)))) t.

(** The only exceptions a computation can raise are those of [es]. *)
Definition raises_only {A : Type} (es : list exn) (m : result A) : Prop :=
  ∀ e, m = Raise e → e ∈ es.

(** Entry [(i, j)] of a matrix and sums over index ranges. *)
Definition entry (m : list (list Z)) (i j : nat) : Z :=
  default 0 (m !! i ≫= (.!! j)).

Definition sum_over (n : nat) (f : nat -> Z) : Z := sumZ (f <$> seq 0 n).

Definition square (n : nat) (m : list (list Z)) : Prop :=
  length m = n ∧ Forall (fun row => length row = n) m.

(** Sum of the entries [(i, j)] of an [n] by [n] matrix selected by [keep]. *)
Definition sum_where (n : nat) (keep : nat -> nat -> bool) (m : list (list Z)) : Z :=
  sum_over n (fun i => sum_over n (fun j => if keep i j then entry m i j else 0)).

(** [t] with cell [p] replaced by [v] (nothing changes when [t] has no
    such cell). *)
Definition set_cell {A : Type} (t : list (list (list A))) (p : nat * nat * nat)
    (v : A) : list (list (list A)) :=
  alter (alter (<[p.2 := v]>) p.1.2) p.1.1 t.

(** Position of cell [p] in the row-major flattening of a grid of [H] rows
    and [W] columns per image. *)
Definition flat_index (H W : nat) (p : nat * nat * nat) : nat :=
  ((p.1.1 * H + p.1.2) * W + p.2)%nat.

Definition indicator (q q0 : Z * Z) : Z := if decide (q = q0) then 1 else 0.

(** Concrete grids: every cell background except cell [p], which carries
    class [k].  [class_grid] is the grid of class indices, [one_hot_grid] a
    tensor of C channels whose arg-max is that grid. *)
Definition class_grid (B H W : nat) (p : nat * nat * nat) (k : Z) : tensor3 Z :=
  set_cell (replicate B (replicate H (replicate W 0))) p k.

Definition one_hot_grid (B H W C : nat) (p : nat * nat * nat) (k : nat)
  : tensor4 Z :=
  set_cell (replicate B (replicate H (replicate W (<[0%nat := 1]> (replicate C 0)))))
    p (<[k := 1]> (replicate C 0)).

Definition background_grid (B H W C : nat) : tensor4 Z :=
  replicate B (replicate H (replicate W (<[0%nat := 1]> (replicate C 0)))).

(** A head for three object classes. *)
Definition head3 : FomoHead := {| num_classes := 3; cls_weight := 1 |}.


(** Entry [(b, h, w, c)] of a 4-D tensor, when it exists. *)
Definition entry4 {A : Type} (t : tensor4 A) (b h w c : nat) : option A :=
  cell_at t (b, h, w) ≫= (.!! c).

(** The weight of channel [c] in the background term: 1 on channel 0 and 0
    elsewhere. *)
Definition background_mask (c : nat) : R := if decide (c = 0%nat) then 1%R else 0%R.

(** The scenario of a 12 by 12 grid with two object classes: logits all
    zero, in the network's (B, C, H, W) layout, and one box of class 1
    centred in the image. *)
Definition head2 : FomoHead := {| num_classes := 2; cls_weight := 1 |}.

Definition zero_pred_maps : tensor4 R :=
  replicate 1 (replicate 3 (replicate 12 (replicate 12 0%R))).

Definition center_targets : list annotation :=
  [ {| batch_index := 0; class_id := 1; x_center := 1 # 2; y_center := 1 # 2 |} ].

(** The near-hit scenario on a grid of [B] images of [H] by [W] cells: one
    true object of class 3 at cell (0, 5, 5), one predicted object of class
    3 at cell (0, 5, 6). *)
Definition near_hit_target (B H W : nat) : tensor3 Z :=
  class_grid B H W (0, 5, 5)%nat 3.

Definition near_hit_preds (B H W : nat) : tensor3 Z :=
  class_grid B H W (0, 5, 6)%nat 3.

(** A matrix entry of value [v] at [(a, b)], zero elsewhere. *)
Definition point (a b : nat) (v : Z) (i j : nat) : Z :=
  if decide (i = a ∧ j = b) then v else 0.

(** ** Notions used for the further properties *)

(** An index that Python accepts in a dimension of [size] entries. *)
Definition index_ok (size : nat) (i : Z) : Prop :=
  - Z.of_nat size <= i < Z.of_nat size.






(** The traversal of [get_pricsion_recall_f1] with the test
    [site in preds_index] read as exact membership: [site] is one of the
    rows of [preds_index]. *)
Definition match_site_rowwise (preds_index : list (Z * Z * Z)) (ti : Z * Z * Z)
    (st : tensor3 Z * tensor3 Z) (po : Z * Z * Z)
  : result (tensor3 Z * tensor3 Z) :=
  let '(preds_max, target_max) := st in
  let site := add3 ti po in
  if any_lt site 0 || any_gt site 11 then Ok st
  else if bool_decide (site ∈ preds_index) then
    p ← getitem3 preds_max site;
    t ← getitem3 target_max ti;
    if p =? t then
      v ← getitem3 target_max ti;
      preds_max' ← setitem3 preds_max site v;
      v' ← getitem3 target_max ti;
      target_max' ← setitem3 target_max site v';
      Ok (preds_max', target_max')
    else Ok st
  else Ok st.

Definition tolerant_matching_rowwise (preds_max target_max : tensor3 Z)
  : result (tensor3 Z * tensor3 Z) :=
  let target_index := where_positive target_max in
  let preds_index := where_positive preds_max in
  for_each (fun st ti => for_each (match_site_rowwise preds_index ti) posit_offset st)
    target_index (preds_max, target_max).

(** Arg-max grids of one image of 12 by 12 cells: a true object of class 2
    at (0, 3, 3) and predicted objects of class 2 at (0, 3, 4) and of class
    1 at (0, 8, 8). *)
Definition two_preds_grid : tensor3 Z :=
  set_cell (class_grid 1 12 12 (0, 3, 4)%nat 2) (0, 8, 8)%nat 1.

Definition one_target_grid : tensor3 Z := class_grid 1 12 12 (0, 3, 3)%nat 2.

(** The state of the traversal started on [(pm, tm0)]: the predictions are
    untouched and every cell of the target is the original one or now
    carries the (positive) predicted class of that cell. *)
Definition matching_invariant (B H W : nat) (pm tm0 : tensor3 Z)
    (st : tensor3 Z * tensor3 Z) : Prop :=
  st.1 = pm ∧ has_shape3 B H W st.2 ∧
  ∀ q v', cell_at st.2 q = Some v' →
    cell_at tm0 q = Some v' ∨ (cell_at pm q = Some v' ∧ 0 < v').

(** ** The confusion counts as counts of cells *)

(** Number of positions at which the pair (true class, predicted class)
    satisfies [f]. *)
Definition count_cells (f : Z -> Z -> bool) (y_true y_pred : list Z) : Z :=
  Z.of_nat (length (filter (fun p => f p.1 p.2 = true) (zip y_true y_pred))).

(** [x] is one of the labels [range(n)]. *)
Definition label_in_range (n : nat) (x : Z) : bool := (0 <=? x) && (x <? Z.of_nat n).

(** The four kinds of cell that [get_pricsion_recall_f1] counts, by true
    class [t] and predicted class [p]. *)
Definition is_tn (t p : Z) : bool := (t =? 0) && (p =? 0).
Definition is_tp (t p : Z) : bool := (t =? p) && (0 <? t).
Definition is_fn (t p : Z) : bool := p <? t.
Definition is_fp (t p : Z) : bool := t <? p.

(** Lines 147 to 163 applied to the two arg-max grids as they are, without
    the traversal of lines 135 to 145. *)
Definition precision_recall_f1_without_matching (self : FomoHead)
    (preds_max target_max : tensor3 Z) : result (Q * Q * Q) :=
  confusion ← confusion_matrix (flatten3 target_max) (flatten3 preds_max)
                 (num_attrib self);
  scores confusion.

(** ** Inputs for the further properties of the loss and the constructor *)

(** Prediction maps of two channels on a 12 by 12 grid, one channel short
    for a head of two object classes. *)
Definition two_channel_pred_maps : tensor4 R :=
  replicate 1 (replicate 2 (replicate 12 (replicate 12 0%R))).

(** A head of two object classes whose positive weight is 3. *)
Definition weighted_head2 : FomoHead := {| num_classes := 2; cls_weight := 3 |}.


(** A batch of 13 images of 12 by 12 cells: in the last image, of index 12,
    a true object of class 3 at (3, 3) and a predicted object of class 3 in
    the next column. *)
Definition late_image_target : tensor3 Z := class_grid 13 12 12 (12, 3, 3)%nat 3.

Definition late_image_preds : tensor3 Z := class_grid 13 12 12 (12, 3, 4)%nat 3.

(** * Properties *)

(** ** The error monad and indexing *)

Lemma bind_Ok {A B : Type} (m : result A) (k : A -> result B) (b : B) :
  m ≫= k = Ok b ↔ ∃ a, m = Ok a ∧ k a = Ok b.
Proof.
  destruct m as [a|e]; simpl; split.
  - intros Hk. by exists a.
  - by intros (a' & [= <-] & Hk).
  - discriminate.
  - by intros (a' & [=] & _).
Qed.

Ltac inv_bind H :=
  repeat match type of H with
  | _ ≫= _ = Ok _ =>
      let x := fresh "x" in let Hx := fresh "Hx" in
      apply bind_Ok in H; destruct H as (x & Hx & H)
  end.

(** A loop invariant carried along the list that has been consumed. *)
Lemma for_each_invariant_from {St X : Type} (body : St -> X -> result St)
    (Inv : list X -> St -> Prop) (all : list X) :
  (∀ seen x s s', x ∈ all → Inv seen s → body s x = Ok s' → Inv (seen ++ [x]) s') →
  ∀ xs seen s s',
    xs ⊆ all → Inv seen s → for_each body xs s = Ok s' → Inv (seen ++ xs) s'.
Proof.
  intros Hstep xs. induction xs as [|x xs IH]; intros seen s s' Hsub HI Hrun.
  - simpl in Hrun. injection Hrun as <-. by rewrite app_nil_r.
  - simpl in Hrun. apply bind_Ok in Hrun as (s1 & Hs1 & Hrun).
    replace (seen ++ x :: xs) with ((seen ++ [x]) ++ xs)
      by (by rewrite <- app_assoc).
    eapply IH; [|eapply Hstep|exact Hrun]; eauto.
    + intros y Hy. apply Hsub. by right.
    + apply Hsub. by left.
Qed.

Lemma for_each_invariant {St X : Type} (body : St -> X -> result St)
    (Inv : list X -> St -> Prop) (xs : list X) s s' :
  (∀ seen x s s', x ∈ xs → Inv seen s → body s x = Ok s' → Inv (seen ++ [x]) s') →
  Inv [] s → for_each body xs s = Ok s' → Inv xs s'.
Proof.
  intros Hstep HI Hrun.
  by apply (for_each_invariant_from body Inv xs Hstep xs [] s s').
Qed.

(** A loop whose body cannot raise while [P] holds does not raise. *)
Lemma for_each_total {St X : Type} (body : St -> X -> result St)
    (P : St -> Prop) (xs : list X) :
  (∀ s x, x ∈ xs → P s → ∃ s', body s x = Ok s' ∧ P s') →
  ∀ s, P s → ∃ s', for_each body xs s = Ok s' ∧ P s'.
Proof.
  induction xs as [|x xs IH]; intros Hstep s HP; simpl; [by exists s|].
  destruct (Hstep s x) as (s1 & Hs1 & HP1); [by left|done|].
  rewrite Hs1. simpl. apply IH; [|done].
  intros s2 y Hy. apply Hstep. by right.
Qed.

Lemma norm_index_Ok size i k :
  norm_index size i = Ok k →
  (k < size)%nat ∧
  ((0 <= i ∧ Z.of_nat k = i) ∨ (i < 0 ∧ Z.of_nat k = i + Z.of_nat size)).
Proof.
  unfold norm_index. intros Hn.
  destruct ((0 <=? i) && (i <? Z.of_nat size)) eqn:E1.
  - injection Hn as <-. apply andb_prop in E1 as [E1 E2]. lia.
  - destruct ((- Z.of_nat size <=? i) && (i <? 0)) eqn:E2; [|done].
    injection Hn as <-. apply andb_prop in E2 as [E2 E3]. lia.
Qed.

Lemma norm_index_nonneg size i :
  0 <= i < Z.of_nat size → norm_index size i = Ok (Z.to_nat i).
Proof.
  intros Hi. unfold norm_index.
  destruct ((0 <=? i) && (i <? Z.of_nat size)) eqn:E1; [done|].
  apply andb_false_iff in E1 as [E1|E1]; lia.
Qed.

Lemma norm_index_of_nat size (k : nat) :
  (k < size)%nat → norm_index size (Z.of_nat k) = Ok k.
Proof.
  intros Hk. rewrite norm_index_nonneg by lia. by rewrite Nat2Z.id.
Qed.

Lemma norm_index_nonneg_inv size i k :
  0 <= i → norm_index size i = Ok k → i < Z.of_nat size ∧ k = Z.to_nat i.
Proof. intros Hi Hn. apply norm_index_Ok in Hn. lia. Qed.

Lemma getitem_Ok {A : Type} (l : list A) i x :
  getitem l i = Ok x ↔ ∃ k, norm_index (length l) i = Ok k ∧ l !! k = Some x.
Proof.
  unfold getitem. rewrite bind_Ok. split.
  - intros (k & Hk & Hl). exists k. split; [done|].
    destruct (l !! k); [by injection Hl as ->|done].
  - intros (k & Hk & Hl). exists k. by rewrite Hl.
Qed.

Lemma getitem_of_nat {A : Type} (l : list A) (k : nat) x :
  l !! k = Some x → getitem l (Z.of_nat k) = Ok x.
Proof.
  intros Hl. apply getitem_Ok. exists k. split; [|done].
  apply norm_index_of_nat. by eapply lookup_lt_Some.
Qed.

Lemma update_at_Ok {A : Type} (l : list A) i f l' :
  update_at l i f = Ok l' ↔
  ∃ k x y, norm_index (length l) i = Ok k ∧ l !! k = Some x ∧ f x = Ok y ∧
           l' = <[k := y]> l.
Proof.
  unfold update_at. split.
  - intros Hu. apply bind_Ok in Hu as (x & Hx & Hu).
    apply bind_Ok in Hu as (y & Hy & Hu). apply bind_Ok in Hu as (k' & Hk' & Hu).
    apply getitem_Ok in Hx as (k & Hk & Hl).
    rewrite Hk in Hk'. injection Hk' as <-. injection Hu as <-. by exists k, x, y.
  - intros (k & x & y & Hk & Hl & Hf & ->).
    apply bind_Ok. exists x. split; [apply getitem_Ok; eauto|].
    apply bind_Ok. exists y. split; [done|]. by rewrite Hk.
Qed.

Lemma mapM_Ok {A B : Type} (f : A -> result B) (l : list A) (l' : list B) :
  mapM f l = Ok l' ↔ Forall2 (fun x y => f x = Ok y) l l'.
Proof.
  revert l'. induction l as [|x l IH]; intros l'; simpl.
  - split; [intros [= <-]; constructor | by inversion 1].
  - split.
    + intros Hm. inv_bind Hm. injection Hm as <-.
      constructor; [done|]. by apply IH.
    + inversion 1 as [|? y ? k' Hf Hr]; subst.
      apply bind_Ok. exists y. split; [done|].
      apply bind_Ok. exists k'. split; [by apply IH | done].
Qed.

(** What a successful [t[b, h, w] = f(t[b, h, w])] does, seen through
    [cell_at]. *)
Section nested_update.
Context {A : Type}.
Implicit Types (t : list (list (list A))).

Lemma update3_Ok t b h w f t' :
  update3 t b h w f = Ok t' →
  ∃ nb nh nw img row x y,
    norm_index (length t) b = Ok nb ∧ t !! nb = Some img ∧
    norm_index (length img) h = Ok nh ∧ img !! nh = Some row ∧
    norm_index (length row) w = Ok nw ∧ row !! nw = Some x ∧
    f x = Ok y ∧
    t' = <[nb := <[nh := <[nw := y]> row]> img]> t.
Proof.
  unfold update3. intros Hu.
  apply update_at_Ok in Hu as (nb & img & img' & Hb & Himg & Hu & ->).
  apply update_at_Ok in Hu as (nh & row & row' & Hh & Hrow & Hu & ->).
  apply update_at_Ok in Hu as (nw & x & y & Hw & Hx & Hf & ->).
  by exists nb, nh, nw, img, row, x, y.
Qed.

Lemma cell_at_insert t nb nh nw img row y p :
  t !! nb = Some img → img !! nh = Some row → (nw < length row)%nat →
  cell_at (<[nb := <[nh := <[nw := y]> row]> img]> t) p =
    if decide (p = (nb, nh, nw)) then Some y else cell_at t p.
Proof.
  intros Himg Hrow Hw. destruct p as [[b h] w]. unfold cell_at.
  apply lookup_lt_Some in Himg as Hb. apply lookup_lt_Some in Hrow as Hh.
  destruct (decide (b = nb)) as [->|Hnb].
  - rewrite list_lookup_insert_eq by done. simpl. rewrite Himg. simpl.
    destruct (decide (h = nh)) as [->|Hnh].
    + rewrite list_lookup_insert_eq by done. simpl. rewrite Hrow. simpl.
      destruct (decide (w = nw)) as [->|Hnw].
      * rewrite list_lookup_insert_eq by done. by rewrite decide_True.
      * rewrite list_lookup_insert_ne by done. rewrite decide_False; [done|congruence].
    + rewrite list_lookup_insert_ne by done. rewrite decide_False; [done|congruence].
  - rewrite list_lookup_insert_ne by done. rewrite decide_False; [done|congruence].
Qed.

Lemma cell_at_Some t b h w x :
  cell_at t (b, h, w) = Some x ↔
  ∃ img row, t !! b = Some img ∧ img !! h = Some row ∧ row !! w = Some x.
Proof.
  unfold cell_at. split.
  - intros Hc. destruct (t !! b) as [img|]; [|done]. simpl in Hc.
    destruct (img !! h) as [row|] eqn:Hr; [|done]. simpl in Hc.
    exists img, row. done.
  - intros (img & row & -> & Hr & Hx). simpl. rewrite Hr. done.
Qed.

Lemma has_shape3_insert B H W t nb nh nw img row y :
  has_shape3 B H W t → t !! nb = Some img → img !! nh = Some row →
  has_shape3 B H W (<[nb := <[nh := <[nw := y]> row]> img]> t).
Proof.
  intros [HB HF] Himg Hrow. split; [by rewrite length_insert|].
  apply Forall_insert; [done|].
  pose proof (Forall_lookup_1 _ _ _ _ HF Himg) as [HH HFr].
  split; [by rewrite length_insert|].
  apply Forall_insert; [done|].
  pose proof (Forall_lookup_1 _ _ _ _ HFr Hrow) as HW; simpl in HW.
  by rewrite length_insert.
Qed.

Lemma has_shape3_cell_at B H W t b h w :
  has_shape3 B H W t → (b < B)%nat → (h < H)%nat → (w < W)%nat →
  is_Some (cell_at t (b, h, w)).
Proof.
  intros [HB HF] Hb Hh Hw.
  destruct (lookup_lt_is_Some_2 t b) as [img Himg]; [lia|].
  pose proof (Forall_lookup_1 _ _ _ _ HF Himg) as [HH HFr].
  destruct (lookup_lt_is_Some_2 img h) as [row Hrow]; [lia|].
  pose proof (Forall_lookup_1 _ _ _ _ HFr Hrow) as HW; simpl in HW.
  destruct (lookup_lt_is_Some_2 row w) as [x Hx]; [lia|].
  exists x. apply cell_at_Some. eauto.
Qed.

Lemma has_shape3_cell_at_lt B H W t b h w x :
  has_shape3 B H W t → cell_at t (b, h, w) = Some x →
  (b < B)%nat ∧ (h < H)%nat ∧ (w < W)%nat.
Proof.
  intros [HB HF] (img & row & Himg & Hrow & Hx)%cell_at_Some.
  pose proof (Forall_lookup_1 _ _ _ _ HF Himg) as [HH HFr].
  pose proof (Forall_lookup_1 _ _ _ _ HFr Hrow) as HW; simpl in HW.
  apply lookup_lt_Some in Himg, Hrow, Hx. lia.
Qed.

Lemma has_shape3_lengths B H W t b h img row :
  has_shape3 B H W t → t !! b = Some img → img !! h = Some row →
  length t = B ∧ length img = H ∧ length row = W.
Proof.
  intros [HB HF] Himg Hrow.
  pose proof (Forall_lookup_1 _ _ _ _ HF Himg) as [HH HFr].
  pose proof (Forall_lookup_1 _ _ _ _ HFr Hrow) as HW; simpl in HW. done.
Qed.
End nested_update.

Lemma update3_cells {A : Type} B H W (t : list (list (list A))) b h w f t' :
  has_shape3 B H W t → update3 t b h w f = Ok t' →
  ∃ nb nh nw x y,
    norm_index B b = Ok nb ∧ norm_index H h = Ok nh ∧ norm_index W w = Ok nw ∧
    cell_at t (nb, nh, nw) = Some x ∧ f x = Ok y ∧
    has_shape3 B H W t' ∧
    ∀ p, cell_at t' p = if decide (p = (nb, nh, nw)) then Some y else cell_at t p.
Proof.
  intros Hs Hu.
  apply update3_Ok in Hu
    as (nb & nh & nw & img & row & x & y & Hb & Himg & Hh & Hrow & Hw & Hx & Hf & ->).
  destruct (has_shape3_lengths _ _ _ _ _ _ _ _ Hs Himg Hrow) as (<- & <- & <-).
  exists nb, nh, nw, x, y. split_and!; try done.
  - apply cell_at_Some. eauto.
  - by apply has_shape3_insert.
  - intros p. apply cell_at_insert; [done..|]. by eapply lookup_lt_Some.
Qed.

Lemma setitem4_cells B H W (t : tensor4 R) b h w c v t' :
  has_shape3 B H W t → setitem4 t (b, h, w, c) v = Ok t' →
  ∃ nb nh nw nc cell,
    norm_index B b = Ok nb ∧ norm_index H h = Ok nh ∧ norm_index W w = Ok nw ∧
    cell_at t (nb, nh, nw) = Some cell ∧ norm_index (length cell) c = Ok nc ∧
    has_shape3 B H W t' ∧
    ∀ p, cell_at t' p =
         if decide (p = (nb, nh, nw)) then Some (<[nc := v]> cell) else cell_at t p.
Proof.
  intros Hs Hu.
  change (update3 t b h w (fun cell => update_at cell c (fun _ => Ok v)) = Ok t') in Hu.
  apply (update3_cells B H W) in Hu
    as (nb & nh & nw & x & y & Hb & Hh & Hw & Hx & Hf & Hs' & Hc); [|done].
  apply update_at_Ok in Hf as (nc & ? & ? & Hnc & _ & [= <-] & ->).
  by exists nb, nh, nw, nc, x.
Qed.

Lemma setitem3_cells B H W (t : tensor3 Z) b h w v t' :
  has_shape3 B H W t → setitem3 t (b, h, w) v = Ok t' →
  ∃ nb nh nw x,
    norm_index B b = Ok nb ∧ norm_index H h = Ok nh ∧ norm_index W w = Ok nw ∧
    cell_at t (nb, nh, nw) = Some x ∧
    has_shape3 B H W t' ∧
    ∀ p, cell_at t' p = if decide (p = (nb, nh, nw)) then Some v else cell_at t p.
Proof.
  intros Hs Hu.
  change (update3 t b h w (fun _ => Ok v) = Ok t') in Hu.
  apply (update3_cells B H W) in Hu
    as (nb & nh & nw & x & y & Hb & Hh & Hw & Hx & [= <-] & Hs' & Hc); [|done].
  by exists nb, nh, nw, x.
Qed.

(** ** [build_target] *)

Lemma mapM_replicate {A B : Type} (f : A -> result B) n x y :
  f x = Ok y → mapM f (replicate n x) = Ok (replicate n y).
Proof.
  intros Hf. apply mapM_Ok. induction n; simpl; by constructor.
Qed.

Lemma mapM_replicate_inv {A B : Type} (f : A -> result B) n x l :
  mapM f (replicate n x) = Ok l →
  (n = 0%nat ∧ l = []) ∨ ∃ y, f x = Ok y ∧ l = replicate n y.
Proof.
  destruct n as [|n]; [intros [= <-]; by left|].
  intros Hm. right. simpl in Hm.
  apply bind_Ok in Hm as (y & Hy & Hm). apply bind_Ok in Hm as (k & Hk & Hm).
  injection Hm as <-. exists y. split; [done|].
  rewrite (mapM_replicate f n x y Hy) in Hk. by injection Hk as <-.
Qed.

Lemma has_shape3_replicate {A : Type} B H W (x : A) :
  has_shape3 B H W (replicate B (replicate H (replicate W x))).
Proof.
  split; [by rewrite length_replicate|].
  apply Forall_replicate. split; [by rewrite length_replicate|].
  apply Forall_replicate. by rewrite length_replicate.
Qed.

Lemma cell_at_replicate {A : Type} B H W (x y : A) p :
  cell_at (replicate B (replicate H (replicate W x))) p = Some y → y = x.
Proof.
  destruct p as [[b h] w].
  intros (img & row & (-> & _)%lookup_replicate & (-> & _)%lookup_replicate
          & (-> & _)%lookup_replicate)%cell_at_Some. done.
Qed.

Lemma multi_hot_length C ls : length (multi_hot C ls) = C.
Proof. unfold multi_hot. by rewrite length_fmap, length_seq. Qed.

Lemma multi_hot_lookup C ls c :
  (c < C)%nat →
  multi_hot C ls !! c =
    Some (if decide (c = 0%nat)
          then (if decide (ls = []) then 1%R else 0%R)
          else (if decide (c ∈ ls) then 1%R else 0%R)).
Proof.
  intros Hc. unfold multi_hot. rewrite list_lookup_fmap.
  by rewrite (proj2 (lookup_seq 0 C c c)).
Qed.

Lemma multi_hot_nil C :
  (0 < C)%nat → <[0%nat := 1%R]> (replicate C 0%R) = multi_hot C [].
Proof.
  intros HC. apply list_eq. intros c.
  destruct (decide (c < C)%nat) as [Hc|Hc].
  - rewrite multi_hot_lookup by done.
    destruct (decide (c = 0%nat)) as [->|Hne].
    + rewrite list_lookup_insert_eq by (by rewrite length_replicate). done.
    + rewrite list_lookup_insert_ne by done.
      rewrite decide_False by (by inversion 1).
      apply lookup_replicate. done.
  - rewrite !lookup_ge_None_2;
      rewrite ?length_insert, ?length_replicate, ?multi_hot_length; [done|lia..].
Qed.

Lemma multi_hot_snoc C ls k :
  (0 < k < C)%nat →
  <[k := 1%R]> (<[0%nat := 0%R]> (multi_hot C ls)) = multi_hot C (ls ++ [k]).
Proof.
  intros Hk. apply list_eq. intros c.
  destruct (decide (c < C)%nat) as [Hc|Hc].
  - rewrite (multi_hot_lookup C (ls ++ [k])) by done.
    destruct (decide (c = k)) as [->|Hne].
    + rewrite list_lookup_insert_eq
        by (rewrite length_insert, multi_hot_length; lia).
      rewrite decide_False by lia.
      rewrite decide_True; [done|]. apply elem_of_app. right. by apply list_elem_of_singleton.
    + rewrite list_lookup_insert_ne by done.
      destruct (decide (c = 0%nat)) as [->|Hne0].
      * rewrite list_lookup_insert_eq by (rewrite multi_hot_length; lia).
        rewrite decide_False; [done|]. by destruct ls.
      * rewrite list_lookup_insert_ne by done.
        rewrite multi_hot_lookup by done. rewrite decide_False by done.
        f_equal. destruct (decide (c ∈ ls)) as [Hin|Hin].
        -- rewrite decide_True; [done|]. apply elem_of_app. by left.
        -- rewrite decide_False; [done|].
           intros [?|Hin']%elem_of_app; [done|].
           apply list_elem_of_singleton in Hin'. done.
  - rewrite !lookup_ge_None_2;
      rewrite ?length_insert, ?multi_hot_length; [done|lia..].
Qed.

Lemma fill_channel0_zeros B H W C g :
  fill_channel0 1%R (zeros4 B H W C) = Ok g → target_invariant B H W C [] g.
Proof.
  unfold fill_channel0, zeros4. intros Hm.
  assert (∃ c0, g = replicate B (replicate H (replicate W c0)) ∧
                ((B = 0 ∨ H = 0 ∨ W = 0)%nat ∨
                 ((0 < C)%nat ∧ c0 = multi_hot C []))) as (c0 & -> & Hc0).
  { apply mapM_replicate_inv in Hm as [[-> ->]|(img & Hm & ->)];
      [exists []; split; [done|by left; left]|].
    apply mapM_replicate_inv in Hm as [[-> ->]|(row & Hm & ->)];
      [exists []; split; [done|by left; right; left]|].
    apply mapM_replicate_inv in Hm as [[-> ->]|(cell & Hm & ->)];
      [exists []; split; [done|by left; right; right]|].
    exists cell. split; [done|right].
    apply update_at_Ok in Hm as (k & x & y & Hk & Hx & [= <-] & ->).
    apply norm_index_nonneg_inv in Hk as [HC ->]; [|done].
    rewrite length_replicate in HC. split; [lia|]. apply multi_hot_nil. lia. }
  split; [apply has_shape3_replicate|].
  intros p cell Hcell.
  pose proof (has_shape3_cell_at_lt B H W _ p.1.1 p.1.2 p.2 cell
                (has_shape3_replicate B H W c0)) as Hlt.
  destruct p as [[b h] w]. simpl in Hlt. specialize (Hlt Hcell).
  apply cell_at_replicate in Hcell as ->.
  destruct Hc0 as [Hz|[HC ->]]; [lia|done].
Qed.

Lemma labels_at_snoc B H W seen a p :
  labels_at B H W (seen ++ [a]) p =
    labels_at B H W seen p ++
      (if decide (cell_of B H W a = Ok p) then [label_of a] else []).
Proof.
  unfold labels_at. rewrite filter_app, fmap_app. f_equal.
  rewrite filter_cons, filter_nil. by destruct (decide _).
Qed.

Lemma build_target_step_invariant B H W C seen a g g' :
  1 <= py_int (class_id a) <= Z.of_nat C - 1 →
  target_invariant B H W C seen g →
  build_target_step H W g a = Ok g' →
  target_invariant B H W C (seen ++ [a]) g'.
Proof.
  intros Hcls [Hs Hcells] Hstep. unfold build_target_step in Hstep.
  apply bind_Ok in Hstep as (g1 & Hset0 & Hset1).
  apply (setitem4_cells B H W) in Hset0
    as (nb & nh & nw & n0 & cell & Hb & Hh & Hw & Hcell & Hn0 & Hs1 & Hg1); [|done].
  apply (setitem4_cells B H W) in Hset1
    as (nb' & nh' & nw' & nc & cell1 & Hb' & Hh' & Hw' & Hcell1 & Hnc & Hs' & Hg');
    [|done].
  rewrite Hb in Hb'. rewrite Hh in Hh'. rewrite Hw in Hw'.
  injection Hb' as <-. injection Hh' as <-. injection Hw' as <-.
  rewrite Hg1, decide_True in Hcell1 by done. injection Hcell1 as <-.
  destruct (Hcells _ _ Hcell) as [HC ->].
  rewrite multi_hot_length in Hn0.
  rewrite length_insert, multi_hot_length in Hnc.
  apply norm_index_nonneg_inv in Hn0 as [_ ->]; [|done].
  apply norm_index_nonneg_inv in Hnc as [_ ->]; [|lia].
  assert (cell_of B H W a = Ok (nb, nh, nw)) as Hcell_of.
  { unfold cell_of. rewrite Hb. simpl. rewrite Hh. simpl. by rewrite Hw. }
  split; [done|]. intros p c Hp. rewrite Hg' in Hp. split; [done|].
  rewrite labels_at_snoc, Hcell_of.
  destruct (decide (p = (nb, nh, nw))) as [->|Hne].
  - injection Hp as <-. rewrite decide_True by done.
    apply multi_hot_snoc. unfold label_of in *. lia.
  - rewrite Hg1, decide_False in Hp by done.
    rewrite decide_False by congruence. rewrite app_nil_r.
    by destruct (Hcells _ _ Hp) as [_ ->].
Qed.

Lemma build_target_invariant preds targets g B H W C :
  shape4 preds = (B, H, W, C) →
  (∀ a, a ∈ targets → 1 <= py_int (class_id a) <= Z.of_nat C - 1) →
  build_target preds targets = Ok g →
  target_invariant B H W C targets g.
Proof.
  intros Hshape Hcls Hrun. unfold build_target in Hrun. rewrite Hshape in Hrun.
  apply bind_Ok in Hrun as (g0 & Hfill & Hloop).
  apply fill_channel0_zeros in Hfill.
  apply (for_each_invariant (build_target_step H W)
           (target_invariant B H W C) targets g0 g); [|done..].
  intros seen a s s' Ha HI Hstep.
  eapply build_target_step_invariant; eauto.
Qed.

Lemma has_shape4_of_cells {A : Type} B H W C (t : tensor4 A) :
  has_shape3 B H W t →
  (∀ p cell, cell_at t p = Some cell → length cell = C) →
  has_shape4 B H W C t.
Proof.
  intros [HB HF] Hcells. split; [done|].
  apply Forall_lookup_2. intros b img Himg.
  destruct (Forall_lookup_1 _ _ _ _ HF Himg) as [HH HFr]. split; [done|].
  apply Forall_lookup_2. intros h row Hrow.
  pose proof (Forall_lookup_1 _ _ _ _ HFr Hrow) as HW. simpl in HW.
  split; [done|].
  apply Forall_lookup_2. intros w cell Hcell.
  apply (Hcells (b, h, w)). apply cell_at_Some. eauto.
Qed.

Lemma has_shape4_shape3 {A : Type} B H W C (t : tensor4 A) :
  has_shape4 B H W C t → has_shape3 B H W t.
Proof.
  intros [HB HF]. split; [done|].
  eapply Forall_impl; [exact HF|]. intros img [HH HFr]. split; [done|].
  eapply Forall_impl; [exact HFr|]. by intros row [HW _].
Qed.

Lemma has_shape4_cell_length {A : Type} B H W C (t : tensor4 A) p cell :
  has_shape4 B H W C t → cell_at t p = Some cell → length cell = C.
Proof.
  destruct p as [[b h] w].
  intros [HB HF] (img & row & Himg & Hrow & Hcell)%cell_at_Some.
  destruct (Forall_lookup_1 _ _ _ _ HF Himg) as [HH HFr].
  destruct (Forall_lookup_1 _ _ _ _ HFr Hrow) as [HW HFc].
  apply (Forall_lookup_1 _ _ _ _ HFc Hcell).
Qed.

Lemma multi_hot_background C :
  (0 < C)%nat → one_hot_at 0 (multi_hot C []).
Proof.
  intros HC. split; [by rewrite multi_hot_length|].
  intros c v Hv. apply lookup_lt_Some in Hv as Hc.
  rewrite multi_hot_length in Hc. rewrite multi_hot_lookup in Hv by done.
  injection Hv as <-. by destruct (decide (c = 0%nat)).
Qed.

Lemma multi_hot_single_class C ls k :
  (0 < k < C)%nat → k ∈ ls → (∀ k', k' ∈ ls → k' = k) →
  one_hot_at k (multi_hot C ls).
Proof.
  intros Hk Hin Hall. split; [rewrite multi_hot_length; lia|].
  intros c v Hv. apply lookup_lt_Some in Hv as Hc.
  rewrite multi_hot_length in Hc. rewrite multi_hot_lookup in Hv by done.
  injection Hv as <-.
  destruct (decide (c = 0%nat)) as [->|Hc0].
  - rewrite decide_False by (intros ->; by inversion Hin).
    rewrite decide_False; [done|lia].
  - destruct (decide (c = k)) as [->|Hne].
    + by rewrite decide_True.
    + rewrite decide_False; [done|]. intros Hc'. by apply Hne, Hall.
Qed.

Lemma labels_at_elem B H W targets p k :
  k ∈ labels_at B H W targets p ↔
  ∃ a, a ∈ targets ∧ cell_of B H W a = Ok p ∧ label_of a = k.
Proof.
  unfold labels_at. rewrite list_elem_of_fmap. split.
  - intros (a & -> & [Hc Ha]%list_elem_of_filter). eauto.
  - intros (a & Ha & Hc & <-). exists a. split; [done|].
    by apply list_elem_of_filter.
Qed.

(** C1 (as amended).  Every cell of a grid returned by [build_target] is
    one-hot along the attribute axis, for any prediction shape and any
    annotations with class ids in [1, C-1], provided that annotations written
    to the same cell carry the same class id. *)
Theorem build_target_one_hot preds targets g B H W C :
  shape4 preds = (B, H, W, C) →
  (∀ a, a ∈ targets → 1 <= py_int (class_id a) <= Z.of_nat C - 1) →
  (∀ a1 a2, a1 ∈ targets → a2 ∈ targets →
     cell_of B H W a1 = cell_of B H W a2 →
     py_int (class_id a1) = py_int (class_id a2)) →
  build_target preds targets = Ok g →
  has_shape4 B H W C g ∧
  ∀ b h w, (b < B)%nat → (h < H)%nat → (w < W)%nat →
    ∃ cell, cell_at g (b, h, w) = Some cell ∧ one_hot cell.
Proof.
  intros Hshape Hcls Hsame Hrun.
  destruct (build_target_invariant _ _ _ _ _ _ _ Hshape Hcls Hrun) as [Hs Hcells].
  split.
  { apply has_shape4_of_cells; [done|]. intros p cell Hp.
    destruct (Hcells _ _ Hp) as [_ ->]. apply multi_hot_length. }
  intros b h w Hb Hh Hw.
  destruct (has_shape3_cell_at B H W g b h w Hs Hb Hh Hw) as [cell Hcell].
  exists cell. split; [done|].
  destruct (Hcells _ _ Hcell) as [HC ->].
  destruct (labels_at B H W targets (b, h, w)) as [|k ls] eqn:Hls.
  - exists 0%nat. by apply multi_hot_background.
  - assert (k ∈ labels_at B H W targets (b, h, w)) as Hk
      by (rewrite Hls; by left).
    apply labels_at_elem in Hk as (a & Ha & Hca & Hka).
    exists k. rewrite <- Hls. apply multi_hot_single_class.
    + specialize (Hcls a Ha). unfold label_of in Hka. lia.
    + rewrite Hls. by left.
    + intros k' (a' & Ha' & Hca' & Hka')%labels_at_elem.
      assert (py_int (class_id a') = py_int (class_id a)) as Heq
        by (apply Hsame; [done..|congruence]).
      unfold label_of in *. congruence.
Qed.

(** A grid with a single box of class 2: every cell is one-hot. *)
Lemma build_target_one_hot_witness :
  has_shape4 1 2 2 3 single_grid ∧
  ∀ b h w, (b < 1)%nat → (h < 2)%nat → (w < 2)%nat →
    ∃ cell, cell_at single_grid (b, h, w) = Some cell ∧ one_hot cell.
Proof.
  apply (build_target_one_hot overlap_preds single_targets single_grid 1 2 2 3).
  - reflexivity.
  - intros a Ha. apply list_elem_of_singleton in Ha as ->. vm_compute.
    split; discriminate.
  - intros a1 a2 Ha1 Ha2 _.
    apply list_elem_of_singleton in Ha1 as ->.
    by apply list_elem_of_singleton in Ha2 as ->.
  - vm_compute. reflexivity.
Defined.

(** C1 (as stated) fails: two annotations of different classes written to
    the same cell leave both class channels set. *)
Lemma build_target_one_hot_counterexample :
  (∀ a, a ∈ overlap_targets →
     py_int (batch_index a) < 1 ∧ 1 <= py_int (class_id a) <= 3 - 1) ∧
  build_target overlap_preds overlap_targets = Ok overlap_grid ∧
  cell_at overlap_grid (0, 1, 1)%nat = Some [0; 1; 1]%R ∧
  ¬ one_hot [0; 1; 1]%R.
Proof.
  split_and!.
  - intros a Ha. unfold overlap_targets in Ha.
    apply elem_of_cons in Ha as [->|Ha];
      [|apply list_elem_of_singleton in Ha as ->];
      vm_compute; (split; [reflexivity | split; discriminate]).
  - vm_compute. reflexivity.
  - reflexivity.
  - intros (k & _ & Hk).
    pose proof (Hk 1%nat 1%R eq_refl) as H1.
    pose proof (Hk 2%nat 1%R eq_refl) as H2.
    destruct (decide (1%nat = k)) as [<-|_]; [|lra].
    rewrite decide_False in H2 by done. lra.
Qed.

(** ** Annotations with fractions in [0, 1) *)

Lemma py_int_nonneg q : (0 <= q)%Q → py_int q = Qfloor q.
Proof.
  destruct q as [n d]. unfold py_int, Qfloor, Qle. simpl. intros Hn.
  apply Z.quot_div_nonneg; lia.
Qed.

Lemma grid_index_in_range (y : Q) (H : nat) :
  (0 <= y)%Q → (y < 1)%Q → (0 < H)%nat →
  py_int (y * inject_Z (Z.of_nat H)) = Qfloor (y * inject_Z (Z.of_nat H)) ∧
  0 <= Qfloor (y * inject_Z (Z.of_nat H)) < Z.of_nat H.
Proof.
  intros Hy0 Hy1 HH.
  assert (0 < inject_Z (Z.of_nat H))%Q as HHq
    by (change 0%Q with (inject_Z 0); rewrite <- Zlt_Qlt; lia).
  assert (0 <= y * inject_Z (Z.of_nat H))%Q as Hge
    by (apply Qmult_le_0_compat; [done|by apply Qlt_le_weak]).
  split; [by apply py_int_nonneg|]. split.
  - rewrite <- (Qfloor_Z 0). by apply Qfloor_resp_le.
  - rewrite Zlt_Qlt. eapply Qle_lt_trans; [apply Qfloor_le|].
    rewrite <- (Qmult_1_l (inject_Z (Z.of_nat H))) at 2.
    by apply Qmult_lt_compat_r.
Qed.


Lemma filter_ext_elem {A : Type} (P1 P2 : A → Prop)
    `{∀ x, Decision (P1 x)} `{∀ x, Decision (P2 x)} (l : list A) :
  (∀ x, x ∈ l → P1 x ↔ P2 x) → filter P1 l = filter P2 l.
Proof.
  induction l as [|x l IH]; intros Hext; [done|].
  rewrite !filter_cons.
  assert (filter P1 l = filter P2 l) as ->
    by (apply IH; intros y Hy; apply Hext; by right).
  pose proof (Hext x (list_elem_of_here _ _)) as Hx.
  destruct (decide (P1 x)), (decide (P2 x)); tauto.
Qed.


Lemma setitem4_total B H W C (t : tensor4 R) b h w c v :
  has_shape4 B H W C t →
  0 <= b < Z.of_nat B → 0 <= h < Z.of_nat H → 0 <= w < Z.of_nat W →
  0 <= c < Z.of_nat C →
  ∃ t', setitem4 t (b, h, w, c) v = Ok t' ∧ has_shape4 B H W C t'.
Proof.
  intros Hs Hb Hh Hw Hc.
  pose proof (has_shape4_shape3 _ _ _ _ _ Hs) as Hs3.
  destruct (has_shape3_cell_at B H W t (Z.to_nat b) (Z.to_nat h) (Z.to_nat w) Hs3)
    as [cell Hcell]; [lia..|].
  pose proof (has_shape4_cell_length _ _ _ _ _ _ _ Hs Hcell) as Hlen.
  apply cell_at_Some in Hcell as Hlook. destruct Hlook as (img & row & Himg & Hrow & Hx).
  destruct (has_shape3_lengths _ _ _ _ _ _ _ _ Hs3 Himg Hrow) as (HB & HH & HW).
  assert (setitem4 t (b, h, w, c) v =
          Ok (<[Z.to_nat b := <[Z.to_nat h := <[Z.to_nat w :=
                <[Z.to_nat c := v]> cell]> row]> img]> t)) as Hset.
  { unfold setitem4.
    apply update_at_Ok. eexists _, img, _. split_and!;
      [apply norm_index_nonneg; lia|done| |done].
    apply update_at_Ok. eexists _, row, _. split_and!;
      [apply norm_index_nonneg; lia|done| |done].
    apply update_at_Ok. eexists _, cell, _. split_and!;
      [apply norm_index_nonneg; lia|done| |done].
    apply update_at_Ok.
    destruct (lookup_lt_is_Some_2 cell (Z.to_nat c)) as [x0 Hx0]; [lia|].
    eexists _, x0, _. split_and!; [apply norm_index_nonneg; lia|done..]. }
  destruct (setitem4_cells B H W t b h w c v _ Hs3 Hset)
    as (nb & nh & nw & nc & cell0 & _ & _ & _ & Hcell0 & _ & Hs3' & Hcells').
  eexists. split; [exact Hset|].
  apply has_shape4_of_cells; [done|].
  intros p cell' Hp. rewrite Hcells' in Hp.
  destruct (decide (p = _)).
  - injection Hp as <-. rewrite length_insert.
    by eapply has_shape4_cell_length.
  - by eapply has_shape4_cell_length.
Qed.

Lemma build_target_step_total B H W C g a :
  (0 < H)%nat → (0 < W)%nat →
  valid_annotation B H W C a → has_shape4 B H W C g →
  ∃ g', build_target_step H W g a = Ok g' ∧ has_shape4 B H W C g'.
Proof.
  intros HH HW (Hx & Hy & Hb & Hc) Hs. unfold build_target_step.
  destruct (grid_index_in_range (y_center a) H) as [-> Hh]; [tauto..|].
  destruct (grid_index_in_range (x_center a) W) as [-> Hw]; [tauto..|].
  generalize dependent (Qfloor (y_center a * inject_Z (Z.of_nat H))).
  generalize dependent (Qfloor (x_center a * inject_Z (Z.of_nat W))).
  intros w Hw h Hh.
  destruct (setitem4_total B H W C g (py_int (batch_index a)) h w 0 0%R Hs)
    as (g1 & -> & Hs1); [lia..|].
  simpl. apply setitem4_total; [done|lia..].
Qed.

Lemma fill_channel0_total B H W C :
  (0 < C)%nat →
  ∃ g, fill_channel0 1%R (zeros4 B H W C) = Ok g ∧ has_shape4 B H W C g.
Proof.
  intros HC. exists (replicate B (replicate H (replicate W (multi_hot C [])))).
  split.
  - unfold fill_channel0, zeros4. do 3 apply mapM_replicate.
    apply update_at_Ok. exists 0%nat, 0%R, 1%R. split_and!; try done.
    + apply norm_index_nonneg. rewrite length_replicate. lia.
    + apply lookup_replicate. split; [done|lia].
    + symmetry. by apply multi_hot_nil.
  - apply has_shape4_of_cells; [apply has_shape3_replicate|].
    intros p cell ->%cell_at_replicate. apply multi_hot_length.
Qed.

(** [build_target] returns on valid annotations. *)
Lemma build_target_total preds targets B H W C :
  shape4 preds = (B, H, W, C) →
  (0 < H)%nat → (0 < W)%nat → (0 < C)%nat →
  (∀ a, a ∈ targets → valid_annotation B H W C a) →
  ∃ g, build_target preds targets = Ok g ∧ has_shape4 B H W C g.
Proof.
  intros Hshape HH HW HC Hvalid. unfold build_target. rewrite Hshape.
  destruct (fill_channel0_total B H W C HC) as (g0 & -> & Hs0). simpl.
  apply (for_each_total (build_target_step H W) (has_shape4 B H W C)); [|done].
  intros g a Ha Hs. apply build_target_step_total; auto.
Qed.

Ltac by_computation :=
  vm_compute; repeat split; first [reflexivity | discriminate].




(** ** Arg-max and softmax *)

Lemma argmax_from_fmap {A B : Type} (gtbA : A -> A -> bool) (gtbB : B -> B -> bool)
    (f : B -> A) xs best besti i :
  (∀ x y, gtbA (f x) (f y) = gtbB x y) →
  argmax_from gtbA (f best) besti i (f <$> xs) = argmax_from gtbB best besti i xs.
Proof.
  intros Hf. revert best besti i.
  induction xs as [|x xs IH]; intros best besti i; simpl; [done|].
  rewrite Hf. destruct (gtbB x best); apply IH.
Qed.

(** A strictly monotone change of scale does not move the arg-max. *)
Lemma argmax_by_fmap {A B : Type} (gtbA : A -> A -> bool) (gtbB : B -> B -> bool)
    (f : B -> A) xs :
  (∀ x y, gtbA (f x) (f y) = gtbB x y) →
  argmax_by gtbA (f <$> xs) = argmax_by gtbB xs.
Proof.
  intros Hf. destruct xs as [|x xs]; simpl; [done|].
  f_equal. f_equal. by apply argmax_from_fmap.
Qed.

Lemma Rgtb_IZR x y : Rgtb (IZR x) (IZR y) = (y <? x).
Proof.
  unfold Rgtb. destruct (Rlt_dec (IZR y) (IZR x)) as [Hlt|Hnlt].
  - apply lt_IZR in Hlt. symmetry. by apply Z.ltb_lt.
  - symmetry. apply Z.ltb_ge. destruct (Z.lt_ge_cases y x) as [Hlt|Hge]; [|done].
    by apply IZR_lt in Hlt.
Qed.

Lemma argmax_IZR (xs : list Z) :
  argmax (IZR <$> xs) = argmax_by (fun x y => y <? x) xs.
Proof. apply argmax_by_fmap. intros x y. apply Rgtb_IZR. Qed.

Lemma sumR_exp_pos xs : xs ≠ [] → (0 < sumR (exp <$> xs))%R.
Proof.
  destruct xs as [|x xs]; [done|]. intros _.
  assert (0 <= sumR (exp <$> xs))%R as Hge.
  { induction xs as [|y ys IH]; [simpl; lra|].
    change (0 <= exp y + sumR (exp <$> ys))%R.
    pose proof (exp_pos y). lra. }
  change (0 < exp x + sumR (exp <$> xs))%R.
  pose proof (exp_pos x). lra.
Qed.

Lemma Rgtb_softmax s x y :
  (0 < s)%R → Rgtb (exp x / s) (exp y / s) = Rgtb x y.
Proof.
  intros Hs. unfold Rgtb.
  destruct (Rlt_dec y x) as [Hlt|Hnlt].
  - apply exp_increasing in Hlt.
    destruct (Rlt_dec (exp y / s) (exp x / s)) as [|Hn]; [done|].
    exfalso. apply Hn. unfold Rdiv. apply Rmult_lt_compat_r; [|done].
    by apply Rinv_0_lt_compat.
  - destruct (Rlt_dec (exp y / s) (exp x / s)) as [Hlt|]; [|done].
    exfalso. apply Hnlt. apply exp_lt_inv.
    unfold Rdiv in Hlt. apply Rmult_lt_reg_r in Hlt; [done|].
    by apply Rinv_0_lt_compat.
Qed.

(** In exact arithmetic the softmax of a channel vector has its first
    maximum where the vector has it. *)
Lemma argmax_softmax xs : argmax (softmax xs) = argmax xs.
Proof.
  destruct (decide (xs = [])) as [->|Hne]; [done|].
  unfold softmax, argmax. apply argmax_by_fmap.
  intros x y. apply Rgtb_softmax. by apply sumR_exp_pos.
Qed.

Lemma mapM_fmap {A B D : Type} (f : B -> result D) (g : A -> B) (l : list A) :
  mapM f (g <$> l) = mapM (fun x => f (g x)) l.
Proof.
  induction l as [|x l IH]; csimpl; [done|].
  destruct (f (g x)) as [y|e]; csimpl; [|done]. f_equal. exact IH.
Qed.

Lemma mapM_ext {A B : Type} (f g : A -> result B) (l : list A) :
  (∀ x, f x = g x) → mapM f l = mapM g l.
Proof.
  intros Hfg. induction l as [|x l IH]; csimpl; [done|].
  rewrite Hfg. destruct (g x) as [y|e]; csimpl; [|done]. f_equal. exact IH.
Qed.

Lemma argmax_last_softmax (t : tensor4 R) :
  argmax_last (softmax_last t) = argmax_last t.
Proof.
  unfold argmax_last, softmax_last, map3.
  rewrite mapM_fmap. apply mapM_ext. intros img.
  rewrite mapM_fmap. apply mapM_ext. intros row.
  rewrite mapM_fmap. apply mapM_ext. intros cell.
  apply argmax_softmax.
Qed.

Lemma argmax_last_of_Z (t : tensor4 Z) :
  argmax_last (of_Z4 t) = argmaxZ_last t.
Proof.
  unfold argmax_last, of_Z4, argmaxZ_last, map3.
  rewrite mapM_fmap. apply mapM_ext. intros img.
  rewrite mapM_fmap. apply mapM_ext. intros row.
  rewrite mapM_fmap. apply mapM_ext. intros cell.
  apply argmax_IZR.
Qed.

(** On integer-valued tensors the metric is computed by integer
    comparisons alone. *)
Lemma get_pricsion_recall_f1_of_Z self (preds target : tensor4 Z) :
  get_pricsion_recall_f1 self (of_Z4 preds) (of_Z4 target) =
    target_max ← argmaxZ_last target;
    preds_max ← argmaxZ_last preds;
    precision_recall_f1_of self preds_max target_max.
Proof.
  unfold get_pricsion_recall_f1.
  by rewrite argmax_last_softmax, !argmax_last_of_Z.
Qed.

(** ** The tolerant matching pass *)

Lemma where_positive_elem (t : tensor3 Z) (p : Z * Z * Z) :
  p ∈ where_positive t ↔
  ∃ b h w v, p = (Z.of_nat b, Z.of_nat h, Z.of_nat w) ∧
             cell_at t (b, h, w) = Some v ∧ 0 < v.
Proof.
  unfold where_positive. split.
  - intros (l1 & Hp & Hl1)%list_elem_of_join.
    apply elem_of_lookup_imap_1 in Hl1 as (b & img & -> & Himg).
    apply list_elem_of_join in Hp as (l2 & Hp & Hl2).
    apply elem_of_lookup_imap_1 in Hl2 as (h & row & -> & Hrow).
    apply list_elem_of_join in Hp as (l3 & Hp & Hl3).
    apply elem_of_lookup_imap_1 in Hl3 as (w & v & -> & Hv).
    destruct (0 <? v) eqn:Hpos; [|by apply elem_of_nil in Hp].
    apply list_elem_of_singleton in Hp as ->.
    exists b, h, w, v. split_and!; [done| |by apply Z.ltb_lt].
    apply cell_at_Some. eauto.
  - intros (b & h & w & v & -> & (img & row & Himg & Hrow & Hv)%cell_at_Some & Hpos).
    apply list_elem_of_join. eexists. split;
      [|by apply (elem_of_lookup_imap_2 _ t img b)].
    apply list_elem_of_join. eexists. split;
      [|by apply (elem_of_lookup_imap_2 _ img row h)].
    apply list_elem_of_join. eexists. split;
      [|by apply (elem_of_lookup_imap_2 _ row v w)].
    apply Z.ltb_lt in Hpos. cbv beta. rewrite Hpos. by apply list_elem_of_singleton.
Qed.

Lemma getitem3_of_nat {A : Type} (t : tensor3 A) b h w x :
  cell_at t (b, h, w) = Some x →
  getitem3 t (Z.of_nat b, Z.of_nat h, Z.of_nat w) = Ok x.
Proof.
  intros (img & row & Himg & Hrow & Hx)%cell_at_Some. unfold getitem3.
  rewrite (getitem_of_nat t b img Himg). simpl.
  rewrite (getitem_of_nat img h row Hrow). simpl.
  by apply getitem_of_nat.
Qed.

Lemma getitem3_in_range {A : Type} B H W (t : tensor3 A) b h w :
  has_shape3 B H W t →
  0 <= b < Z.of_nat B → 0 <= h < Z.of_nat H → 0 <= w < Z.of_nat W →
  ∃ x, getitem3 t (b, h, w) = Ok x ∧
       cell_at t (Z.to_nat b, Z.to_nat h, Z.to_nat w) = Some x.
Proof.
  intros Hs Hb Hh Hw.
  destruct (has_shape3_cell_at B H W t (Z.to_nat b) (Z.to_nat h) (Z.to_nat w) Hs)
    as [x Hx]; [lia..|].
  exists x. split; [|done].
  apply getitem3_of_nat in Hx. by rewrite !Z2Nat.id in Hx by lia.
Qed.

(** Writing the value a cell already holds leaves the tensor as it is. *)
Lemma setitem3_same {A : Type} (t : tensor3 A) idx v :
  getitem3 t idx = Ok v → setitem3 t idx v = Ok t.
Proof.
  destruct idx as [[b h] w]. unfold getitem3, setitem3. intros Hg.
  apply bind_Ok in Hg as (img & Hg1 & Hg). apply bind_Ok in Hg as (row & Hg2 & Hg).
  apply getitem_Ok in Hg1 as (nb & Hb & Himg).
  apply getitem_Ok in Hg2 as (nh & Hh & Hrow).
  apply getitem_Ok in Hg as (nw & Hw & Hx).
  apply update_at_Ok. exists nb, img, img. split_and!; [done..| |].
  - apply update_at_Ok. exists nh, row, row. split_and!; [done..| |].
    + apply update_at_Ok. exists nw, v, v. split_and!; [done..|].
      symmetry. by apply list_insert_id.
    + symmetry. by apply list_insert_id.
  - symmetry. by apply list_insert_id.
Qed.

Lemma setitem3_total B H W (t : tensor3 Z) b h w v :
  has_shape3 B H W t →
  0 <= b < Z.of_nat B → 0 <= h < Z.of_nat H → 0 <= w < Z.of_nat W →
  ∃ t', setitem3 t (b, h, w) v = Ok t' ∧ has_shape3 B H W t'.
Proof.
  intros Hs Hb Hh Hw.
  destruct (has_shape3_cell_at B H W t (Z.to_nat b) (Z.to_nat h) (Z.to_nat w) Hs)
    as [x Hx]; [lia..|].
  apply cell_at_Some in Hx as (img & row & Himg & Hrow & Hx).
  destruct (has_shape3_lengths _ _ _ _ _ _ _ _ Hs Himg Hrow) as (HB & HH & HW).
  exists (<[Z.to_nat b := <[Z.to_nat h := <[Z.to_nat w := v]> row]> img]> t).
  split; [|by apply has_shape3_insert].
  unfold setitem3.
  apply update_at_Ok. eexists _, img, _. split_and!;
    [apply norm_index_nonneg; lia|done| |done].
  apply update_at_Ok. eexists _, row, _. split_and!;
    [apply norm_index_nonneg; lia|done| |done].
  apply update_at_Ok. eexists _, x, _. split_and!;
    [apply norm_index_nonneg; lia|done..].
Qed.

Lemma guard_passed site :
  any_lt site 0 || any_gt site 11 = false →
  0 <= site.1.1 <= 11 ∧ 0 <= site.1.2 <= 11 ∧ 0 <= site.2 <= 11.
Proof.
  destruct site as [[b h] w]. unfold any_lt, any_gt. simpl. intros Hg.
  apply orb_false_elim in Hg as [Hlt Hgt].
  apply orb_false_elim in Hlt as [Hlt Hw]. apply orb_false_elim in Hlt as [Hb Hh].
  apply orb_false_elim in Hgt as [Hgt Hw']. apply orb_false_elim in Hgt as [Hb' Hh'].
  lia.
Qed.

(** C8.  When a neighbour offset takes a true object cell (for instance one
    at row 0 or column 0) to a site with a negative coordinate, the loop body
    does nothing: it raises nothing and leaves both grids as they are; the
    site is neither wrapped around nor clamped. *)
Theorem match_site_negative_skipped preds_index ti po preds_max target_max :
  (let '(b, h, w) := add3 ti po in b < 0 ∨ h < 0 ∨ w < 0) →
  match_site preds_index ti (preds_max, target_max) po = Ok (preds_max, target_max).
Proof.
  intros Hneg. unfold match_site.
  destruct (add3 ti po) as [[b h] w] eqn:Hsite.
  assert (any_lt (b, h, w) 0 = true) as ->; [|done].
  unfold any_lt. apply orb_true_iff. rewrite orb_true_iff, !Z.ltb_lt. tauto.
Qed.

(** A true object cell in the top-left corner and the offset (0, -1, -1). *)
Lemma match_site_negative_skipped_witness :
  match_site [(0, 0, 0)] (0, 0, 0) ([[[2; 0]; [0; 2]]], [[[2; 0]; [0; 0]]]) (0, -1, -1)
  = Ok ([[[2; 0]; [0; 2]]], [[[2; 0]; [0; 0]]]).
Proof.
  apply (match_site_negative_skipped [(0, 0, 0)] (0, 0, 0) (0, -1, -1)).
  simpl. lia.
Defined.

Lemma posit_offset_batch po : po ∈ posit_offset → po.1.1 = 0.
Proof.
  assert (Forall (fun po : Z * Z * Z => po.1.1 = 0) posit_offset) as HF
    by (repeat constructor).
  intros Hpo. by apply (proj1 (Forall_forall _ _) HF).
Qed.

Lemma where_positive_in_range B H W (t : tensor3 Z) ti :
  has_shape3 B H W t → ti ∈ where_positive t →
  0 <= ti.1.1 < Z.of_nat B ∧ 0 <= ti.1.2 < Z.of_nat H ∧ 0 <= ti.2 < Z.of_nat W.
Proof.
  intros Hs (b & h & w & v & -> & Hv & _)%where_positive_elem.
  apply (has_shape3_cell_at_lt B H W) in Hv; [|done]. simpl. lia.
Qed.

(** The site reached from an in-range cell by a guarded offset is in range
    when the guard's bound 11 is inside the grid. *)
Lemma guarded_site_in_range (B H W : nat) ti po :
  (12 <= H)%nat → (12 <= W)%nat →
  0 <= ti.1.1 < Z.of_nat B → po.1.1 = 0 →
  any_lt (add3 ti po) 0 || any_gt (add3 ti po) 11 = false →
  0 <= (add3 ti po).1.1 < Z.of_nat B ∧ 0 <= (add3 ti po).1.2 < Z.of_nat H ∧
  0 <= (add3 ti po).2 < Z.of_nat W.
Proof.
  intros HH HW Hb Hpo Hg. apply guard_passed in Hg.
  destruct ti as [[b h] w], po as [[ob oh] ow]. simpl in *. lia.
Qed.

Lemma match_site_total B H W (Q : Z -> Prop) preds_index ti po preds_max target_max :
  has_shape3 B H W preds_max → has_shape3 B H W target_max →
  (∀ p v, cell_at target_max p = Some v → Q v) →
  (12 <= H)%nat → (12 <= W)%nat →
  0 <= ti.1.1 < Z.of_nat B ∧ 0 <= ti.1.2 < Z.of_nat H ∧ 0 <= ti.2 < Z.of_nat W →
  po.1.1 = 0 →
  ∃ st', match_site preds_index ti (preds_max, target_max) po = Ok st' ∧
         has_shape3 B H W st'.1 ∧ has_shape3 B H W st'.2 ∧
         (∀ p v, cell_at st'.2 p = Some v → Q v).
Proof.
  intros Hsp Hst HQ HH HW Hti Hpo. unfold match_site.
  destruct (any_lt (add3 ti po) 0 || any_gt (add3 ti po) 11) eqn:Hg;
    [by eexists|].
  destruct (tensor_contains (add3 ti po) preds_index); [|by eexists].
  pose proof (guarded_site_in_range B H W ti po HH HW (proj1 Hti) Hpo Hg) as Hsite.
  destruct (add3 ti po) as [[sb sh] sw]. destruct ti as [[b h] w].
  cbn [fst snd] in *.
  destruct (getitem3_in_range B H W preds_max sb sh sw Hsp) as (p & -> & _);
    [lia..|].
  destruct (getitem3_in_range B H W target_max b h w Hst) as (t & -> & Ht);
    [lia..|].
  cbn [mbind result_bind]. destruct (p =? t); [|by eexists].
  destruct (setitem3_total B H W preds_max sb sh sw t Hsp) as (pm' & -> & Hsp');
    [lia..|].
  destruct (setitem3_total B H W target_max sb sh sw t Hst) as (tm' & Hset & Hst');
    [lia..|].
  rewrite Hset. cbn [mbind result_bind]. eexists. split_and!; [done..|].
  cbn [snd]. intros q v Hv.
  apply (setitem3_cells B H W) in Hset
    as (nb & nh & nw & x & _ & _ & _ & _ & _ & Hcells); [|done].
  rewrite Hcells in Hv. destruct (decide (q = _)).
  - injection Hv as <-. by eapply HQ.
  - by eapply HQ.
Qed.

(** On grids of at least 12 rows and 12 columns the matching pass does not
    raise; it keeps the shapes, and every label of the resulting target
    grid is a label of the target grid it started from. *)
Lemma tolerant_matching_total B H W (Q : Z -> Prop) preds_max target_max :
  has_shape3 B H W preds_max → has_shape3 B H W target_max →
  (∀ p v, cell_at target_max p = Some v → Q v) →
  (12 <= H)%nat → (12 <= W)%nat →
  ∃ st', tolerant_matching preds_max target_max = Ok st' ∧
         has_shape3 B H W st'.1 ∧ has_shape3 B H W st'.2 ∧
         (∀ p v, cell_at st'.2 p = Some v → Q v).
Proof.
  intros Hsp Hst HQ HH HW. unfold tolerant_matching.
  apply (for_each_total (match_target (where_positive preds_max))
           (fun st => has_shape3 B H W st.1 ∧ has_shape3 B H W st.2 ∧
                      (∀ p v, cell_at st.2 p = Some v → Q v))); [|done].
  intros st ti Hti (Hs1 & Hs2 & HQ2). unfold match_target.
  apply (for_each_total (match_site (where_positive preds_max) ti)
           (fun st => has_shape3 B H W st.1 ∧ has_shape3 B H W st.2 ∧
                      (∀ p v, cell_at st.2 p = Some v → Q v))); [|done].
  intros [pm tm] po Hpo (Hs1' & Hs2' & HQ2').
  apply match_site_total; try done.
  - by apply (where_positive_in_range B H W target_max).
  - by apply posit_offset_batch.
Qed.

Lemma for_each_fixed {St X : Type} (body : St -> X -> result St) xs s :
  (∀ x, x ∈ xs → body s x = Ok s) → for_each body xs s = Ok s.
Proof.
  induction xs as [|x xs IH]; intros Hfix; simpl; [done|].
  rewrite Hfix by (by left). simpl. apply IH. intros y Hy. apply Hfix. by right.
Qed.

Lemma match_site_perfect B H W preds_index ti po g :
  has_shape3 B H W g → (12 <= H)%nat → (12 <= W)%nat →
  0 <= ti.1.1 < Z.of_nat B ∧ 0 <= ti.1.2 < Z.of_nat H ∧ 0 <= ti.2 < Z.of_nat W →
  po.1.1 = 0 →
  match_site preds_index ti (g, g) po = Ok (g, g).
Proof.
  intros Hs HH HW Hti Hpo. unfold match_site.
  destruct (any_lt (add3 ti po) 0 || any_gt (add3 ti po) 11) eqn:Hg; [done|].
  destruct (tensor_contains (add3 ti po) preds_index); [|done].
  pose proof (guarded_site_in_range B H W ti po HH HW (proj1 Hti) Hpo Hg) as Hsite.
  destruct (add3 ti po) as [[sb sh] sw]. destruct ti as [[b h] w].
  cbn [fst snd] in *.
  destruct (getitem3_in_range B H W g sb sh sw Hs) as (p & Hp & _); [lia..|].
  destruct (getitem3_in_range B H W g b h w Hs) as (t & Ht & _); [lia..|].
  rewrite Hp, Ht. cbn [mbind result_bind]. destruct (p =? t) eqn:Heq; [|done].
  apply Z.eqb_eq in Heq as ->.
  by rewrite (setitem3_same g (sb, sh, sw) t Hp).
Qed.

(** When the predicted classes are the target classes, the pass changes
    nothing. *)
Lemma tolerant_matching_perfect B H W g :
  has_shape3 B H W g → (12 <= H)%nat → (12 <= W)%nat →
  tolerant_matching g g = Ok (g, g).
Proof.
  intros Hs HH HW. unfold tolerant_matching.
  apply for_each_fixed. intros ti Hti. unfold match_target.
  apply for_each_fixed. intros po Hpo.
  apply (match_site_perfect B H W); try done.
  - by apply (where_positive_in_range B H W g).
  - by apply posit_offset_batch.
Qed.

(** ** Which exceptions can be raised *)

Lemma raises_only_Ok {A : Type} es (a : A) : raises_only es (Ok a).
Proof. by intros e. Qed.

Lemma raises_only_Raise {A : Type} es e : e ∈ es → raises_only es (@Raise A e).
Proof. by intros He e' [= <-]. Qed.

Lemma raises_only_bind {A B : Type} es (m : result A) (k : A -> result B) :
  raises_only es m → (∀ a, m = Ok a → raises_only es (k a)) →
  raises_only es (m ≫= k).
Proof.
  intros Hm Hk. destruct m as [a|e]; simpl; [by apply Hk|].
  intros e' [= <-]. by apply Hm.
Qed.

Lemma raises_only_mapM {A B : Type} es (f : A -> result B) l :
  (∀ x, raises_only es (f x)) → raises_only es (mapM f l).
Proof.
  intros Hf. induction l as [|x l IH]; [apply raises_only_Ok|].
  change (raises_only es (y ← f x; k ← mapM f l; mret (y :: k))).
  apply raises_only_bind; [done|]. intros y _.
  apply raises_only_bind; [done|]. intros k _. apply raises_only_Ok.
Qed.

Lemma raises_only_for_each {St X : Type} es (body : St -> X -> result St) xs s :
  (∀ s x, raises_only es (body s x)) → raises_only es (for_each body xs s).
Proof.
  intros Hbody. revert s. induction xs as [|x xs IH]; intros s;
    [apply raises_only_Ok|].
  simpl. apply raises_only_bind; [done|]. intros s' _. apply IH.
Qed.

Lemma raises_only_norm_index es size i :
  IndexError ∈ es → raises_only es (norm_index size i).
Proof.
  intros He. unfold norm_index.
  repeat case_match; try apply raises_only_Ok. by apply raises_only_Raise.
Qed.

Lemma raises_only_getitem {A : Type} es (l : list A) i :
  IndexError ∈ es → raises_only es (getitem l i).
Proof.
  intros He. unfold getitem.
  apply raises_only_bind; [by apply raises_only_norm_index|]. intros k _.
  case_match; [apply raises_only_Ok | by apply raises_only_Raise].
Qed.

Lemma raises_only_update_at {A : Type} es (l : list A) i f :
  IndexError ∈ es → (∀ x, raises_only es (f x)) →
  raises_only es (update_at l i f).
Proof.
  intros He Hf. unfold update_at.
  apply raises_only_bind; [by apply raises_only_getitem|]. intros x _.
  apply raises_only_bind; [done|]. intros y _.
  apply raises_only_bind; [by apply raises_only_norm_index|]. intros k _.
  apply raises_only_Ok.
Qed.

Lemma raises_only_getitem3 {A : Type} es (t : tensor3 A) idx :
  IndexError ∈ es → raises_only es (getitem3 t idx).
Proof.
  intros He. destruct idx as [[b h] w]. unfold getitem3.
  apply raises_only_bind; [by apply raises_only_getitem|]. intros img _.
  apply raises_only_bind; [by apply raises_only_getitem|]. intros row _.
  by apply raises_only_getitem.
Qed.

Lemma raises_only_setitem3 {A : Type} es (t : tensor3 A) idx v :
  IndexError ∈ es → raises_only es (setitem3 t idx v).
Proof.
  intros He. destruct idx as [[b h] w]. unfold setitem3.
  repeat (apply raises_only_update_at; [done|]; intros ?).
  apply raises_only_Ok.
Qed.

Lemma raises_only_match_site es preds_index ti st po :
  IndexError ∈ es → raises_only es (match_site preds_index ti st po).
Proof.
  intros He. destruct st as [pm tm]. unfold match_site.
  case_match; [apply raises_only_Ok|].
  case_match; [|apply raises_only_Ok].
  apply raises_only_bind; [by apply raises_only_getitem3|]. intros p _.
  apply raises_only_bind; [by apply raises_only_getitem3|]. intros t _.
  case_match; [|apply raises_only_Ok].
  apply raises_only_bind; [by apply raises_only_getitem3|]. intros v _.
  apply raises_only_bind; [by apply raises_only_setitem3|]. intros pm' _.
  apply raises_only_bind; [by apply raises_only_getitem3|]. intros v' _.
  apply raises_only_bind; [by apply raises_only_setitem3|]. intros tm' _.
  apply raises_only_Ok.
Qed.

Lemma raises_only_tolerant_matching es preds_max target_max :
  IndexError ∈ es → raises_only es (tolerant_matching preds_max target_max).
Proof.
  intros He. unfold tolerant_matching.
  apply raises_only_for_each. intros st ti. unfold match_target.
  apply raises_only_for_each. intros st' po.
  by apply raises_only_match_site.
Qed.

Lemma raises_only_argmax_last es t :
  IndexError ∈ es → raises_only es (argmax_last t).
Proof.
  intros He. unfold argmax_last.
  do 3 (apply raises_only_mapM; intros ?).
  unfold argmax, argmax_by. case_match;
    [by apply raises_only_Raise | apply raises_only_Ok].
Qed.

Lemma raises_only_confusion_matrix es y_true y_pred n :
  ValueError ∈ es → raises_only es (confusion_matrix y_true y_pred n).
Proof.
  intros He. unfold confusion_matrix.
  repeat case_match; try apply raises_only_Ok; by apply raises_only_Raise.
Qed.

(** ** Confusion matrix and scores *)

Lemma imap_seq_lookup {A B : Type} (g : nat -> A -> B) (l : list A) (d : A) :
  imap g l = (fun j => g j (default d (l !! j))) <$> seq 0 (length l).
Proof.
  apply list_eq. intros i.
  rewrite list_lookup_imap, list_lookup_fmap.
  destruct (l !! i) as [x|] eqn:Hx.
  - rewrite lookup_seq_lt by (by eapply lookup_lt_Some). simpl. by rewrite Hx.
  - rewrite lookup_seq_ge by (by apply lookup_ge_None). done.
Qed.

Lemma sum_over_ext n f g :
  (∀ i, (i < n)%nat → f i = g i) → sum_over n f = sum_over n g.
Proof.
  intros Hfg. unfold sum_over. f_equal. apply list_eq. intros i.
  rewrite !list_lookup_fmap.
  destruct (seq 0 n !! i) as [j|] eqn:Hj; [|done].
  apply lookup_seq in Hj as [-> Hi]. simpl. f_equal. by apply Hfg.
Qed.

Lemma sumZ_zero xs : Forall (fun x => x = 0) xs → sumZ xs = 0.
Proof. induction 1 as [|x xs -> _ IH]; simpl; [done|]. by rewrite IH. Qed.

Lemma sum_over_zero n f : (∀ i, (i < n)%nat → f i = 0) → sum_over n f = 0.
Proof.
  intros Hf. unfold sum_over. apply sumZ_zero.
  apply Forall_fmap, Forall_forall. intros i Hi.
  apply elem_of_seq in Hi. apply Hf. lia.
Qed.

Lemma sumZ_nonneg xs : Forall (fun x => 0 <= x) xs → 0 <= sumZ xs.
Proof. induction 1 as [|x xs Hx _ IH]; simpl; lia. Qed.

Lemma sumZ_elem_le xs x : Forall (fun x => 0 <= x) xs → x ∈ xs → x <= sumZ xs.
Proof.
  induction 1 as [|y ys Hy Hys IH]; [by intros ?%elem_of_nil|].
  pose proof (sumZ_nonneg ys Hys).
  intros [->|Hin]%elem_of_cons; simpl; [lia|]. specialize (IH Hin). lia.
Qed.

Lemma sum_over_split_first n f :
  (0 < n)%nat → sum_over n f = f 0%nat + sumZ (f <$> seq 1 (n - 1)).
Proof.
  intros Hn. unfold sum_over. destruct n as [|n]; [lia|].
  simpl. by rewrite Nat.sub_0_r.
Qed.

Lemma square_entry n m i row :
  square n m → m !! i = Some row →
  length row = n ∧ ∀ j, entry m i j = default 0 (row !! j).
Proof.
  intros [Hlen HF] Hrow. split; [apply (Forall_lookup_1 _ _ _ _ HF Hrow)|].
  intros j. unfold entry. by rewrite Hrow.
Qed.

Lemma sumZ_diagonal n m :
  square n m → sumZ (diagonal m) = sum_over n (fun i => entry m i i).
Proof.
  intros Hsq. unfold diagonal, sum_over. f_equal.
  rewrite (imap_seq_lookup _ m []), (proj1 Hsq).
  apply list_eq. intros i. rewrite !list_lookup_fmap.
  destruct (seq 0 n !! i) as [j|] eqn:Hj; [|done].
  apply lookup_seq in Hj as [-> Hi]. simpl. f_equal.
  unfold entry. destruct (m !! i); done.
Qed.

Lemma sumZ2_masked n m (keep : nat -> nat -> bool) :
  square n m →
  sumZ2 (imap (fun i row => imap (fun j x => if keep i j then x else 0) row) m)
  = sum_where n keep m.
Proof.
  intros Hsq. unfold sumZ2, sum_where, sum_over. f_equal.
  rewrite (imap_seq_lookup _ m []), (proj1 Hsq). rewrite <- list_fmap_compose.
  apply list_eq. intros i. rewrite !list_lookup_fmap.
  destruct (seq 0 n !! i) as [i'|] eqn:Hi; [|done].
  apply lookup_seq in Hi as [-> Hi]. simpl. f_equal. f_equal.
  destruct (lookup_lt_is_Some_2 m i) as [row Hrow]; [by rewrite (proj1 Hsq)|].
  destruct (square_entry n m i row Hsq Hrow) as [Hlen Hentry].
  rewrite Hrow. simpl. rewrite (imap_seq_lookup _ row 0), Hlen.
  apply list_eq. intros j. rewrite !list_lookup_fmap.
  destruct (seq 0 n !! j) as [j'|] eqn:Hj; [|done].
  apply lookup_seq in Hj as [-> Hj]. simpl. by rewrite Hentry.
Qed.

(** [np.tril(m, -1).sum()] adds the entries strictly below the diagonal and
    [np.triu(m, 1).sum()] those strictly above it. *)
Lemma sumZ2_tril n m :
  square n m → sumZ2 (tril m (-1)) = sum_where n (fun i j => (j <? i)%nat) m.
Proof.
  intros Hsq. rewrite <- (sumZ2_masked n m) by done. unfold tril.
  f_equal. apply imap_ext. intros i row _. apply imap_ext. intros j x _.
  destruct (j <? i)%nat eqn:Hji.
  - apply Nat.ltb_lt in Hji. by rewrite (proj2 (Z.leb_le _ _)) by lia.
  - apply Nat.ltb_ge in Hji. by rewrite (proj2 (Z.leb_gt _ _)) by lia.
Qed.

Lemma sumZ2_triu n m :
  square n m → sumZ2 (triu m 1) = sum_where n (fun i j => (i <? j)%nat) m.
Proof.
  intros Hsq. rewrite <- (sumZ2_masked n m) by done. unfold triu.
  f_equal. apply imap_ext. intros i row _. apply imap_ext. intros j x _.
  destruct (i <? j)%nat eqn:Hij.
  - apply Nat.ltb_lt in Hij. by rewrite (proj2 (Z.leb_le _ _)) by lia.
  - apply Nat.ltb_ge in Hij. by rewrite (proj2 (Z.leb_gt _ _)) by lia.
Qed.

Lemma confusion_counts_sums n m :
  square n m →
  confusion_counts m =
    (entry m 0 0,
     sum_over n (fun i => entry m i i) - entry m 0 0,
     sum_where n (fun i j => (j <? i)%nat) m,
     sum_where n (fun i j => (i <? j)%nat) m).
Proof.
  intros Hsq. unfold confusion_counts.
  by rewrite (sumZ_diagonal n), (sumZ2_tril n), (sumZ2_triu n).
Qed.

Lemma confusion_matrix_Ok y_true y_pred n m :
  confusion_matrix y_true y_pred n = Ok m →
  (0 < n)%nat ∧ square n m ∧
  ∀ i j, (i < n)%nat → (j < n)%nat →
    entry m i j = count_pairs y_true y_pred (Z.of_nat i) (Z.of_nat j).
Proof.
  unfold confusion_matrix. intros Hm.
  destruct (decide (n = 0%nat)) as [|Hn]; [done|]. split; [lia|].
  destruct (decide (y_true = [])) as [->|Hne].
  - injection Hm as <-. split.
    + split; [by rewrite length_replicate|].
      apply Forall_replicate. by rewrite length_replicate.
    + intros i j Hi Hj. unfold entry.
      rewrite (proj2 (lookup_replicate n _ (replicate n 0) i)) by done. simpl.
      by rewrite (proj2 (lookup_replicate n _ 0 j)).
  - destruct (forallb _ y_true); [done|]. injection Hm as <-. split.
    + split; [by rewrite length_fmap, length_seq|].
      apply Forall_fmap, Forall_forall. intros i _. simpl.
      by rewrite length_fmap, length_seq.
    + intros i j Hi Hj. unfold entry.
      rewrite list_lookup_fmap, lookup_seq_lt by done. simpl.
      by rewrite list_lookup_fmap, lookup_seq_lt.
Qed.

Lemma true_divide_Ok a b : ¬ (b == 0)%Q → true_divide a b = Ok (a / b)%Q.
Proof.
  intros Hb. unfold true_divide.
  destruct (Qeq_bool b 0) eqn:Heq; [|done]. by apply Qeq_bool_eq in Heq.
Qed.

Lemma inject_Z_nonzero z : z ≠ 0 → ¬ (inject_Z z == 0)%Q.
Proof. intros Hz Heq. apply Hz. unfold Qeq in Heq. simpl in Heq. lia. Qed.

(** The value of [scores] for the counts [(tn, tp, fn, fp)]. *)
Lemma scores_of_counts confusion :
  let '(_, tp, fn, fp) := confusion_counts confusion in
  scores confusion =
    if (tp + fp =? 0) || (tp + fn =? 0) then Ok (0%Q, 0%Q, 0%Q)
    else
      let p := (inject_Z tp / inject_Z (tp + fp))%Q in
      let r := (inject_Z tp / inject_Z (tp + fn))%Q in
      Ok (p, r, if Qeq_bool (p + r) 0 then 0%Q else (2 * (p * r) / (p + r))%Q).
Proof.
  unfold scores. destruct (confusion_counts confusion) as [[[tn tp] fn] fp].
  destruct ((tp + fp =? 0) || (tp + fn =? 0)) eqn:Hz; [done|].
  apply orb_false_elim in Hz as [Hfp%Z.eqb_neq Hfn%Z.eqb_neq].
  rewrite !true_divide_Ok by (by apply inject_Z_nonzero).
  cbn [mbind result_bind].
  destruct (Qeq_bool _ 0) eqn:Hpr; simpl; [done|].
  rewrite true_divide_Ok; [done|]. intros Heq.
  apply Qeq_eq_bool in Heq. congruence.
Qed.

Lemma raises_only_scores es confusion : raises_only es (scores confusion).
Proof.
  pose proof (scores_of_counts confusion) as Hs.
  destruct (confusion_counts confusion) as [[[tn tp] fn] fp].
  rewrite Hs. case_match; apply raises_only_Ok.
Qed.

(** The metric raises nothing but [IndexError] (from the matching pass or an
    empty attribute axis) and [ValueError] (from [confusion_matrix]). *)
Lemma raises_only_get_pricsion_recall_f1 self preds target :
  raises_only [IndexError; ValueError] (get_pricsion_recall_f1 self preds target).
Proof.
  assert (IndexError ∈ [IndexError; ValueError]) as HI by (by left).
  assert (ValueError ∈ [IndexError; ValueError]) as HV by (right; by left).
  unfold get_pricsion_recall_f1.
  apply raises_only_bind; [by apply raises_only_argmax_last|]. intros tm _.
  apply raises_only_bind; [by apply raises_only_argmax_last|]. intros pm _.
  unfold precision_recall_f1_of.
  apply raises_only_bind; [by apply raises_only_tolerant_matching|].
  intros [pm' tm'] _.
  apply raises_only_bind; [by apply raises_only_confusion_matrix|].
  intros confusion _. apply raises_only_scores.
Qed.

(** C5.  [get_pricsion_recall_f1] never raises a division-by-zero error, and
    whenever it returns, its result is read off the
    (num_classes+1) x (num_classes+1) confusion matrix of the matched grids:
    with tn = confusion[0][0], tp = sum of the diagonal - tn, fn = sum of the
    entries strictly below the diagonal and fp = sum of the entries strictly
    above it, the result is (0, 0, 0) when tp+fp = 0 or tp+fn = 0, and
    otherwise P = tp/(tp+fp), R = tp/(tp+fn), F1 = 2PR/(P+R), or 0 when
    P+R = 0. *)
Theorem precision_recall_f1_from_confusion self preds target :
  get_pricsion_recall_f1 self preds target ≠ Raise ZeroDivisionError ∧
  ∀ res, get_pricsion_recall_f1 self preds target = Ok res →
    ∃ target_max preds_max target_max' preds_max' confusion,
      argmax_last target = Ok target_max ∧
      argmax_last (softmax_last preds) = Ok preds_max ∧
      tolerant_matching preds_max target_max = Ok (preds_max', target_max') ∧
      confusion_matrix (flatten3 target_max') (flatten3 preds_max')
        (num_classes self + 1) = Ok confusion ∧
      square (num_classes self + 1) confusion ∧
      let n := (num_classes self + 1)%nat in
      let tn := entry confusion 0 0 in
      let tp := sum_over n (fun i => entry confusion i i) - tn in
      let fn := sum_where n (fun i j => (j <? i)%nat) confusion in
      let fp := sum_where n (fun i j => (i <? j)%nat) confusion in
      confusion_counts confusion = (tn, tp, fn, fp) ∧
      (tp + fp = 0 ∨ tp + fn = 0 → res = (0%Q, 0%Q, 0%Q)) ∧
      (tp + fp ≠ 0 → tp + fn ≠ 0 →
         let p := (inject_Z tp / inject_Z (tp + fp))%Q in
         let r := (inject_Z tp / inject_Z (tp + fn))%Q in
         res = (p, r, if Qeq_bool (p + r) 0 then 0%Q
                      else (2 * (p * r) / (p + r))%Q)).
Proof.
  split.
  { intros Hraise.
    apply raises_only_get_pricsion_recall_f1 in Hraise.
    repeat (apply elem_of_cons in Hraise as [?|Hraise]; [done|]).
    by apply elem_of_nil in Hraise. }
  intros res Hrun. unfold get_pricsion_recall_f1 in Hrun.
  apply bind_Ok in Hrun as (tm & Htm & Hrun).
  apply bind_Ok in Hrun as (pm & Hpm & Hrun).
  unfold precision_recall_f1_of in Hrun.
  apply bind_Ok in Hrun as ([pm' tm'] & Hmatch & Hrun).
  apply bind_Ok in Hrun as (confusion & Hconf & Hrun).
  exists tm, pm, tm', pm', confusion.
  destruct (confusion_matrix_Ok _ _ _ _ Hconf) as (Hn & Hsq & _).
  split_and!; [done..|].
  pose proof (scores_of_counts confusion) as Hs.
  rewrite (confusion_counts_sums _ _ Hsq) in Hs |- *.
  cbv zeta. split_and!; [done| |].
  - intros Hz. rewrite Hs in Hrun.
    rewrite (proj2 (orb_true_iff _ _)) in Hrun by (rewrite !Z.eqb_eq; tauto).
    by injection Hrun as <-.
  - intros Hfp Hfn. rewrite Hs in Hrun.
    rewrite (proj2 (orb_false_iff _ _)) in Hrun by (rewrite !Z.eqb_neq; tauto).
    by injection Hrun as <-.
Qed.

(** ** Perfect predictions *)

Lemma argmax_from_bound {A : Type} (gtb : A -> A -> bool) best besti i xs :
  (besti < i)%nat → (argmax_from gtb best besti i xs < i + length xs)%nat.
Proof.
  revert best besti i. induction xs as [|x xs IH]; intros best besti i Hlt;
    simpl; [lia|].
  destruct (gtb x best).
  - specialize (IH x i (S i)). lia.
  - specialize (IH best besti (S i)). lia.
Qed.

Lemma argmax_by_bound {A : Type} (gtb : A -> A -> bool) xs v :
  argmax_by gtb xs = Ok v → 0 <= v < Z.of_nat (length xs).
Proof.
  destruct xs as [|x xs]; [done|]. simpl. intros [= <-].
  pose proof (argmax_from_bound gtb x 0 1 xs). lia.
Qed.

(** Cell by cell description of [mapM (mapM (mapM f))] on a 3-D tensor. *)
Lemma mapM3_cells {A B : Type} (f : A -> result B) (t : list (list (list A))) g
    Bn H W :
  mapM (mapM (mapM f)) t = Ok g → has_shape3 Bn H W t →
  has_shape3 Bn H W g ∧
  ∀ p v, cell_at g p = Some v → ∃ x, cell_at t p = Some x ∧ f x = Ok v.
Proof.
  intros Hm Hs. apply mapM_Ok in Hm. split.
  - destruct Hs as [HB HF]. split; [by rewrite <- (Forall2_length _ _ _ Hm)|].
    apply Forall_lookup_2. intros b img' Himg'.
    destruct (Forall2_lookup_r _ _ _ _ _ Hm Himg') as (img & Himg & Hm2).
    apply mapM_Ok in Hm2.
    destruct (Forall_lookup_1 _ _ _ _ HF Himg) as [HH HFr].
    split; [by rewrite <- (Forall2_length _ _ _ Hm2)|].
    apply Forall_lookup_2. intros h row' Hrow'.
    destruct (Forall2_lookup_r _ _ _ _ _ Hm2 Hrow') as (row & Hrow & Hm3).
    apply mapM_Ok in Hm3.
    pose proof (Forall_lookup_1 _ _ _ _ HFr Hrow) as HW. simpl in HW.
    by rewrite <- (Forall2_length _ _ _ Hm3).
  - intros [[b h] w] v (img' & row' & Himg' & Hrow' & Hv)%cell_at_Some.
    destruct (Forall2_lookup_r _ _ _ _ _ Hm Himg') as (img & Himg & Hm2).
    apply mapM_Ok in Hm2.
    destruct (Forall2_lookup_r _ _ _ _ _ Hm2 Hrow') as (row & Hrow & Hm3).
    apply mapM_Ok in Hm3.
    destruct (Forall2_lookup_r _ _ _ _ _ Hm3 Hv) as (x & Hx & Hf).
    exists x. split; [|done]. apply cell_at_Some. eauto.
Qed.

Lemma argmax_last_cells B H W C (t : tensor4 R) g :
  has_shape4 B H W C t → argmax_last t = Ok g →
  has_shape3 B H W g ∧
  ∀ p v, cell_at g p = Some v → 0 <= v < Z.of_nat C.
Proof.
  intros Hs4 Hg.
  pose proof (has_shape4_shape3 _ _ _ _ _ Hs4) as Hs3.
  destruct (mapM3_cells argmax t g B H W Hg Hs3) as [Hsg Hcells].
  split; [done|]. intros p v Hv.
  destruct (Hcells p v Hv) as (cell & Hcell & Harg).
  apply argmax_by_bound in Harg.
  by rewrite (has_shape4_cell_length _ _ _ _ _ _ _ Hs4 Hcell) in Harg.
Qed.

Lemma flatten3_elem {A : Type} (t : tensor3 A) v :
  v ∈ flatten3 t ↔ ∃ p, cell_at t p = Some v.
Proof.
  unfold flatten3. rewrite list_elem_of_join. split.
  - intros (row & Hv & (img & Hrow & Himg)%list_elem_of_join).
    apply list_elem_of_lookup in Himg as [b Hb].
    apply list_elem_of_lookup in Hrow as [h Hh].
    apply list_elem_of_lookup in Hv as [w Hw].
    exists (b, h, w). apply cell_at_Some. eauto.
  - intros ([[b h] w] & (img & row & Himg & Hrow & Hv)%cell_at_Some).
    exists row. split; [by eapply list_elem_of_lookup_2|].
    apply list_elem_of_join. exists img.
    split; by eapply list_elem_of_lookup_2.
Qed.

Lemma zip_diag_elem {A : Type} (l : list A) x y : (x, y) ∈ zip l l → x = y.
Proof.
  induction l as [|z l IH]; simpl; [by intros ?%elem_of_nil|].
  intros [[= -> ->]|Hin]%elem_of_cons; [done|by apply IH].
Qed.

Lemma count_pairs_nonneg y_true y_pred i j : 0 <= count_pairs y_true y_pred i j.
Proof. unfold count_pairs. lia. Qed.

Lemma count_pairs_diag_off l i j : i ≠ j → count_pairs l l i j = 0.
Proof.
  intros Hij. unfold count_pairs.
  destruct (filter _ (zip l l)) as [|q qs] eqn:Hf; [done|].
  assert (q ∈ filter (fun p => p = (i, j)) (zip l l)) as Hq
    by (rewrite Hf; by left).
  apply list_elem_of_filter in Hq as [-> Hq]. by apply zip_diag_elem in Hq.
Qed.

Lemma count_pairs_diag_pos l k : k ∈ l → 0 < count_pairs l l k k.
Proof.
  intros Hk. unfold count_pairs.
  assert ((k, k) ∈ filter (fun p => p = (k, k)) (zip l l)) as Hin.
  { apply list_elem_of_filter. split; [done|].
    induction l as [|z l IH]; [by apply elem_of_nil in Hk|].
    apply elem_of_cons in Hk as [->|Hk]; simpl; [by left|right; by apply IH]. }
  destruct (filter _ (zip l l)); [by apply elem_of_nil in Hin|simpl; lia].
Qed.

Lemma confusion_matrix_labels_in_range y_true y_pred n :
  (0 < n)%nat → Forall (fun y => 0 <= y < Z.of_nat n) y_true →
  ∃ m, confusion_matrix y_true y_pred n = Ok m.
Proof.
  intros Hn Hrange. unfold confusion_matrix.
  rewrite decide_False by lia.
  destruct (decide (y_true = [])); [by eexists|].
  destruct (forallb _ y_true) eqn:Hall; [|by eexists].
  destruct y_true as [|y ys]; [done|].
  apply Forall_cons in Hrange as [Hy _]. simpl in Hall.
  apply andb_prop in Hall as [Hy' _].
  apply negb_true_iff, andb_false_iff in Hy' as [Hy'|Hy']; lia.
Qed.

(** Counts of a confusion matrix whose two label lists coincide. *)
Lemma confusion_counts_diag l n m k :
  confusion_matrix l l n = Ok m → k ∈ l → 0 < k < Z.of_nat n →
  ∃ tn tp, confusion_counts m = (tn, tp, 0, 0) ∧ 0 < tp.
Proof.
  intros Hm Hk Hkn. destruct (confusion_matrix_Ok _ _ _ _ Hm) as (Hn & Hsq & Hentry).
  rewrite (confusion_counts_sums n m Hsq). do 2 eexists. split.
  - f_equal; [f_equal|].
    + apply sum_over_zero. intros i Hi. apply sum_over_zero. intros j Hj.
      destruct (j <? i)%nat eqn:Hji; [|done]. apply Nat.ltb_lt in Hji.
      rewrite Hentry by done. apply count_pairs_diag_off. lia.
    + apply sum_over_zero. intros i Hi. apply sum_over_zero. intros j Hj.
      destruct (i <? j)%nat eqn:Hij; [|done]. apply Nat.ltb_lt in Hij.
      rewrite Hentry by done. apply count_pairs_diag_off. lia.
  - rewrite (sum_over_split_first n) by done.
    enough (entry m (Z.to_nat k) (Z.to_nat k)
            <= sumZ ((fun i => entry m i i) <$> seq 1 (n - 1))) as Hle.
    { rewrite Hentry, Z2Nat.id in Hle by lia.
      pose proof (count_pairs_diag_pos l k Hk). lia. }
    apply sumZ_elem_le.
    + apply Forall_fmap, Forall_forall. intros i Hi. apply elem_of_seq in Hi.
      simpl. rewrite Hentry by lia. apply count_pairs_nonneg.
    + apply list_elem_of_fmap. exists (Z.to_nat k). split; [done|].
      apply elem_of_seq. lia.
Qed.

Lemma scores_all_correct m tn tp :
  confusion_counts m = (tn, tp, 0, 0) → 0 < tp →
  ∃ p r f1, scores m = Ok (p, r, f1) ∧ (p == 1)%Q ∧ (r == 1)%Q ∧ (f1 == 1)%Q.
Proof.
  intros Hc Htp. pose proof (scores_of_counts m) as Hs. rewrite Hc in Hs.
  rewrite Z.add_0_r in Hs.
  rewrite (proj2 (orb_false_iff _ _)) in Hs by (rewrite !Z.eqb_neq; lia).
  cbv zeta in Hs.
  assert (inject_Z tp / inject_Z tp == 1)%Q as Hone.
  { apply Qmult_inv_r. apply inject_Z_nonzero. lia. }
  assert (Qeq_bool (inject_Z tp / inject_Z tp + inject_Z tp / inject_Z tp) 0
          = false) as Hpr.
  { apply not_true_is_false. intros Heq%Qeq_bool_eq.
    rewrite Hone in Heq. discriminate Heq. }
  rewrite Hpr in Hs. do 3 eexists. split; [exact Hs|].
  split_and!; [done..|]. rewrite Hone. reflexivity.
Qed.

Lemma count_pairs_absent l i j : i ∉ l → count_pairs l l i j = 0.
Proof.
  intros Hi. unfold count_pairs.
  destruct (filter _ (zip l l)) as [|q qs] eqn:Hf; [done|].
  assert (q ∈ filter (fun p => p = (i, j)) (zip l l)) as Hq
    by (rewrite Hf; by left).
  apply list_elem_of_filter in Hq as [-> Hq]. exfalso. apply Hi.
  clear Hf. induction l as [|z l IH]; simpl in Hq; [by apply elem_of_nil in Hq|].
  apply elem_of_cons in Hq as [[= -> ->]|Hq]; [by left|].
  right. apply IH; [|done]. intros Hin. apply Hi. by right.
Qed.

(** Counts of a confusion matrix whose two label lists coincide and hold
    background only. *)
Lemma confusion_counts_background l n m :
  confusion_matrix l l n = Ok m → Forall (fun y => y = 0) l →
  ∃ tn, confusion_counts m = (tn, 0, 0, 0).
Proof.
  intros Hm Hzero. destruct (confusion_matrix_Ok _ _ _ _ Hm) as (Hn & Hsq & Hentry).
  rewrite (confusion_counts_sums n m Hsq). eexists. f_equal; [f_equal; [f_equal|]|].
  - rewrite (sum_over_split_first n) by done.
    rewrite sumZ_zero; [lia|].
    apply Forall_fmap, Forall_forall. intros i Hi. apply elem_of_seq in Hi.
    simpl. rewrite Hentry by lia. apply count_pairs_absent.
    intros Hin. apply (proj1 (Forall_forall _ _) Hzero) in Hin. lia.
  - apply sum_over_zero. intros i Hi. apply sum_over_zero. intros j Hj.
    destruct (j <? i)%nat eqn:Hji; [|done]. apply Nat.ltb_lt in Hji.
    rewrite Hentry by done. apply count_pairs_diag_off. lia.
  - apply sum_over_zero. intros i Hi. apply sum_over_zero. intros j Hj.
    destruct (i <? j)%nat eqn:Hij; [|done]. apply Nat.ltb_lt in Hij.
    rewrite Hentry by done. apply count_pairs_diag_off. lia.
Qed.

(** C7 (as amended).  When the per-cell arg-max class of the predictions
    equals that of the target grid, on a grid of at least 12 rows and 12
    columns, [get_pricsion_recall_f1] returns P = R = F1 = 1 if the target
    has at least one object cell, and (0, 0, 0) if it has none. *)
Theorem perfect_prediction_scores self preds target B H W g :
  has_shape4 B H W (num_classes self + 1) target →
  (12 <= H)%nat → (12 <= W)%nat →
  argmax_last target = Ok g →
  argmax_last (softmax_last preds) = Ok g →
  ((∃ p v, cell_at g p = Some v ∧ 0 < v) →
   ∃ p r f1, get_pricsion_recall_f1 self preds target = Ok (p, r, f1) ∧
             (p == 1)%Q ∧ (r == 1)%Q ∧ (f1 == 1)%Q) ∧
  ((∀ p v, cell_at g p = Some v → v = 0) →
   get_pricsion_recall_f1 self preds target = Ok (0%Q, 0%Q, 0%Q)).
Proof.
  intros Hs4 HH HW Htm Hpm.
  destruct (argmax_last_cells _ _ _ _ _ _ Hs4 Htm) as [Hs3 Hrange].
  destruct (confusion_matrix_labels_in_range (flatten3 g) (flatten3 g)
              (num_attrib self)) as [m Hm].
  { unfold num_attrib. lia. }
  { apply Forall_forall. intros v [p Hv]%flatten3_elem.
    unfold num_attrib. by apply (Hrange p). }
  assert (get_pricsion_recall_f1 self preds target = scores m) as ->.
  { unfold get_pricsion_recall_f1. rewrite Htm, Hpm. cbn [mbind result_bind].
    unfold precision_recall_f1_of.
    rewrite (tolerant_matching_perfect B H W g Hs3 HH HW).
    cbn [mbind result_bind]. by rewrite Hm. }
  split.
  - intros (c & k & Hck & Hk).
    destruct (confusion_counts_diag (flatten3 g) (num_attrib self) m k Hm)
      as (tn & tp & Hcounts & Htp).
    { apply flatten3_elem. by exists c. }
    { unfold num_attrib. specialize (Hrange c k Hck). lia. }
    by apply (scores_all_correct m tn tp).
  - intros Hzero.
    destruct (confusion_counts_background (flatten3 g) (num_attrib self) m Hm)
      as [tn Hcounts].
    { apply Forall_forall. intros v [p Hv]%flatten3_elem. by apply (Hzero p). }
    pose proof (scores_of_counts m) as Hs. rewrite Hcounts in Hs. by rewrite Hs.
Qed.

Ltac decide_shape :=
  unfold has_shape4, has_shape3;
  match goal with |- ?P => apply (@bool_decide_unpack P _) end;
  vm_compute; exact I.

(** One object of class 3 at cell (0, 5, 5) of a 12 by 12 grid, predicted
    exactly. *)
Lemma perfect_prediction_scores_witness :
  (∃ p r f1,
     get_pricsion_recall_f1 head3
       (of_Z4 (one_hot_grid 1 12 12 4 (0, 5, 5)%nat 3))
       (of_Z4 (one_hot_grid 1 12 12 4 (0, 5, 5)%nat 3)) = Ok (p, r, f1) ∧
     (p == 1)%Q ∧ (r == 1)%Q ∧ (f1 == 1)%Q).
Proof.
  apply (perfect_prediction_scores head3 _ _ 1 12 12
           (class_grid 1 12 12 (0, 5, 5)%nat 3)).
  - decide_shape.
  - lia.
  - lia.
  - rewrite argmax_last_of_Z. vm_compute. reflexivity.
  - rewrite argmax_last_softmax, argmax_last_of_Z. vm_compute. reflexivity.
  - exists (0, 5, 5)%nat, 3. split; [reflexivity|lia].
Defined.

(** C7 (as stated) fails: on an all-background target predicted exactly
    (every cell has its unique maximum in channel 0) the result is
    (0, 0, 0). *)
Lemma perfect_prediction_counterexample :
  let t := of_Z4 (background_grid 1 12 12 4) in
  argmax_last (softmax_last t) = argmax_last t ∧
  argmax_last t = Ok (replicate 1 (replicate 12 (replicate 12 0))) ∧
  get_pricsion_recall_f1 head3 t t = Ok (0%Q, 0%Q, 0%Q) ∧
  ¬ (0 == 1)%Q.
Proof.
  cbv zeta. split_and!.
  - apply argmax_last_softmax.
  - rewrite argmax_last_of_Z. vm_compute. reflexivity.
  - rewrite get_pricsion_recall_f1_of_Z. vm_compute. reflexivity.
  - discriminate.
Qed.

(** ** Exact cells and the bound of the guard *)

(** Without the matching pass a true cell at (0, 5, 5) and a prediction at
    (0, 5, 6) give one false negative and one false positive. *)
Lemma exact_cell_counts_without_matching :
  (confusion ← confusion_matrix
                  (flatten3 (class_grid 1 12 12 (0, 5, 5)%nat 3))
                  (flatten3 (class_grid 1 12 12 (0, 5, 6)%nat 3)) 4;
   Ok (confusion_counts confusion)) = Ok (142, 0, 1, 1).
Proof. vm_compute. reflexivity. Qed.

(** C2 fails on grids that are not 12 by 12: the guard compares every
    coordinate of the site with the constants 0 and 11.
    - On a 2 by 2 grid, the site (0, 2, 1) below the true cell (0, 1, 1) is
      outside the grid and is not skipped: reading [preds_max] there raises
      IndexError.
    - On a 16 by 16 grid, the site (0, 12, 13) next to the true cell
      (0, 12, 12) is inside the grid and holds a prediction of the same
      class, yet it is skipped: the pair is scored as a miss, (0, 0, 0),
      where the same pair at (0, 5, 5) and (0, 5, 6) is matched. *)
Theorem bounds_guard_hard_coded :
  get_pricsion_recall_f1 head3
    (of_Z4 (one_hot_grid 1 2 2 4 (0, 0, 0)%nat 3))
    (of_Z4 (one_hot_grid 1 2 2 4 (0, 1, 1)%nat 3)) = Raise IndexError ∧
  (let preds_max := class_grid 1 16 16 (0, 12, 13)%nat 3 in
   let target_max := class_grid 1 16 16 (0, 12, 12)%nat 3 in
   getitem3 preds_max (0, 12, 13) = Ok 3 ∧
   getitem3 target_max (0, 12, 12) = Ok 3 ∧
   match_site (where_positive preds_max) (0, 12, 12) (preds_max, target_max)
     (0, 0, 1) = Ok (preds_max, target_max)) ∧
  get_pricsion_recall_f1 head3
    (of_Z4 (one_hot_grid 1 16 16 4 (0, 12, 13)%nat 3))
    (of_Z4 (one_hot_grid 1 16 16 4 (0, 12, 12)%nat 3)) = Ok (0%Q, 0%Q, 0%Q).
Proof.
  split_and!.
  - rewrite get_pricsion_recall_f1_of_Z. vm_compute. reflexivity.
  - cbv zeta. split_and!; vm_compute; reflexivity.
  - rewrite get_pricsion_recall_f1_of_Z. vm_compute. reflexivity.
Qed.

(** The near hit of C6 with the true cell in the last row of a 6 by 7 grid:
    the site below it is outside the grid, passes the guard and raises. *)
Lemma near_hit_last_row_raises :
  get_pricsion_recall_f1 head3
    (of_Z4 (one_hot_grid 1 6 7 4 (0, 5, 6)%nat 3))
    (of_Z4 (one_hot_grid 1 6 7 4 (0, 5, 5)%nat 3)) = Raise IndexError.
Proof. rewrite get_pricsion_recall_f1_of_Z. vm_compute. reflexivity. Qed.

(** On the 12 by 12 grid of at most 12 images the guard is the bounds check:
    the site reached from a cell of the grid is skipped exactly when it is
    outside the grid. *)
Lemma guard_is_bounds_check_12 (B : nat) ti po :
  (B <= 12)%nat → po.1.1 = 0 →
  0 <= ti.1.1 < Z.of_nat B →
  let site := add3 ti po in
  any_lt site 0 || any_gt site 11 = true ↔
  ¬ (0 <= site.1.1 < Z.of_nat B ∧ 0 <= site.1.2 < 12 ∧ 0 <= site.2 < 12).
Proof.
  intros HB Hpo Hti. destruct ti as [[b h] w], po as [[ob oh] ow].
  cbn [fst snd add3] in *. unfold any_lt, any_gt.
  rewrite !orb_true_iff, !Z.ltb_lt, !Z.gtb_ltb, !Z.ltb_lt. lia.
Qed.

(** ** The softmax is redundant for the metric *)


(** ** Construction *)

Lemma for_enumerate_weight_cls idx w ws (self : gmap string value) :
  self !! "weight_cls" = None →
  for_enumerate (fun idx w => setattr_item "weight_cls" (idx + 1) w) idx (w :: ws)
    self = (Raise AttributeError, self).
Proof.
  intros Hnone. simpl. unfold andthen, setattr_item, andthen, getattr.
  by rewrite Hnone.
Qed.

(** C10.  With a non-empty [loss_weight] the constructor raises
    AttributeError at [self.weight_cls], before [loss_cls] and [loss_bg] are
    set; it succeeds exactly when [loss_weight] is [None] or empty. *)
Theorem init_loss_weight_attribute_error args :
  (∀ w ws, loss_weight args = Some (w :: ws) →
     (__init__ args ∅).1 = Raise AttributeError ∧
     (__init__ args ∅).2 !! "loss_cls" = None ∧
     (__init__ args ∅).2 !! "loss_bg" = None) ∧
  ((__init__ args ∅).1 = Ok tt ↔
     loss_weight args = None ∨ loss_weight args = Some []).
Proof.
  assert (∀ w ws, loss_weight args = Some (w :: ws) →
            __init__ args ∅ =
              (Raise AttributeError,
               <["output_channels" := VInts (out_channels args)]>
               (<["input_channels" := VInts (input_channels args)]>
               (<["num_classes" := VInt (arg_num_classes args)]>
               (<["init_cfg" := VCfg]> ∅))))) as Hraise.
  { intros w ws Hlw. unfold __init__. rewrite Hlw.
    unfold andthen at 1 2 3 4 5. unfold setattr at 1 2 3 4.
    cbn [truthy default from_option]. unfold Datatypes.id.
    rewrite for_enumerate_weight_cls; [done|]. by simplify_map_eq. }
  split.
  - intros w ws Hlw. rewrite (Hraise w ws Hlw). done.
  - split.
    + intros Hok. destruct (loss_weight args) as [[|w ws]|] eqn:Hlw; [by right| |by left].
      rewrite (Hraise w ws eq_refl) in Hok. discriminate.
    + intros [Hlw|Hlw]; unfold __init__; rewrite Hlw; reflexivity.
Qed.

(** ** The weighted loss *)

Lemma shape4_of_has_shape4 {A : Type} B H W C (t : tensor4 A) :
  has_shape4 B H W C t → (0 < B)%nat → (0 < H)%nat → (0 < W)%nat →
  shape4 t = (B, H, W, C).
Proof.
  intros [HB HF] HB0 HH0 HW0. unfold shape4.
  destruct t as [|img t]; [simpl in HB; lia|].
  apply Forall_cons in HF as [[HH HFr] _]. simpl.
  destruct img as [|row img]; [simpl in HH; lia|].
  apply Forall_cons in HFr as [[HW HFc] _]. simpl.
  destruct row as [|cell row]; [simpl in HW; lia|].
  apply Forall_cons in HFc as [HC _]. simpl in *. congruence.
Qed.

Lemma mapM_fmap_Ok {A B : Type} (f : A -> result B) (g : A -> B) (l : list A) :
  (∀ x, x ∈ l → f x = Ok (g x)) → mapM f l = Ok (g <$> l).
Proof.
  intros Hf. apply mapM_Ok. apply Forall2_fmap_r, Forall_Forall2_diag.
  by apply Forall_forall.
Qed.

Lemma cell_at_map3 {A B : Type} (f : A -> B) (t : list (list (list A))) p :
  cell_at (map3 f t) p = f <$> cell_at t p.
Proof.
  destruct p as [[b h] w]. unfold cell_at, map3.
  rewrite list_lookup_fmap. destruct (t !! b) as [img|]; [|done]. simpl.
  rewrite list_lookup_fmap. destruct (img !! h) as [row|]; [|done]. simpl.
  by rewrite list_lookup_fmap.
Qed.

Lemma cell_at_zip_with3 {A B D : Type} (f : A -> B -> D)
    (a : list (list (list A))) (b : list (list (list B))) p :
  cell_at (zip_with (zip_with (zip_with f)) a b) p =
    x ← cell_at a p; y ← cell_at b p; Some (f x y).
Proof.
  destruct p as [[i h] w]. unfold cell_at.
  rewrite lookup_zip_with.
  destruct (a !! i) as [ia|]; [|done]. simpl.
  destruct (b !! i) as [ib|]; [|by destruct (ia !! h ≫= _)]. simpl.
  rewrite lookup_zip_with.
  destruct (ia !! h) as [ra|]; [|done]. simpl.
  destruct (ib !! h) as [rb|]; [|by destruct (ra !! w)]. simpl.
  by rewrite lookup_zip_with.
Qed.

Lemma entry4_zip_with4 {A B D : Type} (f : A -> B -> D) (a : tensor4 A)
    (b : tensor4 B) i h w c x y :
  entry4 a i h w c = Some x → entry4 b i h w c = Some y →
  entry4 (zip_with4 f a b) i h w c = Some (f x y).
Proof.
  unfold entry4, zip_with4. intros Ha Hb. rewrite cell_at_zip_with3.
  destruct (cell_at a (i, h, w)) as [ca|]; [|done].
  destruct (cell_at b (i, h, w)) as [cb|]; [|done]. simpl in *.
  by rewrite lookup_zip_with, Ha, Hb.
Qed.

Lemma has_shape4_zip_with4 {A B D : Type} (f : A -> B -> D) Bn H W C
    (a : tensor4 A) (b : tensor4 B) :
  has_shape4 Bn H W C a → has_shape4 Bn H W C b →
  has_shape4 Bn H W C (zip_with4 f a b).
Proof.
  intros [Ha HFa] [Hb HFb]. unfold zip_with4.
  split; [rewrite length_zip_with; lia|].
  apply Forall_lookup_2. intros i img (x & y & -> & Hx & Hy)%lookup_zip_with_Some.
  destruct (Forall_lookup_1 _ _ _ _ HFa Hx) as [Hxl HFx].
  destruct (Forall_lookup_1 _ _ _ _ HFb Hy) as [Hyl HFy].
  split; [rewrite length_zip_with; lia|].
  apply Forall_lookup_2. intros h row (rx & ry & -> & Hrx & Hry)%lookup_zip_with_Some.
  destruct (Forall_lookup_1 _ _ _ _ HFx Hrx) as [Hrxl HFrx].
  destruct (Forall_lookup_1 _ _ _ _ HFy Hry) as [Hryl HFry].
  split; [rewrite length_zip_with; lia|].
  apply Forall_lookup_2. intros w cell (cx & cy & -> & Hcx & Hcy)%lookup_zip_with_Some.
  pose proof (Forall_lookup_1 _ _ _ _ HFrx Hcx) as Hcxl.
  pose proof (Forall_lookup_1 _ _ _ _ HFry Hcy) as Hcyl. simpl in *.
  rewrite length_zip_with. lia.
Qed.

(** With a mask tiled from one channel vector of the tensor's channel
    count, [t *= mask] multiplies every channel vector by it. *)
Lemma imul_mask_tiled B H W C (t : tensor4 R) (wt : list R) :
  has_shape4 B H W C t → length wt = C →
  imul_mask t (replicate H (replicate W wt)) =
    Ok (map3 (fun cell => zip_with Rmult cell wt) t).
Proof.
  intros [HB HF] Hwt. unfold imul_mask, map3.
  apply mapM_fmap_Ok. intros img Himg.
  destruct (proj1 (Forall_forall _ _) HF img Himg) as [HH HFr].
  rewrite (zip_with_replicate_r_eq pair H) by done.
  rewrite mapM_fmap. apply mapM_fmap_Ok. intros row Hrow.
  destruct (proj1 (Forall_forall _ _) HFr row Hrow) as [HW HFc].
  unfold flip. cbn [fst snd].
  rewrite (zip_with_replicate_r_eq pair W) by done.
  rewrite mapM_fmap. apply mapM_fmap_Ok. intros cell Hcell.
  pose proof (proj1 (Forall_forall _ _) HFc cell Hcell) as HC. simpl in HC.
  unfold flip, mul_channels. cbn [fst snd].
  rewrite decide_True; [done|congruence].
Qed.

Lemma weight_lookup n c :
  (c < n)%nat → <[0%nat := 1%R]> (replicate n 0%R) !! c = Some (background_mask c).
Proof.
  intros Hc. unfold background_mask. destruct (decide (c = 0%nat)) as [->|Hne].
  - by rewrite list_lookup_insert_eq by (by rewrite length_replicate).
  - rewrite list_lookup_insert_ne by done. by apply lookup_replicate.
Qed.

Lemma weight_update n :
  (0 < n)%nat →
  update_at (replicate n 0%R) 0 (fun _ => Ok 1%R)
  = Ok (<[0%nat := 1%R]> (replicate n 0%R)).
Proof.
  intros Hn. apply update_at_Ok. exists 0%nat, 0%R, 1%R. split_and!; [|
    by apply lookup_replicate|done..].
  apply norm_index_nonneg. rewrite length_replicate. lia.
Qed.

Lemma setitem4_shape B H W C (t : tensor4 R) idx v t' :
  has_shape4 B H W C t → setitem4 t idx v = Ok t' → has_shape4 B H W C t'.
Proof.
  destruct idx as [[[b h] w] c]. intros Hs Hset.
  pose proof (has_shape4_shape3 _ _ _ _ _ Hs) as Hs3.
  destruct (setitem4_cells B H W t b h w c v _ Hs3 Hset)
    as (nb & nh & nw & nc & cell0 & _ & _ & _ & Hcell0 & _ & Hs3' & Hcells').
  apply has_shape4_of_cells; [done|].
  intros p cell' Hp. rewrite Hcells' in Hp.
  destruct (decide (p = _)).
  - injection Hp as <-. rewrite length_insert.
    by eapply has_shape4_cell_length.
  - by eapply has_shape4_cell_length.
Qed.

(** Whatever the annotations, a returned target grid has the shape of the
    predictions. *)
Lemma build_target_shape preds targets g B H W C :
  shape4 preds = (B, H, W, C) → build_target preds targets = Ok g →
  has_shape4 B H W C g.
Proof.
  intros Hshape Hrun. unfold build_target in Hrun. rewrite Hshape in Hrun.
  apply bind_Ok in Hrun as (g0 & Hfill & Hloop).
  apply fill_channel0_zeros in Hfill as [Hs0 Hcells0].
  apply (for_each_invariant (build_target_step H W)
           (fun _ g => has_shape4 B H W C g) targets g0 g); [| |done].
  - intros _ a s s' _ Hs Hstep. unfold build_target_step in Hstep.
    apply bind_Ok in Hstep as (s1 & Hset0 & Hset1).
    eapply setitem4_shape; [|exact Hset1]. by eapply setitem4_shape.
  - apply has_shape4_of_cells; [done|]. intros p cell Hp.
    destruct (Hcells0 p cell Hp) as [_ ->]. apply multi_hot_length.
Qed.

Lemma argmax_last_total B H W C (t : tensor4 R) :
  has_shape4 B H W C t → (0 < C)%nat → ∃ g, argmax_last t = Ok g.
Proof.
  intros [HB HF] HC.
  exists (map3 (fun cell => match cell with
                            | [] => 0
                            | x :: xs => Z.of_nat (argmax_from Rgtb x 0 1 xs)
                            end) t).
  unfold argmax_last, map3.
  apply mapM_fmap_Ok. intros img Himg.
  destruct (proj1 (Forall_forall _ _) HF img Himg) as [_ HFr].
  apply mapM_fmap_Ok. intros row Hrow.
  destruct (proj1 (Forall_forall _ _) HFr row Hrow) as [_ HFc].
  apply mapM_fmap_Ok. intros cell Hcell.
  pose proof (proj1 (Forall_forall _ _) HFc cell Hcell) as Hlen. simpl in Hlen.
  destruct cell; [simpl in Hlen; lia|done].
Qed.

Lemma scores_total confusion : ∃ res, scores confusion = Ok res.
Proof.
  pose proof (scores_of_counts confusion) as Hs.
  destruct (confusion_counts confusion) as [[[tn tp] fn] fp].
  rewrite Hs. case_match; by eexists.
Qed.

(** On grids of at least 12 rows and 12 columns whose channel count is
    [num_classes + 1], the metric returns. *)
Lemma get_pricsion_recall_f1_total self preds target B H W :
  has_shape4 B H W (num_classes self + 1) preds →
  has_shape4 B H W (num_classes self + 1) target →
  (12 <= H)%nat → (12 <= W)%nat →
  ∃ res, get_pricsion_recall_f1 self preds target = Ok res.
Proof.
  intros Hsp Hst HH HW. unfold get_pricsion_recall_f1.
  rewrite argmax_last_softmax.
  destruct (argmax_last_total _ _ _ _ _ Hst) as [tm Htm]; [lia|].
  destruct (argmax_last_total _ _ _ _ _ Hsp) as [pm Hpm]; [lia|].
  rewrite Htm, Hpm. cbn [mbind result_bind].
  destruct (argmax_last_cells _ _ _ _ _ _ Hst Htm) as [Hs3t Hranget].
  destruct (argmax_last_cells _ _ _ _ _ _ Hsp Hpm) as [Hs3p _].
  unfold precision_recall_f1_of.
  destruct (tolerant_matching_total B H W
              (fun v => 0 <= v < Z.of_nat (num_classes self + 1)) pm tm)
    as ([pm' tm'] & -> & _ & _ & Hrange'); [done..|].
  cbn [mbind result_bind snd] in *.
  destruct (confusion_matrix_labels_in_range (flatten3 tm') (flatten3 pm')
              (num_attrib self)) as [m ->].
  { unfold num_attrib. lia. }
  { apply Forall_forall. intros v [p Hv]%flatten3_elem.
    unfold num_attrib. by apply (Hrange' p). }
  cbn [mbind result_bind]. apply scores_total.
Qed.

Lemma map3_replicate {A B : Type} (f : A -> B) a b (l : list A) :
  map3 f (replicate a (replicate b l)) = replicate a (replicate b (f <$> l)).
Proof. unfold map3. by rewrite !fmap_replicate. Qed.

Lemma entry4_scaled (t : tensor4 R) (wt : list R) b h w c x m :
  entry4 t b h w c = Some x → wt !! c = Some m →
  entry4 (map3 (fun cell => zip_with Rmult cell wt) t) b h w c = Some (x * m)%R.
Proof.
  unfold entry4. intros Hx Hm. rewrite cell_at_map3.
  destruct (cell_at t (b, h, w)) as [cell|]; [|done]. simpl in *.
  by rewrite lookup_zip_with, Hx, Hm.
Qed.

Lemma entry4_in_range {A : Type} B H W C (t : tensor4 A) b h w c x :
  has_shape4 B H W C t → entry4 t b h w c = Some x →
  (b < B)%nat ∧ (h < H)%nat ∧ (w < W)%nat ∧ (c < C)%nat.
Proof.
  unfold entry4. intros Hs Hx.
  destruct (cell_at t (b, h, w)) as [cell|] eqn:Hcell; [|done]. simpl in Hx.
  pose proof (has_shape4_cell_length _ _ _ _ _ _ _ Hs Hcell) as Hlen.
  apply lookup_lt_Some in Hx.
  apply (has_shape3_cell_at_lt B H W) in Hcell; [|by eapply has_shape4_shape3].
  lia.
Qed.

(** [permute_0231] takes a rectangular (B, C, H, W) tensor with at least one
    channel to a rectangular (B, H, W, C) tensor with the same entries. *)
Lemma permute_0231_shape B C H W (t : tensor4 R) :
  has_shape4 B C H W t → (0 < C)%nat → has_shape4 B H W C (permute_0231 t).
Proof.
  intros [HB HF] HC. unfold permute_0231. split; [by rewrite length_fmap|].
  apply Forall_fmap, Forall_forall. intros img Himg.
  destruct (proj1 (Forall_forall _ _) HF img Himg) as [Hlen HFc].
  destruct img as [|ch img]; [simpl in Hlen; lia|].
  apply Forall_cons in HFc as [[Hch HFr] _]. cbn [hd].
  split; [by rewrite length_fmap, length_seq|].
  apply Forall_fmap, Forall_forall. intros h Hh. apply elem_of_seq in Hh.
  destruct ch as [|row ch]; [simpl in *; lia|].
  apply Forall_cons in HFr as [Hrow _]. cbn [hd].
  split; [by rewrite length_fmap, length_seq|].
  apply Forall_fmap, Forall_forall. intros w Hw. simpl.
  by rewrite length_fmap.
Qed.

Lemma permute_0231_entry (t : tensor4 R) B C H W b c h w :
  has_shape4 B C H W t →
  (b < B)%nat → (c < C)%nat → (h < H)%nat → (w < W)%nat →
  entry4 (permute_0231 t) b h w c = entry4 t b c h w.
Proof.
  intros Hs Hb Hc Hh Hw. pose proof Hs as [HB HF].
  destruct (has_shape3_cell_at B C H t b c h (has_shape4_shape3 _ _ _ _ _ Hs))
    as [row Hrow]; [lia..|].
  pose proof (has_shape4_cell_length _ _ _ _ _ _ _ Hs Hrow) as Hrowlen.
  apply cell_at_Some in Hrow as Hlook.
  destruct Hlook as (img & ch & Himg & Hch & Hrow').
  destruct (Forall_lookup_1 _ _ _ _ HF Himg) as [Himglen HFc].
  assert (length (hd [] img) = H ∧ length (hd [] (hd [] img)) = W) as [HH0 HW0].
  { destruct img as [|ch0 img]; [simpl in Himglen; lia|].
    apply Forall_cons in HFc as [[Hch0 HFr0] _]. cbn [hd]. split; [done|].
    destruct ch0 as [|row0 ch0]; [simpl in Hch0; lia|].
    by apply Forall_cons in HFr0 as [Hrow0 _]. }
  unfold entry4 at 2. rewrite (proj2 (cell_at_Some t b c h row)) by eauto.
  cbn [mbind option_bind].
  unfold entry4, permute_0231, cell_at.
  rewrite list_lookup_fmap, Himg. cbn [fmap option_fmap option_map mbind option_bind].
  rewrite HH0, HW0.
  rewrite list_lookup_fmap, lookup_seq_lt by done.
  cbn [fmap option_fmap option_map mbind option_bind].
  rewrite list_lookup_fmap, lookup_seq_lt by done.
  cbn [fmap option_fmap option_map mbind option_bind].
  rewrite list_lookup_fmap, Hch. cbn [fmap option_fmap option_map].
  cbn [Nat.add]. rewrite Hrow'. cbn [mbind option_bind].
  destruct (lookup_lt_is_Some_2 row w) as [x Hx]; [lia|]. by rewrite Hx.
Qed.

(** C4.  For prediction maps of [num_classes + 1] channels: when
    [lossFunction] returns, its [loss] is the mean over all
    elements of [fgnd + bgnd], where at every element [bgnd] is the
    unweighted element-wise BCE-with-logits times a mask that is 1 on
    channel 0 and 0 elsewhere, and [fgnd] is the element-wise
    BCE-with-logits with positive weight [cls_weight] times (1 - mask).
    It does return on valid annotations for grids of at least 12 rows and
    12 columns. *)
Theorem lossFunction_weighted_mean self pred_maps target B H W :
  has_shape4 B (num_classes self + 1) H W pred_maps →
  (∀ d, lossFunction self pred_maps target = Ok d →
     ∃ data, build_target (permute_0231 pred_maps) target = Ok data ∧
       d_loss d = mean (flatten4 (zip_with4 Rplus (d_fgnd d) (d_bgnd d))) ∧
       ∀ b h w c x y,
         entry4 (permute_0231 pred_maps) b h w c = Some x →
         entry4 data b h w c = Some y →
         entry4 (d_bgnd d) b h w c
           = Some (bce_with_logits None x y * background_mask c)%R ∧
         entry4 (d_fgnd d) b h w c
           = Some (bce_with_logits (Some (cls_weight self)) x y
                   * (1 - background_mask c))%R) ∧
  ((0 < B)%nat → (12 <= H)%nat → (12 <= W)%nat →
   (∀ a, a ∈ target → valid_annotation B H W (num_classes self + 1) a) →
   ∃ d, lossFunction self pred_maps target = Ok d).
Proof.
  intros Hsp%permute_0231_shape; [|lia].
  set (preds := permute_0231 pred_maps) in *.
  assert (update_at (replicate (num_attrib self) 0%R) 0 (fun _ => Ok 1%R)
          = Ok (<[0%nat := 1%R]> (replicate (num_attrib self) 0%R))) as Hweight
    by (apply weight_update; unfold num_attrib; lia).
  set (weight := <[0%nat := 1%R]> (replicate (num_attrib self) 0%R)) in *.
  assert (length weight = (num_classes self + 1)%nat) as Hwl
    by (unfold weight; by rewrite length_insert, length_replicate).
  split.
  - intros d Hrun. unfold lossFunction in Hrun. fold preds in Hrun.
    destruct (shape4 preds) as [[[B' H'] W'] C'] eqn:Hshape.
    rewrite Hweight in Hrun. cbn [mbind result_bind] in Hrun.
    apply bind_Ok in Hrun as (data & Hdata & Hrun).
    apply bind_Ok in Hrun as (bg & Hbg & Hrun).
    apply bind_Ok in Hrun as (cls & Hcls & Hrun).
    apply bind_Ok in Hrun as ([[p r] f1] & Hprf & Hrun).
    injection Hrun as <-. cbn [d_loss d_fgnd d_bgnd].
    exists data. split_and!; [done..|].
    intros b h w c x y Hx Hy.
    destruct (entry4_in_range _ _ _ _ _ _ _ _ _ _ Hsp Hx) as (Hb & Hh & Hw & Hc).
    rewrite (shape4_of_has_shape4 B H W _ preds Hsp) in Hshape by lia.
    injection Hshape as <- <- <- <-.
    pose proof (build_target_shape preds target data B H W _
                  (shape4_of_has_shape4 B H W _ preds Hsp
                     ltac:(lia) ltac:(lia) ltac:(lia)) Hdata) as Hsd.
    rewrite (imul_mask_tiled B H W (num_classes self + 1)) in Hbg;
      [|by apply has_shape4_zip_with4|done].
    rewrite map3_replicate in Hcls.
    rewrite (imul_mask_tiled B H W (num_classes self + 1)) in Hcls;
      [|by apply has_shape4_zip_with4|by rewrite length_fmap].
    injection Hbg as <-. injection Hcls as <-.
    split.
    + apply entry4_scaled; [by apply entry4_zip_with4|].
      apply weight_lookup. unfold num_attrib. lia.
    + apply entry4_scaled; [by apply entry4_zip_with4|].
      rewrite list_lookup_fmap. unfold weight.
      rewrite weight_lookup by (unfold num_attrib; lia). done.
  - intros HB HH HW Hvalid.
    assert (shape4 preds = (B, H, W, (num_classes self + 1)%nat)) as Hshape
      by (apply shape4_of_has_shape4; [done|lia..]).
    destruct (build_target_total preds target B H W _ Hshape)
      as (data & Hdata & Hsd); [lia..|done|].
    destruct (get_pricsion_recall_f1_total self preds data B H W Hsp Hsd HH HW)
      as [[[p r] f1] Hprf].
    unfold lossFunction. fold preds. rewrite Hshape, Hweight.
    cbn [mbind result_bind]. rewrite Hdata. cbn [mbind result_bind].
    fold weight.
    rewrite (imul_mask_tiled B H W (num_classes self + 1));
      [|by apply has_shape4_zip_with4|done].
    cbn [mbind result_bind]. rewrite map3_replicate.
    rewrite (imul_mask_tiled B H W (num_classes self + 1));
      [|by apply has_shape4_zip_with4|by rewrite length_fmap].
    cbn [mbind result_bind]. rewrite Hprf. cbn [mbind result_bind].
    by eexists.
Qed.

(** The end-to-end scenario: a 12 by 12 grid, two object classes, one box
    in the centre. *)
Lemma lossFunction_weighted_mean_witness :
  ∃ d data,
    lossFunction head2 zero_pred_maps center_targets = Ok d ∧
    build_target (permute_0231 zero_pred_maps) center_targets = Ok data ∧
    d_loss d = mean (flatten4 (zip_with4 Rplus (d_fgnd d) (d_bgnd d))) ∧
    ∀ b h w c x y,
      entry4 (permute_0231 zero_pred_maps) b h w c = Some x →
      entry4 data b h w c = Some y →
      entry4 (d_bgnd d) b h w c
        = Some (bce_with_logits None x y * background_mask c)%R ∧
      entry4 (d_fgnd d) b h w c
        = Some (bce_with_logits (Some (cls_weight head2)) x y
                * (1 - background_mask c))%R.
Proof.
  destruct (lossFunction_weighted_mean head2 zero_pred_maps center_targets 1 12 12)
    as [Hformula Hreturns].
  { decide_shape. }
  destruct Hreturns as [d Hd]; [lia..| |].
  { intros a Ha. apply list_elem_of_singleton in Ha as ->. by_computation. }
  destruct (Hformula d Hd) as (data & Hdata & Hloss & Hterms).
  by exists d, data.
Defined.

(** ** Grids, cell by cell and flattened *)

Lemma alter_lookup_insert {A : Type} (f : A -> A) (l : list A) i x :
  l !! i = Some x → alter f i l = <[i := f x]> l.
Proof.
  intros Hx. apply list_eq. intros j.
  rewrite list_lookup_alter, list_lookup_insert.
  apply lookup_lt_Some in Hx as Hi.
  destruct (decide (i = j)) as [->|Hne].
  - rewrite decide_True by done. by rewrite Hx.
  - rewrite decide_False; [done|]. by intros [? _].
Qed.

Lemma set_cell_insert {A : Type} (t : list (list (list A))) b h w img row v :
  t !! b = Some img → img !! h = Some row →
  set_cell t (b, h, w) v = <[b := <[h := <[w := v]> row]> img]> t.
Proof.
  intros Himg Hrow. unfold set_cell. cbn [fst snd].
  rewrite (alter_lookup_insert _ t b img Himg).
  by rewrite (alter_lookup_insert _ img h row Hrow).
Qed.

Lemma cell_at_set_cell {A : Type} (t : list (list (list A))) p v q :
  is_Some (cell_at t p) →
  cell_at (set_cell t p v) q = if decide (q = p) then Some v else cell_at t q.
Proof.
  destruct p as [[b h] w].
  intros [x (img & row & Himg & Hrow & Hx)%cell_at_Some].
  rewrite (set_cell_insert t b h w img row v Himg Hrow).
  apply cell_at_insert; [done..|]. by eapply lookup_lt_Some.
Qed.

Lemma has_shape3_set_cell {A : Type} B H W (t : list (list (list A))) p v :
  has_shape3 B H W t → has_shape3 B H W (set_cell t p v).
Proof.
  intros [HB HF]. unfold set_cell. split; [by rewrite length_alter|].
  apply Forall_lookup_2. intros i img Himg.
  rewrite list_lookup_alter in Himg.
  destruct (decide (p.1.1 = i)) as [<-|_];
    [|by apply (Forall_lookup_1 _ _ _ _ HF Himg)].
  destruct (t !! p.1.1) as [img0|] eqn:Himg0; [|done].
  injection Himg as <-.
  destruct (Forall_lookup_1 _ _ _ _ HF Himg0) as [HH HFr].
  split; [by rewrite length_alter|].
  apply Forall_lookup_2. intros j row Hrow.
  rewrite list_lookup_alter in Hrow.
  destruct (decide (p.1.2 = j)) as [<-|_];
    [|by apply (Forall_lookup_1 _ _ _ _ HFr Hrow)].
  destruct (img0 !! p.1.2) as [row0|] eqn:Hrow0; [|done].
  injection Hrow as <-. rewrite length_insert.
  by apply (Forall_lookup_1 _ _ _ _ HFr Hrow0).
Qed.

Lemma setitem3_set_cell {A : Type} (t : list (list (list A))) b h w v :
  is_Some (cell_at t (b, h, w)) →
  setitem3 t (Z.of_nat b, Z.of_nat h, Z.of_nat w) v = Ok (set_cell t (b, h, w) v).
Proof.
  intros [x (img & row & Himg & Hrow & Hx)%cell_at_Some].
  rewrite (set_cell_insert t b h w img row v Himg Hrow). unfold setitem3.
  apply update_at_Ok. exists b, img, (<[h := <[w := v]> row]> img).
  split_and!; [by eapply norm_index_of_nat, lookup_lt_Some|done| |done].
  apply update_at_Ok. exists h, row, (<[w := v]> row).
  split_and!; [by eapply norm_index_of_nat, lookup_lt_Some|done| |done].
  apply update_at_Ok. exists w, x, v.
  split_and!; [by eapply norm_index_of_nat, lookup_lt_Some|done..].
Qed.

Lemma join_lookup_uniform {A : Type} (n : nat) (ls : list (list A)) i j x :
  Forall (fun l => length l = n) ls → ls !! i = Some x → (j < n)%nat →
  mjoin ls !! (i * n + j)%nat = x !! j.
Proof.
  intros HF. revert i. induction HF as [|l ls Hl HF IH]; intros i Hx Hj;
    [done|].
  destruct i as [|i]; simpl in *.
  - injection Hx as ->. by rewrite lookup_app_l by lia.
  - rewrite lookup_app_r by lia.
    match goal with
    | |- mjoin ls !! ?k = _ => replace k with (i * n + j)%nat by lia
    end.
    by apply IH.
Qed.

Lemma join_insert_uniform {A : Type} (n : nat) (ls : list (list A)) i j x v :
  Forall (fun l => length l = n) ls → ls !! i = Some x → (j < n)%nat →
  mjoin (<[i := <[j := v]> x]> ls) = <[(i * n + j)%nat := v]> (mjoin ls).
Proof.
  intros HF. revert i. induction HF as [|l ls Hl HF IH]; intros i Hx Hj;
    [done|].
  destruct i as [|i]; simpl in *.
  - injection Hx as ->. by rewrite insert_app_l by lia.
  - rewrite insert_app_r_alt by lia. f_equal.
    match goal with
    | |- _ = <[?k := _]> _ => replace k with (i * n + j)%nat by lia
    end.
    by apply IH.
Qed.

Lemma join_uniform_length {A : Type} (n m : nat) (ls : list (list (list A))) :
  Forall (fun img => length img = n ∧ Forall (fun row => length row = m) img) ls →
  Forall (fun row => length row = m) (mjoin ls).
Proof.
  induction 1 as [|img ls [_ Himg] _ IH]; simpl; [constructor|].
  by apply Forall_app.
Qed.

Lemma flatten3_length {A : Type} B H W (t : list (list (list A))) :
  has_shape3 B H W t → length (flatten3 t) = (B * H * W)%nat.
Proof.
  intros [HB HF]. unfold flatten3. subst B.
  induction HF as [|img t [HH HFr] _ IH]; [done|].
  simpl. rewrite join_app, length_app, IH.
  assert (length (mjoin img) = (H * W)%nat) as ->; [|lia].
  clear IH. subst H. induction HFr as [|row img HW _ IH]; [done|].
  simpl. rewrite length_app, IH. lia.
Qed.

Lemma flatten3_set_cell {A : Type} B H W (t : list (list (list A))) p v :
  has_shape3 B H W t → is_Some (cell_at t p) →
  flatten3 (set_cell t p v) = <[flat_index H W p := v]> (flatten3 t).
Proof.
  destruct p as [[b h] w].
  intros Hs [x Hx]. pose proof Hs as [HB HF].
  destruct (has_shape3_cell_at_lt _ _ _ _ _ _ _ _ Hs Hx) as (Hb & Hh & Hw).
  apply cell_at_Some in Hx as (img & row & Himg & Hrow & Hx).
  rewrite (set_cell_insert t b h w img row v Himg Hrow).
  unfold flatten3, flat_index. cbn [fst snd].
  rewrite (join_insert_uniform H t b h img).
  - rewrite (join_insert_uniform W (mjoin t) (b * H + h) w row); [done| |
      |done].
    + by eapply join_uniform_length.
    + rewrite (join_lookup_uniform H t b h img); [done| |done..].
      eapply Forall_impl; [exact HF|]. by intros ? [? _].
  - eapply Forall_impl; [exact HF|]. by intros ? [? _].
  - done.
  - done.
Qed.

Lemma flatten3_replicate {A : Type} B H W (x : A) :
  flatten3 (replicate B (replicate H (replicate W x))) = replicate (B * H * W) x.
Proof.
  unfold flatten3.
  assert (∀ n m (y : A), mjoin (replicate n (replicate m y)) = replicate (n * m) y)
    as Hjoin.
  { intros n m y. induction n as [|n IH]; simpl; [done|].
    by rewrite IH, replicate_add. }
  assert (∀ n m (l : list A),
            mjoin (replicate n (replicate m l)) = replicate (n * m) l) as Hjoin2.
  { intros n m l. induction n as [|n IH]; simpl; [done|].
    by rewrite IH, replicate_add. }
  by rewrite Hjoin2, Hjoin.
Qed.

(** ** Counting label pairs *)

Lemma zip_insert_l {A B : Type} (l : list A) (l' : list B) k a b :
  l' !! k = Some b → zip (<[k := a]> l) l' = <[k := (a, b)]> (zip l l').
Proof.
  revert l' k. induction l as [|x l IH]; intros [|y l'] [|k] Hb; simpl in *;
    try done.
  - by injection Hb as ->.
  - f_equal. by apply IH.
Qed.

Lemma zip_insert_r {A B : Type} (l : list A) (l' : list B) k a b :
  l !! k = Some a → zip l (<[k := b]> l') = <[k := (a, b)]> (zip l l').
Proof.
  revert l' k. induction l as [|x l IH]; intros [|y l'] [|k] Ha; simpl in *;
    try done.
  - by injection Ha as ->.
  - f_equal. by apply IH.
Qed.

Lemma filter_insert_length {A : Type} (P : A -> Prop) `{∀ x, Decision (P x)}
    (l : list A) k y0 y :
  l !! k = Some y0 →
  Z.of_nat (length (filter P (<[k := y]> l))) =
    Z.of_nat (length (filter P l))
    - (if decide (P y0) then 1 else 0) + (if decide (P y) then 1 else 0).
Proof.
  revert k. induction l as [|x l IH]; intros [|k] Hk; simpl in *; try done.
  - injection Hk as ->. rewrite !filter_cons.
    destruct (decide (P y0)), (decide (P y)); simpl; lia.
  - rewrite !filter_cons. specialize (IH k Hk).
    destruct (decide (P x)); simpl; lia.
Qed.

Lemma count_pairs_insert_l l l' k a a' b i j :
  l !! k = Some a → l' !! k = Some b →
  count_pairs (<[k := a']> l) l' i j =
    count_pairs l l' i j - indicator (a, b) (i, j) + indicator (a', b) (i, j).
Proof.
  intros Ha Hb. unfold count_pairs, indicator.
  rewrite (zip_insert_l l l' k a' b Hb).
  rewrite (filter_insert_length (fun p => p = (i, j)) (zip l l') k (a, b) (a', b))
    by (by rewrite lookup_zip_with, Ha, Hb).
  repeat case_decide; done.
Qed.

Lemma count_pairs_insert_r l l' k a b b' i j :
  l !! k = Some a → l' !! k = Some b →
  count_pairs l (<[k := b']> l') i j =
    count_pairs l l' i j - indicator (a, b) (i, j) + indicator (a, b') (i, j).
Proof.
  intros Ha Hb. unfold count_pairs, indicator.
  rewrite (zip_insert_r l l' k a b' Ha).
  rewrite (filter_insert_length (fun p => p = (i, j)) (zip l l') k (a, b) (a, b'))
    by (by rewrite lookup_zip_with, Ha, Hb).
  repeat case_decide; done.
Qed.

Lemma count_pairs_replicate n x y i j :
  count_pairs (replicate n x) (replicate n y) i j
  = Z.of_nat n * indicator (x, y) (i, j).
Proof.
  unfold count_pairs, indicator. rewrite zip_with_replicate.
  induction n as [|n IH]; [simpl; lia|].
  change (replicate (S n) (x, y)) with ((x, y) :: replicate n (x, y)).
  rewrite filter_cons. destruct (decide ((x, y) = (i, j))); simpl in *; lia.
Qed.

(** ** A near hit on a grid of any size *)

Lemma cell_at_zero_grid B H W (p : nat * nat * nat) :
  (p.1.1 < B)%nat → (p.1.2 < H)%nat → (p.2 < W)%nat →
  cell_at (replicate B (replicate H (replicate W 0))) p = Some 0.
Proof.
  destruct p as [[b h] w]. cbn [fst snd]. intros Hb Hh Hw.
  apply cell_at_Some. exists (replicate H (replicate W 0)), (replicate W 0).
  split_and!; by apply lookup_replicate.
Qed.

Lemma class_grid_shape B H W p k : has_shape3 B H W (class_grid B H W p k).
Proof. apply has_shape3_set_cell, has_shape3_replicate. Qed.

Lemma class_grid_cell B H W p k q :
  (p.1.1 < B)%nat → (p.1.2 < H)%nat → (p.2 < W)%nat →
  (q.1.1 < B)%nat → (q.1.2 < H)%nat → (q.2 < W)%nat →
  cell_at (class_grid B H W p k) q = Some (if decide (q = p) then k else 0).
Proof.
  intros Hp1 Hp2 Hp3 Hq1 Hq2 Hq3. unfold class_grid.
  rewrite cell_at_set_cell by (by rewrite cell_at_zero_grid).
  destruct (decide (q = p)); [done|]. by apply cell_at_zero_grid.
Qed.

Lemma class_grid_positive B H W p k x :
  (p.1.1 < B)%nat → (p.1.2 < H)%nat → (p.2 < W)%nat → 0 < k →
  x ∈ where_positive (class_grid B H W p k) ↔
  x = (Z.of_nat p.1.1, Z.of_nat p.1.2, Z.of_nat p.2).
Proof.
  intros Hp1 Hp2 Hp3 Hk. rewrite where_positive_elem. split.
  - intros (b & h & w & v & -> & Hv & Hpos).
    destruct (has_shape3_cell_at_lt B H W _ b h w v (class_grid_shape B H W p k) Hv)
      as (Hb & Hh & Hw).
    rewrite (class_grid_cell B H W p k (b, h, w)) in Hv by done.
    destruct (decide ((b, h, w) = p)) as [<-|_]; [done|].
    injection Hv as <-. lia.
  - intros ->. exists p.1.1, p.1.2, p.2, k. split_and!; [done| |done].
    rewrite (class_grid_cell B H W p k) by done.
    rewrite decide_True; [done|]. by destruct p as [[? ?] ?].
Qed.

Lemma tensor_contains_batch b h w h' w' index :
  (b, h, w) ∈ index → tensor_contains (b, h', w') index = true.
Proof.
  intros Hin. unfold tensor_contains. apply existsb_exists.
  exists (b, h, w). split; [by apply list_elem_of_In|].
  by rewrite Z.eqb_refl.
Qed.

(** One step of the inner loop at a site inside the grid and inside the
    guard, when some predicted cell lies in the same image. *)
Lemma match_site_eval B H W preds_index ti po preds_max target_max sb sh sw p t :
  has_shape3 B H W preds_max → has_shape3 B H W target_max →
  add3 ti po = (Z.of_nat sb, Z.of_nat sh, Z.of_nat sw) →
  (sb <= 11)%nat → (sh <= 11)%nat → (sw <= 11)%nat →
  tensor_contains (add3 ti po) preds_index = true →
  cell_at preds_max (sb, sh, sw) = Some p →
  getitem3 target_max ti = Ok t →
  match_site preds_index ti (preds_max, target_max) po =
    Ok (preds_max, if p =? t then set_cell target_max (sb, sh, sw) t else target_max).
Proof.
  intros Hsp Hst Hsite Hb Hh Hw Hin Hp Ht. unfold match_site.
  rewrite Hin, Hsite.
  assert (any_lt (Z.of_nat sb, Z.of_nat sh, Z.of_nat sw) 0
          || any_gt (Z.of_nat sb, Z.of_nat sh, Z.of_nat sw) 11 = false) as ->.
  { unfold any_lt, any_gt. rewrite !orb_false_iff, !Z.ltb_ge, !Z.gtb_ltb, !Z.ltb_ge.
    lia. }
  rewrite (getitem3_of_nat preds_max sb sh sw p Hp), Ht.
  cbn [mbind result_bind]. destruct (p =? t) eqn:Heq; [|done].
  apply Z.eqb_eq in Heq as ->.
  rewrite (setitem3_same preds_max _ t (getitem3_of_nat preds_max sb sh sw t Hp)).
  cbn [mbind result_bind]. rewrite setitem3_set_cell; [done|].
  destruct (has_shape3_cell_at_lt B H W _ sb sh sw t Hsp Hp) as (? & ? & ?).
  by apply (has_shape3_cell_at B H W).
Qed.

Lemma set_cell_idemp {A : Type} (t : list (list (list A))) p v :
  set_cell (set_cell t p v) p v = set_cell t p v.
Proof.
  destruct p as [[b h] w]. unfold set_cell. cbn [fst snd].
  apply list_eq. intros i. destruct (decide (b = i)) as [<-|Hne].
  - rewrite !list_lookup_alter_eq. destruct (t !! b) as [img|]; [|done].
    simpl. f_equal. apply list_eq. intros j.
    destruct (decide (h = j)) as [<-|Hne'].
    + rewrite !list_lookup_alter_eq. destruct (img !! h) as [row|]; [|done].
      simpl. f_equal. by rewrite list_insert_insert_eq.
    + by rewrite !list_lookup_alter_ne.
  - by rewrite !list_lookup_alter_ne.
Qed.

Lemma for_each_all_equal {St X : Type} (body : St -> X -> result St) xs x s0 s1 :
  xs ≠ [] → (∀ y, y ∈ xs → y = x) →
  body s0 x = Ok s1 → body s1 x = Ok s1 →
  for_each body xs s0 = Ok s1.
Proof.
  intros Hne Hall H0 H1. destruct xs as [|y xs]; [done|].
  rewrite (Hall y) by (by left). simpl. rewrite H0. simpl.
  apply for_each_fixed. intros z Hz. rewrite (Hall z) by (by right). done.
Qed.

Section near_hit.
Variables B H W : nat.
Hypothesis HB : (0 < B)%nat.
Hypothesis HH : (7 <= H)%nat.
Hypothesis HW : (7 <= W)%nat.

(** The offsets of one true cell at (0, 5, 5), on any target grid that
    holds class 3 there: only the site (0, 5, 6) is relabelled. *)
Lemma match_target_near_hit tm :
  has_shape3 B H W tm → cell_at tm (0, 5, 5)%nat = Some 3 →
  match_target (where_positive (near_hit_preds B H W))
    (near_hit_preds B H W, tm) (0, 5, 5)
  = Ok (near_hit_preds B H W, set_cell tm (0, 5, 6)%nat 3).
Proof.
  intros Hs Hti.
  assert (∀ h w, tensor_contains (0, h, w)
                   (where_positive (near_hit_preds B H W)) = true) as Hin.
  { intros h w. apply (tensor_contains_batch 0 5 6).
    apply (class_grid_positive B H W (0, 5, 6)%nat 3); cbn [fst snd]; [lia..|done]. }
  assert (∀ q, (q.1.1 < B)%nat → (q.1.2 < H)%nat → (q.2 < W)%nat →
               cell_at (near_hit_preds B H W) q
               = Some (if decide (q = (0, 5, 6)%nat) then 3 else 0)) as Hpm
    by (intros q ???; apply class_grid_cell; cbn [fst snd]; lia).
  pose proof (class_grid_shape B H W (0, 5, 6)%nat 3) as Hsp.
  assert (∀ t, has_shape3 B H W t → cell_at t (0, 5, 5)%nat = Some 3 →
               getitem3 t (0, 5, 5) = Ok 3) as Hget
    by (intros t _ Ht; by apply (getitem3_of_nat t 0 5 5)).
  assert (∀ t sh sw po,
            has_shape3 B H W t → cell_at t (0, 5, 5)%nat = Some 3 →
            add3 (0, 5, 5) po = (0, Z.of_nat sh, Z.of_nat sw) →
            (sh <= 6)%nat → (sw <= 6)%nat → (sh, sw) ≠ (5, 6)%nat →
            match_site (where_positive (near_hit_preds B H W)) (0, 5, 5)
              (near_hit_preds B H W, t) po
            = Ok (near_hit_preds B H W, t)) as Hmiss.
  { intros t sh sw po Ht Ht5 Hsite Hsh Hsw Hne.
    rewrite (match_site_eval B H W _ _ _ _ _ 0 sh sw 0 3); try done; try lia.
    - rewrite Hsite. apply Hin.
    - rewrite Hpm by (cbn [fst snd]; lia).
      rewrite decide_False; [done|]. intros [= -> ->]. done.
    - by apply Hget. }
  pose proof (has_shape3_set_cell B H W tm (0, 5, 6)%nat 3 Hs) as Hs'.
  assert (cell_at (set_cell tm (0, 5, 6)%nat 3) (0, 5, 5)%nat = Some 3) as Hti'.
  { rewrite cell_at_set_cell by (apply (has_shape3_cell_at B H W); [done|lia..]).
    by rewrite decide_False. }
  unfold match_target, posit_offset. cbn [for_each].
  rewrite (Hmiss tm 4 5)%nat by (done || lia). cbn [mbind result_bind].
  rewrite (Hmiss tm 4 4)%nat by (done || lia). cbn [mbind result_bind].
  rewrite (Hmiss tm 5 4)%nat by (done || lia). cbn [mbind result_bind].
  rewrite (Hmiss tm 6 5)%nat by (done || lia). cbn [mbind result_bind].
  rewrite (Hmiss tm 6 6)%nat by (done || lia). cbn [mbind result_bind].
  rewrite (match_site_eval B H W _ _ _ _ _ 0 5 6 3 3); try done; try lia;
    [|apply Hin|by rewrite Hpm by (cbn [fst snd]; lia)|by apply Hget].
  cbn [mbind result_bind]. change (3 =? 3) with true. cbv iota.
  rewrite (Hmiss _ 6 4)%nat by (done || lia). cbn [mbind result_bind].
  rewrite (Hmiss _ 4 6)%nat by (done || lia). cbn [mbind result_bind].
  rewrite (Hmiss _ 5 5)%nat by (done || lia). done.
Qed.

(** The whole pass: the prediction grid is unchanged and the target grid
    gains the label 3 at the predicted cell (0, 5, 6). *)
Lemma tolerant_matching_near_hit :
  tolerant_matching (near_hit_preds B H W) (near_hit_target B H W)
  = Ok (near_hit_preds B H W, set_cell (near_hit_target B H W) (0, 5, 6)%nat 3).
Proof.
  pose proof (class_grid_shape B H W (0, 5, 5)%nat 3) as Hst.
  assert (cell_at (near_hit_target B H W) (0, 5, 5)%nat = Some 3) as Hti
    by (unfold near_hit_target; by rewrite class_grid_cell by (cbn [fst snd]; lia)).
  unfold tolerant_matching.
  apply (for_each_all_equal _ _ (0, 5, 5)).
  - intros Hnil.
    assert ((0, 5, 5) ∈ where_positive (near_hit_target B H W)) as Hin
      by (apply (class_grid_positive B H W (0, 5, 5)%nat 3);
          cbn [fst snd]; [lia..|done|done]).
    rewrite Hnil in Hin. by apply elem_of_nil in Hin.
  - intros y Hy.
    by apply (class_grid_positive B H W (0, 5, 5)%nat 3) in Hy;
      cbn [fst snd]; [|lia..|done].
  - by apply match_target_near_hit.
  - rewrite match_target_near_hit.
    + by rewrite set_cell_idemp.
    + by apply has_shape3_set_cell.
    + rewrite cell_at_set_cell by (apply (has_shape3_cell_at B H W); [done|lia..]).
      by rewrite decide_False.
Qed.

End near_hit.

Lemma sumZ_app xs ys : sumZ (xs ++ ys) = sumZ xs + sumZ ys.
Proof. induction xs as [|x xs IH]; simpl; lia. Qed.

Lemma sum_over_S n f : sum_over (S n) f = sum_over n f + f n.
Proof.
  unfold sum_over. rewrite seq_S, fmap_app, sumZ_app. simpl. lia.
Qed.

Lemma sum_over_add n f g :
  sum_over n (fun i => f i + g i) = sum_over n f + sum_over n g.
Proof.
  induction n as [|n IH]; [done|]. rewrite !sum_over_S, IH. lia.
Qed.

Lemma sum_over_point n k v :
  (k < n)%nat → sum_over n (fun i => if decide (i = k) then v else 0) = v.
Proof.
  induction n as [|n IH]; [lia|]. intros Hk. rewrite sum_over_S.
  destruct (decide (n = k)) as [->|Hne].
  - rewrite sum_over_zero; [lia|]. intros i Hi. rewrite decide_False; [done|lia].
  - rewrite IH by lia. lia.
Qed.

(** Double sums of a matrix with a single non-zero entry. *)
Lemma sum_over_point_masked n (keep : nat -> nat -> bool) a b v :
  (a < n)%nat → (b < n)%nat →
  sum_over n (fun i => sum_over n (fun j =>
    if keep i j then point a b v i j else 0))
  = if keep a b then v else 0.
Proof.
  intros Ha Hb.
  rewrite (sum_over_ext n _
             (fun i => if decide (i = a) then (if keep a b then v else 0) else 0)).
  { by apply sum_over_point. }
  intros i Hi. destruct (decide (i = a)) as [->|Hne].
  - rewrite (sum_over_ext n _
               (fun j => if decide (j = b) then (if keep a b then v else 0) else 0)).
    { by apply sum_over_point. }
    intros j Hj. unfold point. destruct (decide (j = b)) as [->|Hne].
    + rewrite decide_True by done. done.
    + rewrite decide_False by (by intros [_ ?]). by destruct (keep a j).
  - apply sum_over_zero. intros j Hj. unfold point.
    rewrite decide_False by (by intros [? _]). by destruct (keep i j).
Qed.

Lemma sum_over_point_diag n a b v :
  (a < n)%nat →
  sum_over n (fun i => point a b v i i) = if decide (a = b) then v else 0.
Proof.
  intros Ha. destruct (decide (a = b)) as [<-|Hne].
  - rewrite (sum_over_ext n _ (fun i => if decide (i = a) then v else 0)).
    { by apply sum_over_point. }
    intros i _. unfold point. destruct (decide (i = a)) as [->|];
      [by rewrite decide_True | by rewrite decide_False by (by intros [? _])].
  - apply sum_over_zero. intros i _. unfold point.
    rewrite decide_False; [done|]. intros [-> ->]. done.
Qed.

(** Counts of a confusion matrix with three non-zero entries. *)
Lemma sum_where_three_points n keep m v1 a1 b1 v2 a2 b2 v3 a3 b3 :
  (∀ i j, (i < n)%nat → (j < n)%nat →
     entry m i j = point a1 b1 v1 i j + point a2 b2 v2 i j + point a3 b3 v3 i j) →
  (a1 < n)%nat → (b1 < n)%nat → (a2 < n)%nat → (b2 < n)%nat →
  (a3 < n)%nat → (b3 < n)%nat →
  sum_where n keep m =
    (if keep a1 b1 then v1 else 0) + (if keep a2 b2 then v2 else 0)
    + (if keep a3 b3 then v3 else 0).
Proof.
  intros He ? ? ? ? ? ?. unfold sum_where.
  rewrite <- (sum_over_point_masked n keep a1 b1 v1) by done.
  rewrite <- (sum_over_point_masked n keep a2 b2 v2) by done.
  rewrite <- (sum_over_point_masked n keep a3 b3 v3) by done.
  rewrite <- !sum_over_add. apply sum_over_ext. intros i Hi.
  rewrite <- !sum_over_add. apply sum_over_ext. intros j Hj.
  rewrite He by done. destruct (keep i j); lia.
Qed.

Lemma sum_diag_three_points n m v1 a1 b1 v2 a2 b2 v3 a3 b3 :
  (∀ i j, (i < n)%nat → (j < n)%nat →
     entry m i j = point a1 b1 v1 i j + point a2 b2 v2 i j + point a3 b3 v3 i j) →
  (a1 < n)%nat → (a2 < n)%nat → (a3 < n)%nat →
  sum_over n (fun i => entry m i i) =
    (if decide (a1 = b1) then v1 else 0) + (if decide (a2 = b2) then v2 else 0)
    + (if decide (a3 = b3) then v3 else 0).
Proof.
  intros He ? ? ?.
  rewrite <- (sum_over_point_diag n a1 b1 v1) by done.
  rewrite <- (sum_over_point_diag n a2 b2 v2) by done.
  rewrite <- (sum_over_point_diag n a3 b3 v3) by done.
  rewrite <- !sum_over_add. apply sum_over_ext. intros i Hi. by apply He.
Qed.

Lemma indicator_point (a b i j : nat) :
  indicator (Z.of_nat a, Z.of_nat b) (Z.of_nat i, Z.of_nat j) = point a b 1 i j.
Proof.
  unfold indicator, point.
  destruct (decide (i = a ∧ j = b)) as [[-> ->]|Hne].
  - by rewrite decide_True.
  - rewrite decide_False; [done|]. intros [= Ha%Nat2Z.inj Hb%Nat2Z.inj].
    apply Hne. split; congruence.
Qed.

Section near_hit_counts.
Variables B H W : nat.
Hypothesis HB : (0 < B)%nat.
Hypothesis HH : (7 <= H)%nat.
Hypothesis HW : (7 <= W)%nat.

Lemma near_hit_flat_bounds :
  (flat_index H W (0, 5, 5) < flat_index H W (0, 5, 6) < B * H * W)%nat.
Proof.
  unfold flat_index. cbn [fst snd].
  assert (7 * W <= H * W)%nat by (apply Nat.mul_le_mono_r; lia).
  assert (1 * (H * W) <= B * (H * W))%nat by (apply Nat.mul_le_mono_r; lia).
  lia.
Qed.

Lemma near_hit_preds_flat :
  flatten3 (near_hit_preds B H W)
  = <[flat_index H W (0, 5, 6)%nat := 3]> (replicate (B * H * W) 0).
Proof.
  unfold near_hit_preds, class_grid.
  rewrite (flatten3_set_cell B H W), flatten3_replicate;
    [done|apply has_shape3_replicate|].
  by rewrite cell_at_zero_grid by (cbn [fst snd]; lia).
Qed.

Lemma near_hit_matched_flat :
  flatten3 (set_cell (near_hit_target B H W) (0, 5, 6)%nat 3)
  = <[flat_index H W (0, 5, 6)%nat := 3]>
      (<[flat_index H W (0, 5, 5)%nat := 3]> (replicate (B * H * W) 0)).
Proof.
  rewrite (flatten3_set_cell B H W); [|apply class_grid_shape|].
  - unfold near_hit_target, class_grid.
    rewrite (flatten3_set_cell B H W), flatten3_replicate;
      [done|apply has_shape3_replicate|].
    by rewrite cell_at_zero_grid by (cbn [fst snd]; lia).
  - unfold near_hit_target.
    by rewrite class_grid_cell by (cbn [fst snd]; lia).
Qed.

(** The label pairs of the matched grids: target 3 / predicted 3 once,
    target 3 / predicted 0 once, background everywhere else. *)
Lemma near_hit_count_pairs i j :
  count_pairs (flatten3 (set_cell (near_hit_target B H W) (0, 5, 6)%nat 3))
              (flatten3 (near_hit_preds B H W)) i j
  = (Z.of_nat (B * H * W) - 2) * indicator (0, 0) (i, j)
    + indicator (3, 0) (i, j) + indicator (3, 3) (i, j).
Proof.
  rewrite near_hit_preds_flat, near_hit_matched_flat.
  pose proof near_hit_flat_bounds as Hf.
  set (f55 := flat_index H W (0, 5, 5)%nat) in *.
  set (f56 := flat_index H W (0, 5, 6)%nat) in *.
  set (N := (B * H * W)%nat) in *.
  assert (replicate N 0 !! f55 = Some 0) as H55
    by (apply lookup_replicate; split; [done|lia]).
  assert (replicate N 0 !! f56 = Some 0) as H56
    by (apply lookup_replicate; split; [done|lia]).
  rewrite (count_pairs_insert_l _ _ f56 0 3 3).
  - rewrite (count_pairs_insert_l _ _ f55 0 3 0).
    + rewrite (count_pairs_insert_r _ _ f56 0 0 3) by done.
      rewrite count_pairs_replicate. lia.
    + done.
    + by rewrite list_lookup_insert_ne by lia.
  - by rewrite list_lookup_insert_ne by lia.
  - rewrite list_lookup_insert_eq; [done|]. rewrite length_replicate. lia.
Qed.

Lemma near_hit_labels n :
  (4 <= n)%nat →
  Forall (fun y => 0 <= y < Z.of_nat n)
    (flatten3 (set_cell (near_hit_target B H W) (0, 5, 6)%nat 3)).
Proof.
  intros Hn. rewrite near_hit_matched_flat. pose proof near_hit_flat_bounds.
  apply Forall_insert; [|lia]. apply Forall_insert; [|lia].
  apply Forall_replicate. lia.
Qed.

(** The confusion counts of the near hit, for any number of classes from 3
    on: tn = B*H*W - 2, tp = 1, fn = 1, fp = 0. *)
Lemma near_hit_confusion n :
  (4 <= n)%nat →
  ∃ confusion,
    confusion_matrix
      (flatten3 (set_cell (near_hit_target B H W) (0, 5, 6)%nat 3))
      (flatten3 (near_hit_preds B H W)) n = Ok confusion ∧
    confusion_counts confusion = (Z.of_nat (B * H * W) - 2, 1, 1, 0).
Proof.
  intros Hn.
  destruct (confusion_matrix_labels_in_range
              (flatten3 (set_cell (near_hit_target B H W) (0, 5, 6)%nat 3))
              (flatten3 (near_hit_preds B H W)) n) as [m Hm];
    [lia|by apply near_hit_labels|].
  exists m. split; [done|].
  destruct (confusion_matrix_Ok _ _ _ _ Hm) as (_ & Hsq & Hentry).
  assert (∀ i j, (i < n)%nat → (j < n)%nat →
            entry m i j = point 0 0 (Z.of_nat (B * H * W) - 2) i j
                          + point 3 0 1 i j + point 3 3 1 i j) as He.
  { intros i j Hi Hj. rewrite Hentry, near_hit_count_pairs by done.
    change (0, 0) with (Z.of_nat 0, Z.of_nat 0).
    change (3, 0) with (Z.of_nat 3, Z.of_nat 0).
    change (3, 3) with (Z.of_nat 3, Z.of_nat 3).
    rewrite !indicator_point. unfold point. repeat case_decide; lia. }
  rewrite (confusion_counts_sums n m Hsq).
  rewrite (sum_diag_three_points n m _ _ _ _ _ _ _ _ _ He) by lia.
  rewrite !(sum_where_three_points n _ m _ _ _ _ _ _ _ _ _ He) by lia.
  assert (entry m 0 0 = Z.of_nat (B * H * W) - 2) as ->
    by (rewrite He by lia; reflexivity || (unfold point; simpl; lia)).
  simpl. repeat f_equal; lia.
Qed.

End near_hit_counts.

(** C6, on a grid of any size.  For every batch size, every grid of at
    least 7 rows and 7 columns and every number of classes from 3 on: with
    a single true object cell of class 3 at (0, 5, 5) and a single predicted
    object cell of class 3 at (0, 5, 6), the matching pass copies the label
    to the predicted cell, which is counted as a true positive (tp = 1) and
    not as a false positive (fp = 0).  The true cell itself, where the
    prediction is background, remains a false negative (fn = 1), so P = 1,
    R = 1/2 and F1 = 2/3. *)
Theorem neighbor_tolerance_any_grid self preds target B H W :
  (0 < B)%nat → (7 <= H)%nat → (7 <= W)%nat → (3 <= num_classes self)%nat →
  argmax_last target = Ok (near_hit_target B H W) →
  argmax_last (softmax_last preds) = Ok (near_hit_preds B H W) →
  ∃ confusion,
    tolerant_matching (near_hit_preds B H W) (near_hit_target B H W)
      = Ok (near_hit_preds B H W,
            set_cell (near_hit_target B H W) (0, 5, 6)%nat 3) ∧
    confusion_matrix
      (flatten3 (set_cell (near_hit_target B H W) (0, 5, 6)%nat 3))
      (flatten3 (near_hit_preds B H W)) (num_classes self + 1) = Ok confusion ∧
    confusion_counts confusion = (Z.of_nat (B * H * W) - 2, 1, 1, 0) ∧
    get_pricsion_recall_f1 self preds target = Ok (1%Q, 1 # 2, 4 # 6)%Q.
Proof.
  intros HB HH HW Hn Htm Hpm.
  destruct (near_hit_confusion B H W HB HH HW (num_classes self + 1))
    as (confusion & Hconf & Hcounts); [lia|].
  exists confusion. split_and!; [by apply tolerant_matching_near_hit|done..|].
  unfold get_pricsion_recall_f1. rewrite Htm, Hpm. cbn [mbind result_bind].
  unfold precision_recall_f1_of, num_attrib.
  rewrite (tolerant_matching_near_hit B H W HB HH HW). cbn [mbind result_bind].
  rewrite Hconf. cbn [mbind result_bind].
  pose proof (scores_of_counts confusion) as Hs. rewrite Hcounts in Hs.
  rewrite Hs. reflexivity.
Qed.

(** The 12 by 12 grid with four channels. *)
Lemma neighbor_tolerance_any_grid_witness :
  ∃ confusion,
    tolerant_matching (near_hit_preds 1 12 12) (near_hit_target 1 12 12)
      = Ok (near_hit_preds 1 12 12,
            set_cell (near_hit_target 1 12 12) (0, 5, 6)%nat 3) ∧
    confusion_matrix
      (flatten3 (set_cell (near_hit_target 1 12 12) (0, 5, 6)%nat 3))
      (flatten3 (near_hit_preds 1 12 12)) (num_classes head3 + 1) = Ok confusion ∧
    confusion_counts confusion = (Z.of_nat (1 * 12 * 12) - 2, 1, 1, 0) ∧
    get_pricsion_recall_f1 head3
      (of_Z4 (one_hot_grid 1 12 12 4 (0, 5, 6)%nat 3))
      (of_Z4 (one_hot_grid 1 12 12 4 (0, 5, 5)%nat 3))
    = Ok (1%Q, 1 # 2, 4 # 6)%Q.
Proof.
  apply (neighbor_tolerance_any_grid head3 _ _ 1 12 12).
  - lia.
  - lia.
  - lia.
  - simpl. lia.
  - rewrite argmax_last_of_Z. vm_compute. reflexivity.
  - rewrite argmax_last_softmax, argmax_last_of_Z. vm_compute. reflexivity.
Defined.

(** * Further properties of [build_target] *)

Lemma norm_index_index_ok size i :
  index_ok size i ↔ ∃ k, norm_index size i = Ok k.
Proof.
  unfold index_ok, norm_index. split.
  - intros Hi. destruct (0 <=? i) eqn:H0; destruct (i <? Z.of_nat size) eqn:H1;
      cbn [andb]; eauto.
    + apply Z.leb_le in H0. apply Z.ltb_ge in H1. lia.
    + destruct (- Z.of_nat size <=? i) eqn:H2; destruct (i <? 0) eqn:H3;
        cbn [andb]; eauto.
      * apply Z.leb_gt in H0. apply Z.ltb_ge in H3. lia.
      * apply Z.leb_gt in H2. lia.
      * apply Z.leb_gt in H2. lia.
    + destruct (- Z.of_nat size <=? i) eqn:H2; destruct (i <? 0) eqn:H3;
        cbn [andb]; eauto.
      * apply Z.leb_gt in H0. apply Z.ltb_ge in H3. lia.
      * apply Z.leb_gt in H2. lia.
      * apply Z.leb_gt in H2. lia.
  - intros [k Hk]. apply norm_index_Ok in Hk. lia.
Qed.

Lemma norm_index_not_ok size i :
  ¬ index_ok size i → norm_index size i = Raise IndexError.
Proof.
  intros Hi. destruct (norm_index size i) as [k|e] eqn:Hk.
  - destruct Hi. apply norm_index_index_ok. eauto.
  - unfold norm_index in Hk. repeat case_match; congruence.
Qed.


Lemma lookup_lt_Some_ex {A : Type} (l : list A) k :
  (k < length l)%nat → ∃ x, l !! k = Some x.
Proof. intros. by apply lookup_lt_is_Some_2. Qed.

Lemma has_shape4_lookup {A : Type} B H W C (t : tensor4 A) b h w img row cell :
  has_shape4 B H W C t → t !! b = Some img → img !! h = Some row →
  row !! w = Some cell →
  length t = B ∧ length img = H ∧ length row = W ∧ length cell = C.
Proof.
  intros [Hl Hall] Hb Hh Hw.
  pose proof (Forall_lookup_1 _ _ _ _ Hall Hb) as [Hli Hall2]. simpl in *.
  pose proof (Forall_lookup_1 _ _ _ _ Hall2 Hh) as [Hlr Hall3]. simpl in *.
  pose proof (Forall_lookup_1 _ _ _ _ Hall3 Hw) as Hlc. simpl in *.
  done.
Qed.












(** ** Fractions outside [0, 1) *)











(** ** Invariants of the grid *)

Lemma elem_of_insert_inv {A : Type} (l : list A) i x y :
  x ∈ <[i := y]> l → x = y ∨ x ∈ l.
Proof.
  intros [j Hj]%list_elem_of_lookup.
  apply list_lookup_insert_Some in Hj as [(-> & -> & _)|(_ & Hj)]; [by left|].
  right. by eapply list_elem_of_lookup_2.
Qed.

(** The two writes of a step store 0 and 1 and leave a 1 in the cell. *)
Lemma build_target_values preds targets g :
  build_target preds targets = Ok g →
  ∀ p cell, cell_at g p = Some cell →
    (∀ v, v ∈ cell → v = 0%R ∨ v = 1%R) ∧ 1%R ∈ cell.
Proof.
  intros Hrun. unfold build_target in Hrun.
  destruct (shape4 preds) as [[[B H] W] C].
  apply bind_Ok in Hrun as (g0 & Hfill & Hrun).
  apply fill_channel0_zeros in Hfill as [Hs0 Hc0].
  pose (Inv := fun (_ : list annotation) (g : tensor4 R) =>
    has_shape3 B H W g ∧
    ∀ p cell, cell_at g p = Some cell →
      (∀ v, v ∈ cell → v = 0%R ∨ v = 1%R) ∧ 1%R ∈ cell).
  enough (Inv targets g) as [_ ?] by done.
  eapply (for_each_invariant _ Inv); [|split|exact Hrun].
  - clear. intros seen a s s' _ [Hs Hcells] Hstep.
    unfold build_target_step in Hstep.
    apply bind_Ok in Hstep as (s1 & H1 & H2).
    destruct (setitem4_cells _ _ _ _ _ _ _ _ _ _ Hs H1)
      as (nb & nh & nw & n0 & cell & Hb & Hh & Hw & Hcell & Hn0 & Hs1 & Hc1).
    destruct (setitem4_cells _ _ _ _ _ _ _ _ _ _ Hs1 H2)
      as (nb' & nh' & nw' & nc & cell1 & Hb' & Hh' & Hw' & Hcell1 & Hnc & Hs2 & Hc2).
    assert (nb' = nb) as -> by congruence.
    assert (nh' = nh) as -> by congruence.
    assert (nw' = nw) as -> by congruence.
    split; [done|]. intros p c Hp. rewrite Hc2 in Hp.
    case_decide as Hpq.
    + injection Hp as <-. pose proof (Hc1 (nb, nh, nw)) as E.
      rewrite decide_True in E by done.
      assert (cell1 = <[n0 := 0%R]> cell) as -> by congruence.
      destruct (Hcells _ _ Hcell) as [Hbin _]. split.
      * intros v [->|[->|Hv]%elem_of_insert_inv]%elem_of_insert_inv; auto.
      * apply list_elem_of_insert. by apply norm_index_Ok in Hnc as [? _].
    + pose proof (Hc1 p) as E. rewrite decide_False in E by done.
      apply (Hcells p). congruence.
  - done.
  - intros p cell Hp. destruct (Hc0 _ _ Hp) as [HC ->].
    rewrite <- multi_hot_nil by done. split.
    + intros v [->|Hv]%elem_of_insert_inv; [by right|].
      apply elem_of_replicate in Hv as [-> _]. by left.
    + apply list_elem_of_insert. by rewrite length_replicate.
Qed.

(** X4.  Whatever the annotations are, every cell of a grid that
    [build_target] returns holds only the values 0 and 1, and at least one
    1: no cell is left without a label. *)
Theorem build_target_cells_binary preds targets g :
  build_target preds targets = Ok g →
  ∀ p cell, cell_at g p = Some cell →
    (∀ v, v ∈ cell → v = 0%R ∨ v = 1%R) ∧ 1%R ∈ cell.
Proof. apply build_target_values. Qed.

Lemma build_target_cells_binary_witness :
  build_target overlap_preds overlap_targets = Ok overlap_grid ∧
  cell_at overlap_grid (0, 1, 1)%nat = Some [0; 1; 1]%R ∧
  (∀ v, v ∈ [0; 1; 1]%R → v = 0%R ∨ v = 1%R) ∧ 1%R ∈ [0; 1; 1]%R.
Proof.
  assert (build_target overlap_preds overlap_targets = Ok overlap_grid) as Hrun
    by (vm_compute; reflexivity).
  split; [exact Hrun|]. split; [reflexivity|].
  apply (build_target_cells_binary overlap_preds overlap_targets overlap_grid Hrun
           (0, 1, 1)%nat).
  reflexivity.
Defined.

(** ** The order of the annotations *)

Lemma tensor3_ext {A : Type} B H W (t t' : list (list (list A))) :
  has_shape3 B H W t → has_shape3 B H W t' →
  (∀ p, cell_at t p = cell_at t' p) → t = t'.
Proof.
  intros [Hl Hall] [Hl' Hall'] Hcells.
  apply (list_eq_same_length _ _ B); [done..|].
  intros b img img' Hb Himg Himg'.
  pose proof (Forall_lookup_1 _ _ _ _ Hall Himg) as [Hli Hrows]. simpl in *.
  pose proof (Forall_lookup_1 _ _ _ _ Hall' Himg') as [Hli' Hrows']. simpl in *.
  apply (list_eq_same_length _ _ H); [done..|].
  intros h row row' Hh Hrow Hrow'.
  pose proof (Forall_lookup_1 _ _ _ _ Hrows Hrow) as Hlr. simpl in *.
  pose proof (Forall_lookup_1 _ _ _ _ Hrows' Hrow') as Hlr'. simpl in *.
  apply (list_eq_same_length _ _ W); [done..|].
  intros w x y Hw Hx Hy.
  specialize (Hcells (b, h, w)). unfold cell_at in Hcells.
  rewrite Himg, Himg' in Hcells. simpl in Hcells.
  rewrite Hrow, Hrow' in Hcells. simpl in Hcells. congruence.
Qed.





(** * Further properties of the tolerant matching *)

Lemma getitem3_nonneg_cell {A : Type} (t : tensor3 A) b h w x :
  getitem3 t (b, h, w) = Ok x → 0 <= b → 0 <= h → 0 <= w →
  cell_at t (Z.to_nat b, Z.to_nat h, Z.to_nat w) = Some x.
Proof.
  intros Hget Hb Hh Hw. unfold getitem3 in Hget.
  apply bind_Ok in Hget as (img & Himg & Hget).
  apply bind_Ok in Hget as (row & Hrow & Hget).
  apply getitem_Ok in Himg as (kb & Hkb & Himg).
  apply getitem_Ok in Hrow as (kh & Hkh & Hrow).
  apply getitem_Ok in Hget as (kw & Hkw & Hget).
  apply norm_index_nonneg_inv in Hkb as [_ ->]; [|done].
  apply norm_index_nonneg_inv in Hkh as [_ ->]; [|done].
  apply norm_index_nonneg_inv in Hkw as [_ ->]; [|done].
  apply cell_at_Some. eauto.
Qed.

(** What one iteration of the inner loop can do: nothing, or one write to
    [target_max] at a site where the prediction carries the label of the
    true cell. *)
Lemma match_site_Ok_inv preds_index ti po pm tm st' :
  match_site preds_index ti (pm, tm) po = Ok st' →
  st' = (pm, tm) ∨
  ∃ t tm',
    any_lt (add3 ti po) 0 || any_gt (add3 ti po) 11 = false ∧
    tensor_contains (add3 ti po) preds_index = true ∧
    getitem3 pm (add3 ti po) = Ok t ∧ getitem3 tm ti = Ok t ∧
    setitem3 tm (add3 ti po) t = Ok tm' ∧ st' = (pm, tm').
Proof.
  unfold match_site. intros Hrun.
  destruct (any_lt (add3 ti po) 0 || any_gt (add3 ti po) 11) eqn:Hguard;
    [left; congruence|].
  destruct (tensor_contains (add3 ti po) preds_index) eqn:Hin; [|left; congruence].
  apply bind_Ok in Hrun as (p & Hp & Hrun).
  apply bind_Ok in Hrun as (t & Ht & Hrun).
  destruct (p =? t) eqn:Hpt; [|left; congruence].
  apply Z.eqb_eq in Hpt as ->.
  rewrite Ht in Hrun. cbn [mbind result_bind] in Hrun.
  rewrite (setitem3_same pm _ t Hp) in Hrun. cbn [mbind result_bind] in Hrun.
  apply bind_Ok in Hrun as (tm' & Htm' & Hrun). injection Hrun as <-.
  right. exists t, tm'. done.
Qed.

Lemma for_each_preserves {St X : Type} (body : St -> X -> result St)
    (P : St -> Prop) xs s s' :
  (∀ s x s', x ∈ xs → P s → body s x = Ok s' → P s') →
  P s → for_each body xs s = Ok s' → P s'.
Proof.
  intros Hstep Hs Hrun.
  apply (for_each_invariant body (fun _ => P) xs s s'); [|done..].
  intros seen x s0 s1 Hx. by apply Hstep.
Qed.

(** X6.  The matching pass never changes the grid of predicted classes:
    its write to [preds_max] stores the value that is already there. *)
Theorem tolerant_matching_keeps_predictions preds_max target_max preds_max' target_max' :
  tolerant_matching preds_max target_max = Ok (preds_max', target_max') →
  preds_max' = preds_max.
Proof.
  unfold tolerant_matching. intros Hrun.
  apply (for_each_preserves _ (fun st => st.1 = preds_max)) in Hrun; [done| |done].
  intros st ti st' _ Hst Hti. unfold match_target in Hti.
  apply (for_each_preserves _ (fun st => st.1 = preds_max)) in Hti; [done| |done].
  clear. intros [pm tm] po st' _ Hst Hpo. simpl in Hst. subst pm.
  apply match_site_Ok_inv in Hpo as [->|(t & tm' & _ & _ & _ & _ & _ & ->)]; done.
Qed.

Lemma tolerant_matching_keeps_predictions_witness :
  tolerant_matching two_preds_grid one_target_grid
    = Ok (two_preds_grid, set_cell one_target_grid (0, 3, 4)%nat 2) ∧
  two_preds_grid = two_preds_grid.
Proof.
  assert (tolerant_matching two_preds_grid one_target_grid
          = Ok (two_preds_grid, set_cell one_target_grid (0, 3, 4)%nat 2)) as Hrun
    by (vm_compute; reflexivity).
  split; [exact Hrun|].
  exact (tolerant_matching_keeps_predictions _ _ _ _ Hrun).
Defined.

Lemma match_site_invariant B H W pm tm0 ti po st st' :
  ti ∈ where_positive tm0 →
  matching_invariant B H W pm tm0 st →
  match_site (where_positive pm) ti st po = Ok st' →
  matching_invariant B H W pm tm0 st'.
Proof.
  intros Hti (Hpm & Hs & Hcells) Hrun. destruct st as [pm1 tm]. simpl in *.
  subst pm1.
  apply match_site_Ok_inv in Hrun
    as [->|(t & tm' & Hguard & _ & Hp & Ht & Hset & ->)]; [done|].
  apply where_positive_elem in Hti as (b & h & w & v0 & -> & Hv0 & Hpos).
  apply getitem3_nonneg_cell in Ht; [|lia..]. rewrite !Nat2Z.id in Ht.
  assert (0 < t) as Htpos.
  { destruct (Hcells _ _ Ht) as [?|[_ ?]]; [|done]. congruence. }
  apply guard_passed in Hguard.
  destruct (add3 (Z.of_nat b, Z.of_nat h, Z.of_nat w) po) as [[sb sh] sw] eqn:Hsite.
  simpl in Hguard.
  apply getitem3_nonneg_cell in Hp; [|lia..].
  destruct (setitem3_cells _ _ _ _ _ _ _ _ _ Hs Hset)
    as (nb & nh & nw & x & Hnb & Hnh & Hnw & _ & Hs' & Hc').
  apply norm_index_nonneg_inv in Hnb as [_ ->]; [|lia].
  apply norm_index_nonneg_inv in Hnh as [_ ->]; [|lia].
  apply norm_index_nonneg_inv in Hnw as [_ ->]; [|lia].
  split_and!; [done..|]. simpl. intros q v' Hq.
  pose proof (Hc' q) as E. case_decide as Hqs.
  - subst q. right. split; [congruence|]. congruence.
  - apply Hcells. congruence.
Qed.

Lemma tolerant_matching_invariant B H W pm tm st' :
  has_shape3 B H W tm → tolerant_matching pm tm = Ok st' →
  matching_invariant B H W pm tm st'.
Proof.
  intros Hs Hrun. unfold tolerant_matching in Hrun.
  eapply (for_each_preserves _ (matching_invariant B H W pm tm)); [| |exact Hrun].
  - intros st ti st1 Hti Hst Hrun1. unfold match_target in Hrun1.
    eapply (for_each_preserves _ (matching_invariant B H W pm tm));
      [|exact Hst|exact Hrun1].
    intros s po s1 _ Hinv Hpo. by eapply match_site_invariant.
  - split_and!; [done..|]. intros q v' Hq. by left.
Qed.

(** X7.  The matching pass changes the grid of true classes only toward
    the prediction: the grid keeps its shape, and each of its cells either
    keeps its class or takes the class predicted for that cell, which is
    then an object class.  A cell that holds an object never becomes
    background. *)
Theorem tolerant_matching_moves_target_to_prediction B H W preds_max target_max
    preds_max' target_max' :
  has_shape3 B H W target_max →
  tolerant_matching preds_max target_max = Ok (preds_max', target_max') →
  has_shape3 B H W target_max' ∧
  (∀ q v', cell_at target_max' q = Some v' →
     cell_at target_max q = Some v' ∨ (cell_at preds_max q = Some v' ∧ 0 < v')) ∧
  (∀ q v, cell_at target_max q = Some v → 0 < v →
     ∃ v', cell_at target_max' q = Some v' ∧ 0 < v').
Proof.
  intros Hs Hrun.
  destruct (tolerant_matching_invariant _ _ _ _ _ _ Hs Hrun) as (_ & Hs' & Hcells).
  simpl in *. split_and!; [done..|].
  intros [[b h] w] v Hq Hv.
  destruct (has_shape3_cell_at_lt _ _ _ _ _ _ _ _ Hs Hq) as (? & ? & ?).
  destruct (has_shape3_cell_at B H W target_max' b h w Hs') as [v' Hq']; [done..|].
  exists v'. split; [done|].
  destruct (Hcells _ _ Hq') as [?|[_ ?]]; [|done]. congruence.
Qed.

Lemma tolerant_matching_moves_target_to_prediction_witness :
  let target_max' := set_cell one_target_grid (0, 3, 4)%nat 2 in
  tolerant_matching two_preds_grid one_target_grid = Ok (two_preds_grid, target_max') ∧
  has_shape3 1 12 12 target_max' ∧
  (∀ q v', cell_at target_max' q = Some v' →
     cell_at one_target_grid q = Some v' ∨
     (cell_at two_preds_grid q = Some v' ∧ 0 < v')) ∧
  (∀ q v, cell_at one_target_grid q = Some v → 0 < v →
     ∃ v', cell_at target_max' q = Some v' ∧ 0 < v').
Proof.
  intros target_max'.
  assert (tolerant_matching two_preds_grid one_target_grid
          = Ok (two_preds_grid, target_max')) as Hrun
    by (vm_compute; reflexivity).
  split; [exact Hrun|].
  apply (tolerant_matching_moves_target_to_prediction 1 12 12 _ _ _ _
           (class_grid_shape 1 12 12 _ _) Hrun).
Defined.

(** ** The membership test *)

Lemma tensor_contains_elem site index :
  site ∈ index → tensor_contains site index = true.
Proof. destruct site as [[b h] w]. apply tensor_contains_batch. Qed.

Lemma for_each_simulates {St X : Type} (body body' : St -> X -> result St)
    (P : St -> Prop) xs :
  (∀ s x s', x ∈ xs → P s → body s x = Ok s' → body' s x = Ok s' ∧ P s') →
  ∀ s s', P s → for_each body xs s = Ok s' → for_each body' xs s = Ok s' ∧ P s'.
Proof.
  induction xs as [|x xs IH]; intros Hstep s s' Hs Hrun.
  - by injection Hrun as <-.
  - cbn [for_each] in *. apply bind_Ok in Hrun as (s1 & H1 & Hrun).
    destruct (Hstep s x s1 (list_elem_of_here _ _) Hs H1) as [-> Hs1].
    cbn [mbind result_bind]. apply IH; [|done..].
    intros s0 y s2 Hy. apply Hstep. by apply list_elem_of_further.
Qed.

Lemma match_site_rowwise_agrees B H W pm tm0 ti po st st' :
  ti ∈ where_positive tm0 →
  matching_invariant B H W pm tm0 st →
  match_site (where_positive pm) ti st po = Ok st' →
  match_site_rowwise (where_positive pm) ti st po = Ok st'.
Proof.
  intros Hti (Hpm & Hs & Hcells) Hrun. destruct st as [pm1 tm]. simpl in *.
  subst pm1. unfold match_site_rowwise.
  pose proof Hrun as Hrun0.
  apply match_site_Ok_inv in Hrun
    as [->|(t & tm' & Hguard & _ & Hp & Ht & Hset & ->)].
  - unfold match_site in Hrun0.
    destruct (any_lt (add3 ti po) 0 || any_gt (add3 ti po) 11); [done|].
    case_bool_decide as Hin; [|done].
    by rewrite (tensor_contains_elem _ _ Hin) in Hrun0.
  - rewrite Hguard.
    apply where_positive_elem in Hti as (b & h & w & v0 & -> & Hv0 & Hpos).
    pose proof Ht as Ht'.
    apply getitem3_nonneg_cell in Ht'; [|lia..]. rewrite !Nat2Z.id in Ht'.
    assert (0 < t) as Htpos.
    { destruct (Hcells _ _ Ht') as [?|[_ ?]]; [|done]. congruence. }
    pose proof (guard_passed _ Hguard) as Hrange.
    destruct (add3 (Z.of_nat b, Z.of_nat h, Z.of_nat w) po) as [[sb sh] sw] eqn:Hsite.
    simpl in Hrange.
    pose proof Hp as Hp'. apply getitem3_nonneg_cell in Hp'; [|lia..].
    rewrite bool_decide_true.
    + rewrite Hp. cbn [mbind result_bind]. rewrite Ht. cbn [mbind result_bind].
      rewrite Z.eqb_refl. cbn [mbind result_bind].
      rewrite (setitem3_same pm _ t Hp). cbn [mbind result_bind].
      by rewrite Hset.
    + apply where_positive_elem.
      exists (Z.to_nat sb), (Z.to_nat sh), (Z.to_nat sw), t.
      split_and!; [|done..]. repeat f_equal; lia.
Qed.

(** X8.  The test [site in preds_index] compares coordinate by coordinate
    against every predicted object, yet whenever the matching pass returns
    its result is the one that exact membership of [site] among the
    predicted objects gives. *)
Theorem tolerant_matching_membership_exact B H W preds_max target_max st' :
  has_shape3 B H W target_max →
  tolerant_matching preds_max target_max = Ok st' →
  tolerant_matching_rowwise preds_max target_max = Ok st'.
Proof.
  intros Hs Hrun. unfold tolerant_matching in Hrun. unfold tolerant_matching_rowwise.
  eapply (for_each_simulates _ _ (matching_invariant B H W preds_max target_max));
    [| |exact Hrun].
  - intros st ti st1 Hti Hst Hrun1. unfold match_target in Hrun1.
    eapply (for_each_simulates _ _ (matching_invariant B H W preds_max target_max));
      [|exact Hst|exact Hrun1].
    intros s po s1 _ Hinv Hpo. split.
    + by eapply match_site_rowwise_agrees.
    + by eapply match_site_invariant.
  - split_and!; [done..|]. intros q v' Hq. by left.
Qed.

(** The predicted object at (0, 8, 8) shares its image index with every
    site, so the loose test accepts each of them. *)
Lemma tolerant_matching_membership_exact_witness :
  tolerant_matching two_preds_grid one_target_grid
    = Ok (two_preds_grid, set_cell one_target_grid (0, 3, 4)%nat 2) ∧
  tolerant_matching_rowwise two_preds_grid one_target_grid
    = Ok (two_preds_grid, set_cell one_target_grid (0, 3, 4)%nat 2).
Proof.
  assert (tolerant_matching two_preds_grid one_target_grid
          = Ok (two_preds_grid, set_cell one_target_grid (0, 3, 4)%nat 2)) as Hrun
    by (vm_compute; reflexivity).
  split; [exact Hrun|].
  exact (tolerant_matching_membership_exact 1 12 12 _ _ _
           (class_grid_shape 1 12 12 _ _) Hrun).
Defined.

(** * The confusion counts as counts of cells *)

Lemma pairs_count_cons (p : Z * Z) ps q :
  Z.of_nat (length (filter (fun x => x = q) (p :: ps)))
  = indicator p q + Z.of_nat (length (filter (fun x => x = q) ps)).
Proof.
  rewrite filter_cons. unfold indicator.
  repeat case_decide; try done; simpl length; lia.
Qed.

Lemma sum_over_indicator_out_of_range n (keep : nat -> nat -> bool) (p : Z * Z) :
  label_in_range n p.1 && label_in_range n p.2 = false →
  sum_over n (fun i => sum_over n (fun j =>
    if keep i j then indicator p (Z.of_nat i, Z.of_nat j) else 0)) = 0.
Proof.
  intros Hout. apply sum_over_zero. intros i Hi. apply sum_over_zero. intros j Hj.
  destruct (keep i j); [|done]. unfold indicator. case_decide as Hp; [|done].
  subst p. unfold label_in_range in Hout. simpl in Hout.
  apply andb_false_iff in Hout as [Hout|Hout];
    apply andb_false_iff in Hout as [Hout|Hout];
    first [apply Z.leb_gt in Hout|apply Z.ltb_ge in Hout]; lia.
Qed.

Lemma sum_over_indicator_in_range n (keep : nat -> nat -> bool) (p : Z * Z) :
  label_in_range n p.1 && label_in_range n p.2 = true →
  sum_over n (fun i => sum_over n (fun j =>
    if keep i j then indicator p (Z.of_nat i, Z.of_nat j) else 0))
  = if keep (Z.to_nat p.1) (Z.to_nat p.2) then 1 else 0.
Proof.
  intros Hin. destruct p as [x y]. unfold label_in_range in Hin. simpl in *.
  apply andb_true_iff in Hin as [Hx Hy].
  apply andb_true_iff in Hx as [Hx0 Hx1]. apply andb_true_iff in Hy as [Hy0 Hy1].
  apply Z.leb_le in Hx0, Hy0. apply Z.ltb_lt in Hx1, Hy1.
  rewrite <- (sum_over_point_masked n keep (Z.to_nat x) (Z.to_nat y) 1) by lia.
  apply sum_over_ext. intros i Hi. apply sum_over_ext. intros j Hj.
  destruct (keep i j); [|done].
  rewrite <- indicator_point. by rewrite !Z2Nat.id by lia.
Qed.

(** Summing the entries selected by [keep] counts the pairs of labels, both
    in range, that [keep] selects. *)
Lemma sum_pairs_count n (keep : nat -> nat -> bool) (ps : list (Z * Z)) :
  sum_over n (fun i => sum_over n (fun j =>
    if keep i j
    then Z.of_nat (length (filter (fun p => p = (Z.of_nat i, Z.of_nat j)) ps))
    else 0))
  = Z.of_nat (length (filter (fun p =>
      label_in_range n p.1 && label_in_range n p.2
      && keep (Z.to_nat p.1) (Z.to_nat p.2) = true) ps)).
Proof.
  induction ps as [|p ps IH].
  - simpl. apply sum_over_zero. intros i _. apply sum_over_zero. intros j _.
    by destruct (keep i j).
  - transitivity
      (sum_over n (fun i => sum_over n (fun j =>
         if keep i j then indicator p (Z.of_nat i, Z.of_nat j) else 0))
       + sum_over n (fun i => sum_over n (fun j =>
           if keep i j
           then Z.of_nat (length (filter (fun p => p = (Z.of_nat i, Z.of_nat j)) ps))
           else 0))).
    { rewrite <- sum_over_add. apply sum_over_ext. intros i _.
      rewrite <- sum_over_add. apply sum_over_ext. intros j _.
      rewrite pairs_count_cons. destruct (keep i j); lia. }
    rewrite IH. rewrite filter_cons.
    destruct (label_in_range n p.1 && label_in_range n p.2) eqn:Hin.
    + rewrite (sum_over_indicator_in_range _ _ _ Hin).
      destruct (keep (Z.to_nat p.1) (Z.to_nat p.2)); cbn [andb].
      * rewrite decide_True by done. simpl length. lia.
      * rewrite decide_False by done. lia.
    + rewrite (sum_over_indicator_out_of_range _ _ _ Hin). cbn [andb].
      rewrite decide_False by done. lia.
Qed.

Lemma sum_where_count n keep y_true y_pred m :
  (∀ i j, (i < n)%nat → (j < n)%nat →
     entry m i j = count_pairs y_true y_pred (Z.of_nat i) (Z.of_nat j)) →
  sum_where n keep m
  = count_cells (fun t p => label_in_range n t && label_in_range n p
                            && keep (Z.to_nat t) (Z.to_nat p)) y_true y_pred.
Proof.
  intros He. unfold sum_where, count_cells. rewrite <- sum_pairs_count.
  apply sum_over_ext. intros i Hi. apply sum_over_ext. intros j Hj.
  destruct (keep i j); [|done]. by rewrite He.
Qed.

Lemma sum_diagonal_sum_where n m :
  sum_over n (fun i => entry m i i) = sum_where n (fun i j => (i =? j)%nat) m.
Proof.
  unfold sum_where. apply sum_over_ext. intros i Hi.
  rewrite <- (sum_over_point n i (entry m i i) Hi) at 1.
  apply sum_over_ext. intros j Hj.
  destruct (i =? j)%nat eqn:Hij.
  - apply Nat.eqb_eq in Hij as ->. by rewrite decide_True.
  - apply Nat.eqb_neq in Hij. by rewrite decide_False by done.
Qed.

Lemma count_cells_ext f g y_true y_pred :
  (∀ t p, t ∈ y_true → p ∈ y_pred → f t p = g t p) →
  count_cells f y_true y_pred = count_cells g y_true y_pred.
Proof.
  intros Hfg. unfold count_cells. f_equal. f_equal.
  apply filter_ext_elem. intros [t p] Hin. simpl.
  rewrite Hfg; [done|..].
  - apply elem_of_zip_l in Hin. done.
  - apply elem_of_zip_r in Hin. done.
Qed.

Lemma count_cells_nonneg f y_true y_pred : 0 <= count_cells f y_true y_pred.
Proof. unfold count_cells. lia. Qed.

Lemma count_cells_split f g y_true y_pred :
  count_cells f y_true y_pred
  = count_cells (fun t p => f t p && g t p) y_true y_pred
    + count_cells (fun t p => f t p && negb (g t p)) y_true y_pred.
Proof.
  unfold count_cells. induction (zip y_true y_pred) as [|[t p] ps IH]; [done|].
  rewrite !filter_cons. simpl.
  destruct (f t p), (g t p); simpl;
    repeat (rewrite decide_True by done); repeat (rewrite decide_False by done);
    simpl length; lia.
Qed.

Lemma count_pairs_count_cells y_true y_pred i j :
  count_pairs y_true y_pred i j
  = count_cells (fun t p => (t =? i) && (p =? j)) y_true y_pred.
Proof.
  unfold count_pairs, count_cells. f_equal. f_equal.
  apply filter_ext_elem. intros [t p] _. simpl. split.
  - intros [= -> ->]. by rewrite !Z.eqb_refl.
  - intros [Ht Hp]%andb_true_iff. apply Z.eqb_eq in Ht, Hp. by subst.
Qed.

(** The four counts read off the confusion matrix, as counts of cells. *)
Lemma confusion_counts_count y_true y_pred n m :
  confusion_matrix y_true y_pred n = Ok m →
  confusion_counts m =
    (count_cells is_tn y_true y_pred,
     count_cells (fun t p => label_in_range n t && label_in_range n p && is_tp t p)
       y_true y_pred,
     count_cells (fun t p => label_in_range n t && label_in_range n p && is_fn t p)
       y_true y_pred,
     count_cells (fun t p => label_in_range n t && label_in_range n p && is_fp t p)
       y_true y_pred).
Proof.
  intros Hm. apply confusion_matrix_Ok in Hm as (Hn & Hsq & He).
  rewrite (confusion_counts_sums n m Hsq).
  rewrite sum_diagonal_sum_where.
  rewrite !(sum_where_count n _ y_true y_pred m He).
  rewrite (He 0%nat 0%nat) by lia. change (Z.of_nat 0) with 0.
  rewrite count_pairs_count_cells.
  assert (∀ t, label_in_range n t = true → 0 <= t) as Hr.
  { intros t [Ht _]%andb_true_iff. by apply Z.leb_le. }
  f_equal; [f_equal; [f_equal|]|].
  - rewrite (count_cells_split
               (fun t p => label_in_range n t && label_in_range n p
                           && (Z.to_nat t =? Z.to_nat p)%nat)
               (fun t _ => 0 <? t)).
    match goal with |- ?a + ?b - ?c = ?d => assert (a = d ∧ b = c) as [-> ->]; [|lia] end.
    split; apply count_cells_ext; intros t p _ _; unfold is_tp, is_tn.
    + destruct (label_in_range n t) eqn:Ht; [|done].
      destruct (label_in_range n p) eqn:Hp; [|done]. cbn [andb].
      apply Hr in Ht, Hp.
      destruct (Z.to_nat t =? Z.to_nat p)%nat eqn:E.
      * apply Nat.eqb_eq in E. assert (t = p) as -> by lia. by rewrite Z.eqb_refl.
      * apply Nat.eqb_neq in E. assert (t ≠ p) as Hne by congruence.
        apply Z.eqb_neq in Hne. by rewrite Hne.
    + destruct (t =? 0) eqn:Ht0.
      * apply Z.eqb_eq in Ht0 as ->.
        assert (label_in_range n 0 = true) as ->
          by (unfold label_in_range; apply andb_true_intro; split;
              [by apply Z.leb_le|apply Z.ltb_lt; lia]).
        cbn [andb]. destruct (p =? 0) eqn:Hp0.
        -- apply Z.eqb_eq in Hp0 as ->.
           assert (label_in_range n 0 = true) as ->
             by (unfold label_in_range; apply andb_true_intro; split;
                 [by apply Z.leb_le|apply Z.ltb_lt; lia]).
           done.
        -- destruct (label_in_range n p) eqn:Hp; [|done]. cbn [andb].
           apply Hr in Hp. apply Z.eqb_neq in Hp0.
           destruct (Z.to_nat 0 =? Z.to_nat p)%nat eqn:E; [|done].
           apply Nat.eqb_eq in E. lia.
      * cbn [andb]. apply Z.eqb_neq in Ht0.
        destruct (label_in_range n t) eqn:Ht; [|done].
        destruct (label_in_range n p) eqn:Hp; [|done]. cbn [andb].
        apply Hr in Ht. assert ((0 <? t) = true) as -> by (apply Z.ltb_lt; lia).
        cbn [negb]. by rewrite andb_false_r.
  - apply count_cells_ext; intros t p _ _. unfold is_fn.
    destruct (label_in_range n t) eqn:Ht; [|done].
    destruct (label_in_range n p) eqn:Hp; [|done]. cbn [andb].
    apply Hr in Ht, Hp.
    destruct (p <? t) eqn:E.
    + apply Z.ltb_lt in E. apply Nat.ltb_lt. lia.
    + apply Z.ltb_ge in E. apply Nat.ltb_ge. lia.
  - apply count_cells_ext; intros t p _ _. unfold is_fp.
    destruct (label_in_range n t) eqn:Ht; [|done].
    destruct (label_in_range n p) eqn:Hp; [|done]. cbn [andb].
    apply Hr in Ht, Hp.
    destruct (t <? p) eqn:E.
    + apply Z.ltb_lt in E. apply Nat.ltb_lt. lia.
    + apply Z.ltb_ge in E. apply Nat.ltb_ge. lia.
Qed.

Lemma label_in_range_true n x : 0 <= x < Z.of_nat n → label_in_range n x = true.
Proof.
  intros. unfold label_in_range. apply andb_true_intro.
  split; [apply Z.leb_le|apply Z.ltb_lt]; lia.
Qed.

Lemma count_cells_cons f t p l l' :
  count_cells f (t :: l) (p :: l') = (if f t p then 1 else 0) + count_cells f l l'.
Proof.
  unfold count_cells. simpl zip. rewrite filter_cons. simpl.
  destruct (f t p).
  - rewrite decide_True by done. simpl length. lia.
  - rewrite decide_False by done. lia.
Qed.

Lemma count_cells_nil_l f l' : count_cells f [] l' = 0.
Proof. done. Qed.

Lemma count_cells_nil_r f l : count_cells f l [] = 0.
Proof. by destruct l. Qed.

(** X9.  With all labels among [range(n)], the four numbers read off the
    confusion matrix count cells: tn the cells that are background in both
    grids, tp the cells where both grids hold the same object class, fn the
    cells whose predicted class index is below the true one and fp the cells
    whose predicted class index is above it (so a wrong object class counts
    as fn or fp by the order of the class indices).  The four counts add up
    to the number of cells. *)
Theorem confusion_counts_are_cell_counts y_true y_pred n m :
  Forall (fun y => 0 <= y < Z.of_nat n) y_true →
  Forall (fun y => 0 <= y < Z.of_nat n) y_pred →
  length y_true = length y_pred →
  confusion_matrix y_true y_pred n = Ok m →
  confusion_counts m =
    (count_cells is_tn y_true y_pred, count_cells is_tp y_true y_pred,
     count_cells is_fn y_true y_pred, count_cells is_fp y_true y_pred) ∧
  count_cells is_tn y_true y_pred + count_cells is_tp y_true y_pred
  + count_cells is_fn y_true y_pred + count_cells is_fp y_true y_pred
  = Z.of_nat (length y_true).
Proof.
  intros Ht Hp Hlen Hm. split.
  - rewrite (confusion_counts_count _ _ _ _ Hm).
    assert (∀ f, count_cells
              (fun t p => label_in_range n t && label_in_range n p && f t p)
              y_true y_pred = count_cells f y_true y_pred) as Hdrop.
    { intros f. apply count_cells_ext. intros t p Hint Hinp.
      rewrite !label_in_range_true; [done|..].
      - by apply (proj1 (Forall_forall _ _) Hp).
      - by apply (proj1 (Forall_forall _ _) Ht). }
    by rewrite !Hdrop.
  - clear Hm. revert y_pred Hp Hlen.
    induction Ht as [|t l Ht0 Ht IH]; intros [|p l'] Hp Hlen; try done.
    apply Forall_cons in Hp as [Hp0 Hp]. injection Hlen as Hlen.
    rewrite !count_cells_cons. specialize (IH l' Hp Hlen).
    assert ((if is_tn t p then 1 else 0) + (if is_tp t p then 1 else 0)
            + (if is_fn t p then 1 else 0) + (if is_fp t p then 1 else 0) = 1).
    { unfold is_tn, is_tp, is_fn, is_fp.
      destruct (t =? 0) eqn:E1; destruct (p =? 0) eqn:E2;
        destruct (t =? p) eqn:E3; destruct (0 <? t) eqn:E4;
        destruct (p <? t) eqn:E5; destruct (t <? p) eqn:E6; simpl;
        try reflexivity;
        repeat match goal with
        | H : (_ =? _) = true |- _ => apply Z.eqb_eq in H
        | H : (_ =? _) = false |- _ => apply Z.eqb_neq in H
        | H : (_ <? _) = true |- _ => apply Z.ltb_lt in H
        | H : (_ <? _) = false |- _ => apply Z.ltb_ge in H
        end; lia. }
    simpl length. lia.
Qed.

(** Grids of class indices flattened: a true object of class 2 predicted
    as class 1, an exact hit, a missed object, a false alarm and a
    background cell. *)
Lemma confusion_counts_are_cell_counts_witness :
  ∃ m, confusion_matrix [2; 1; 1; 0; 0] [1; 1; 0; 2; 0] 3 = Ok m ∧
       confusion_counts m = (1, 1, 2, 1) ∧
       confusion_counts m =
         (count_cells is_tn [2; 1; 1; 0; 0] [1; 1; 0; 2; 0],
          count_cells is_tp [2; 1; 1; 0; 0] [1; 1; 0; 2; 0],
          count_cells is_fn [2; 1; 1; 0; 0] [1; 1; 0; 2; 0],
          count_cells is_fp [2; 1; 1; 0; 0] [1; 1; 0; 2; 0]) ∧
       count_cells is_tn [2; 1; 1; 0; 0] [1; 1; 0; 2; 0]
       + count_cells is_tp [2; 1; 1; 0; 0] [1; 1; 0; 2; 0]
       + count_cells is_fn [2; 1; 1; 0; 0] [1; 1; 0; 2; 0]
       + count_cells is_fp [2; 1; 1; 0; 0] [1; 1; 0; 2; 0]
       = Z.of_nat (length [2; 1; 1; 0; 0]).
Proof.
  eexists. split; [vm_compute; reflexivity|]. split; [vm_compute; reflexivity|].
  apply (confusion_counts_are_cell_counts [2; 1; 1; 0; 0] [1; 1; 0; 2; 0] 3).
  - repeat constructor; lia.
  - repeat constructor; lia.
  - reflexivity.
  - vm_compute. reflexivity.
Defined.

(** ** The three scores *)

Lemma inject_Z_nonneg z : 0 <= z → (0 <= inject_Z z)%Q.
Proof. intros. change 0%Q with (inject_Z 0). by rewrite <- Zle_Qle. Qed.

Lemma ratio_in_unit_interval (a b : Q) :
  (0 <= a)%Q → (0 <= b)%Q → (0 <= a / (a + b) <= 1)%Q.
Proof.
  intros Ha Hb. destruct (Qlt_le_dec 0 (a + b)) as [Hpos|Hzero].
  - split.
    + apply Qle_shift_div_l; [done|]. Lqa.lra.
    + apply Qle_shift_div_r; [done|]. Lqa.lra.
  - assert (a + b == 0)%Q as -> by Lqa.lra.
    unfold Qdiv. change (/ 0)%Q with 0%Q. rewrite Qmult_0_r. split; discriminate.
Qed.

Lemma ratio_monotone (a b a' b' : Q) :
  (0 <= a)%Q → (a <= a')%Q → (0 <= b')%Q → (b' <= b)%Q →
  (a / (a + b) <= a' / (a' + b'))%Q.
Proof.
  intros Ha Haa Hb Hbb. destruct (Qlt_le_dec 0 a) as [Hpos|Hzero].
  - apply Qle_shift_div_r; [Lqa.lra|].
    assert (a' / (a' + b') * (a + b) == (a' * (a + b)) / (a' + b'))%Q as ->
      by (field; Lqa.lra).
    apply Qle_shift_div_l; [Lqa.lra|]. Lqa.nra.
  - assert (a == 0)%Q as -> by Lqa.lra.
    unfold Qdiv at 1. rewrite Qmult_0_l.
    apply ratio_in_unit_interval; Lqa.lra.
Qed.

Lemma harmonic_closed_form (a b c d1 d2 : Q) :
  (0 <= a)%Q → (0 <= b)%Q → (0 <= c)%Q →
  (d1 == a + b)%Q → (d2 == a + c)%Q → ¬ (d1 == 0)%Q → ¬ (d2 == 0)%Q →
  ((if Qeq_bool (a / d1 + a / d2) 0 then 0
    else 2 * (a / d1 * (a / d2)) / (a / d1 + a / d2))
   == 2 * a / (2 * a + b + c))%Q.
Proof.
  intros Ha Hb Hc Hd1 Hd2 Hn1 Hn2.
  assert (0 < d1)%Q as Hp1 by (apply Qnot_le_lt; intros ?; apply Hn1; Lqa.lra).
  assert (0 < d2)%Q as Hp2 by (apply Qnot_le_lt; intros ?; apply Hn2; Lqa.lra).
  destruct (Qlt_le_dec 0 a) as [Hpos|Hzero].
  - assert (0 < a / d1)%Q as Hq1 by (apply Qlt_shift_div_l; [done|]; Lqa.lra).
    assert (0 < a / d2)%Q as Hq2 by (apply Qlt_shift_div_l; [done|]; Lqa.lra).
    destruct (Qeq_bool (a / d1 + a / d2) 0) eqn:E.
    + apply Qeq_bool_eq in E. Lqa.lra.
    + rewrite Hd1, Hd2. field. split_and!; intros Heq; Lqa.nra.
  - assert (a == 0)%Q as Ha0 by Lqa.lra.
    assert (a / d1 + a / d2 == 0)%Q as Hsum
      by (rewrite Ha0; unfold Qdiv; ring).
    apply Qeq_bool_iff in Hsum. rewrite Hsum.
    rewrite Ha0. unfold Qdiv. ring.
Qed.

(** The scores in closed form; a quotient by zero stands for 0, as in
    [Q]. *)
Lemma scores_closed_form m tn tp fn fp p r f1 :
  confusion_counts m = (tn, tp, fn, fp) → 0 <= tp → 0 <= fn → 0 <= fp →
  scores m = Ok (p, r, f1) →
  (p == inject_Z tp / (inject_Z tp + inject_Z fp))%Q ∧
  (r == inject_Z tp / (inject_Z tp + inject_Z fn))%Q ∧
  (f1 == 2 * inject_Z tp / (2 * inject_Z tp + inject_Z fp + inject_Z fn))%Q.
Proof.
  intros Hcounts Htp Hfn Hfp Hs.
  pose proof (scores_of_counts m) as Hform. rewrite Hcounts in Hform.
  rewrite Hform in Hs. clear Hform.
  pose proof (inject_Z_nonneg _ Htp) as Ha.
  pose proof (inject_Z_nonneg _ Hfn) as Hc.
  pose proof (inject_Z_nonneg _ Hfp) as Hb.
  destruct ((tp + fp =? 0) || (tp + fn =? 0)) eqn:Hguard.
  - injection Hs as <- <- <-.
    assert (tp = 0) as ->.
    { apply orb_true_iff in Hguard as [E|E]; apply Z.eqb_eq in E; lia. }
    change (inject_Z 0) with 0%Q. unfold Qdiv. split_and!; ring.
  - apply orb_false_iff in Hguard as [E1 E2].
    apply Z.eqb_neq in E1, E2. cbv zeta in Hs. injection Hs as <- <- <-.
    split_and!.
    + by rewrite inject_Z_plus.
    + by rewrite inject_Z_plus.
    + rewrite <- Qplus_assoc.
      rewrite (harmonic_closed_form (inject_Z tp) (inject_Z fp) (inject_Z fn)
                 (inject_Z (tp + fp)) (inject_Z (tp + fn)));
        [|done|done|done|by rewrite inject_Z_plus|by rewrite inject_Z_plus
         |by apply inject_Z_nonzero|by apply inject_Z_nonzero].
      by rewrite Qplus_assoc.
Qed.

Lemma confusion_counts_nonneg y_true y_pred n m tn tp fn fp :
  confusion_matrix y_true y_pred n = Ok m →
  confusion_counts m = (tn, tp, fn, fp) →
  0 <= tn ∧ 0 <= tp ∧ 0 <= fn ∧ 0 <= fp.
Proof.
  intros Hm Hc. rewrite (confusion_counts_count _ _ _ _ Hm) in Hc.
  injection Hc as <- <- <- <-. split_and!; apply count_cells_nonneg.
Qed.

Lemma get_pricsion_recall_f1_Ok_inv self preds target res :
  get_pricsion_recall_f1 self preds target = Ok res →
  ∃ tm pm tm' pm' m,
    argmax_last target = Ok tm ∧ argmax_last (softmax_last preds) = Ok pm ∧
    tolerant_matching pm tm = Ok (pm', tm') ∧
    confusion_matrix (flatten3 tm') (flatten3 pm') (num_classes self + 1) = Ok m ∧
    scores m = Ok res.
Proof.
  unfold get_pricsion_recall_f1, precision_recall_f1_of, num_attrib. intros Hrun.
  apply bind_Ok in Hrun as (tm & Htm & Hrun).
  apply bind_Ok in Hrun as (pm & Hpm & Hrun).
  apply bind_Ok in Hrun as ([pm' tm'] & Hmatch & Hrun).
  apply bind_Ok in Hrun as (m & Hm & Hrun).
  by exists tm, pm, tm', pm', m.
Qed.

(** X10.  Whenever [get_pricsion_recall_f1] returns, each of the three
    scores lies between 0 and 1. *)
Theorem scores_in_unit_interval self preds target p r f1 :
  get_pricsion_recall_f1 self preds target = Ok (p, r, f1) →
  (0 <= p <= 1)%Q ∧ (0 <= r <= 1)%Q ∧ (0 <= f1 <= 1)%Q.
Proof.
  intros (tm & pm & tm' & pm' & m & _ & _ & _ & Hm & Hs)%get_pricsion_recall_f1_Ok_inv.
  destruct (confusion_counts m) as [[[tn tp] fn] fp] eqn:Hc.
  destruct (confusion_counts_nonneg _ _ _ _ _ _ _ _ Hm Hc) as (_ & Htp & Hfn & Hfp).
  destruct (scores_closed_form _ _ _ _ _ _ _ _ Hc Htp Hfn Hfp Hs) as (-> & -> & ->).
  pose proof (inject_Z_nonneg _ Htp) as Ha.
  pose proof (inject_Z_nonneg _ Hfn) as Hcn.
  pose proof (inject_Z_nonneg _ Hfp) as Hb.
  split_and!; try (apply ratio_in_unit_interval; Lqa.lra).
  - rewrite <- Qplus_assoc. apply ratio_in_unit_interval; Lqa.lra.
  - rewrite <- Qplus_assoc. apply ratio_in_unit_interval; Lqa.lra.
Qed.

Lemma scores_in_unit_interval_witness :
  (0 <= 1 <= 1)%Q ∧ (0 <= 1 # 2 <= 1)%Q ∧ (0 <= 4 # 6 <= 1)%Q.
Proof.
  apply (scores_in_unit_interval head3
           (of_Z4 (one_hot_grid 1 12 12 4 (0, 5, 6)%nat 3))
           (of_Z4 (one_hot_grid 1 12 12 4 (0, 5, 5)%nat 3))).
  rewrite get_pricsion_recall_f1_of_Z. vm_compute. reflexivity.
Defined.

(** X11.  F1 in closed form: when neither denominator is zero, the value
    returned as F1 equals 2 tp / (2 tp + fp + fn) and the other two are
    tp / (tp + fp) and tp / (tp + fn); this includes the case tp = 0, where
    the code takes the branch [p + r == 0]. *)
Theorem f1_closed_form y_true y_pred n m tn tp fn fp p r f1 :
  confusion_matrix y_true y_pred n = Ok m →
  confusion_counts m = (tn, tp, fn, fp) →
  tp + fp ≠ 0 → tp + fn ≠ 0 →
  scores m = Ok (p, r, f1) →
  (p == inject_Z tp / inject_Z (tp + fp))%Q ∧
  (r == inject_Z tp / inject_Z (tp + fn))%Q ∧
  (f1 == inject_Z (2 * tp) / inject_Z (2 * tp + fp + fn))%Q.
Proof.
  intros Hm Hc _ _ Hs.
  destruct (confusion_counts_nonneg _ _ _ _ _ _ _ _ Hm Hc) as (_ & Htp & Hfn & Hfp).
  destruct (scores_closed_form _ _ _ _ _ _ _ _ Hc Htp Hfn Hfp Hs) as (-> & -> & ->).
  rewrite !inject_Z_plus, inject_Z_mult. done.
Qed.

Lemma f1_closed_form_witness :
  ∃ m p r f1,
    confusion_matrix [2; 1; 1; 0; 0] [1; 1; 0; 2; 0] 3 = Ok m ∧
    scores m = Ok (p, r, f1) ∧
    (p == inject_Z 1 / inject_Z (1 + 1))%Q ∧
    (r == inject_Z 1 / inject_Z (1 + 2))%Q ∧
    (f1 == inject_Z (2 * 1) / inject_Z (2 * 1 + 1 + 2))%Q.
Proof.
  eexists _, _, _, _. split; [vm_compute; reflexivity|].
  split; [vm_compute; reflexivity|].
  eapply (f1_closed_form [2; 1; 1; 0; 0] [1; 1; 0; 2; 0] 3 _ 1 1 2 1).
  - vm_compute. reflexivity.
  - vm_compute. reflexivity.
  - lia.
  - lia.
  - vm_compute. reflexivity.
Defined.

(** * Grids without objects *)

Lemma where_positive_nil (t : tensor3 Z) :
  (∀ q v, cell_at t q = Some v → v <= 0) → where_positive t = [].
Proof.
  intros Hall. destruct (where_positive t) as [|p l] eqn:E; [done|].
  assert (p ∈ where_positive t) as Hp by (rewrite E; apply list_elem_of_here).
  apply where_positive_elem in Hp as (b & h & w & v & _ & Hv & Hpos).
  specialize (Hall _ _ Hv). lia.
Qed.

Lemma tolerant_matching_no_target pm tm :
  where_positive tm = [] → tolerant_matching pm tm = Ok (pm, tm).
Proof. intros E. unfold tolerant_matching. by rewrite E. Qed.

Lemma tolerant_matching_no_preds pm tm :
  where_positive pm = [] → tolerant_matching pm tm = Ok (pm, tm).
Proof.
  intros E. unfold tolerant_matching. rewrite E.
  apply for_each_fixed. intros ti _. unfold match_target.
  apply for_each_fixed. intros po _. unfold match_site.
  by destruct (any_lt (add3 ti po) 0 || any_gt (add3 ti po) 11).
Qed.

Lemma count_cells_false f y_true y_pred :
  (∀ t p, t ∈ y_true → p ∈ y_pred → f t p = false) →
  count_cells f y_true y_pred = 0.
Proof.
  intros Hf. rewrite (count_cells_ext f (fun _ _ => false)) by done.
  unfold count_cells. induction (zip y_true y_pred) as [|x l IH]; [done|].
  rewrite filter_cons. by rewrite decide_False by done.
Qed.

Lemma label_in_range_nonneg n x : label_in_range n x = true → 0 <= x < Z.of_nat n.
Proof.
  intros [H1 H2]%andb_true_iff. apply Z.leb_le in H1. apply Z.ltb_lt in H2. lia.
Qed.

Lemma scores_no_object y_true y_pred n m :
  confusion_matrix y_true y_pred n = Ok m →
  Forall (fun t => t = 0) y_true ∨ Forall (fun p => p = 0) y_pred →
  scores m = Ok (0%Q, 0%Q, 0%Q).
Proof.
  intros Hm Hzero.
  pose proof (scores_of_counts m) as Hs.
  rewrite (confusion_counts_count _ _ _ _ Hm) in Hs.
  assert (count_cells
            (fun t p => label_in_range n t && label_in_range n p && is_tp t p)
            y_true y_pred = 0) as Htp.
  { apply count_cells_false. intros t p Ht Hp. unfold is_tp.
    destruct (label_in_range n t) eqn:Et; [|done].
    destruct (label_in_range n p) eqn:Ep; [|done]. cbn [andb].
    destruct (t =? p) eqn:E; [|done]. apply Z.eqb_eq in E. subst p. cbn [andb].
    apply Z.ltb_ge.
    assert (t = 0) as ->; [|done].
    destruct Hzero as [Hz|Hz]; by apply (proj1 (Forall_forall _ _) Hz). }
  rewrite Htp in Hs. destruct Hzero as [Hz|Hz].
  - assert (count_cells
              (fun t p => label_in_range n t && label_in_range n p && is_fn t p)
              y_true y_pred = 0) as Hfn.
    { apply count_cells_false. intros t p Ht Hp. unfold is_fn.
      rewrite (proj1 (Forall_forall _ _) Hz t Ht).
      destruct (label_in_range n 0); [|done].
      destruct (label_in_range n p) eqn:Ep; [|done]. cbn [andb].
      apply label_in_range_nonneg in Ep. apply Z.ltb_ge. lia. }
    rewrite Hfn in Hs. rewrite Hs.
    by rewrite orb_true_r.
  - assert (count_cells
              (fun t p => label_in_range n t && label_in_range n p && is_fp t p)
              y_true y_pred = 0) as Hfp.
    { apply count_cells_false. intros t p Ht Hp. unfold is_fp.
      rewrite (proj1 (Forall_forall _ _) Hz p Hp).
      destruct (label_in_range n t) eqn:Et; [|done].
      destruct (label_in_range n 0); [|done]. cbn [andb].
      apply label_in_range_nonneg in Et. apply Z.ltb_ge. lia. }
    rewrite Hfp in Hs. rewrite Hs. done.
Qed.

Lemma flatten3_Forall {A : Type} (P : A → Prop) (t : tensor3 A) :
  (∀ q v, cell_at t q = Some v → P v) → Forall P (flatten3 t).
Proof.
  intros Hall. apply Forall_forall. intros v [q Hq]%flatten3_elem. by eapply Hall.
Qed.

(** X12.  For predictions and targets on the same grid: when the target
    grid holds no object, or the predicted grid holds none,
    [get_pricsion_recall_f1] returns (0, 0, 0) on a grid of any size: the
    traversal has nothing to visit (or nothing to match), so the hard-coded
    bound of 11 is never an index. *)
Theorem no_object_scores_zero self preds target B H W C tm pm :
  has_shape4 B H W C preds →
  has_shape4 B H W (num_classes self + 1) target →
  argmax_last target = Ok tm →
  argmax_last (softmax_last preds) = Ok pm →
  (∀ q v, cell_at tm q = Some v → v = 0) ∨ (∀ q v, cell_at pm q = Some v → v = 0) →
  get_pricsion_recall_f1 self preds target = Ok (0%Q, 0%Q, 0%Q).
Proof.
  intros _ Hs Htm Hpm Hzero.
  destruct (argmax_last_cells _ _ _ _ _ _ Hs Htm) as [Hs3 Hrange].
  assert (tolerant_matching pm tm = Ok (pm, tm)) as Hmatch.
  { destruct Hzero as [Hz|Hz].
    - apply tolerant_matching_no_target, where_positive_nil.
      intros q v Hq. rewrite (Hz _ _ Hq). lia.
    - apply tolerant_matching_no_preds, where_positive_nil.
      intros q v Hq. rewrite (Hz _ _ Hq). lia. }
  destruct (confusion_matrix_labels_in_range (flatten3 tm) (flatten3 pm)
              (num_classes self + 1)) as [m Hm]; [lia| |].
  { apply flatten3_Forall. intros q v Hq. by eapply Hrange. }
  unfold get_pricsion_recall_f1, precision_recall_f1_of, num_attrib.
  rewrite Htm, Hpm. cbn [mbind result_bind].
  rewrite Hmatch. cbn [mbind result_bind]. rewrite Hm. cbn [mbind result_bind].
  apply (scores_no_object _ _ _ _ Hm).
  destruct Hzero as [Hz|Hz]; [left|right]; by apply flatten3_Forall.
Qed.

(** A 2 by 2 grid: one predicted object, no true object. *)
Lemma no_object_scores_zero_witness :
  get_pricsion_recall_f1 head3
    (of_Z4 (one_hot_grid 1 2 2 4 (0, 1, 1)%nat 3))
    (of_Z4 (background_grid 1 2 2 4)) = Ok (0%Q, 0%Q, 0%Q).
Proof.
  apply (no_object_scores_zero head3 _ _ 1 2 2 4
           (replicate 1 (replicate 2 (replicate 2 0)))
           (class_grid 1 2 2 (0, 1, 1)%nat 3)).
  - decide_shape.
  - decide_shape.
  - rewrite argmax_last_of_Z. vm_compute. reflexivity.
  - rewrite argmax_last_softmax, argmax_last_of_Z. vm_compute. reflexivity.
  - left. intros q v Hq. by apply cell_at_replicate in Hq.
Defined.

(** * The exceptions of the metric *)

Lemma getitem3_Ok_cell {A : Type} (t : tensor3 A) idx x :
  getitem3 t idx = Ok x → ∃ q, cell_at t q = Some x.
Proof.
  destruct idx as [[b h] w]. unfold getitem3. intros Hget.
  apply bind_Ok in Hget as (img & Himg & Hget).
  apply bind_Ok in Hget as (row & Hrow & Hget).
  apply getitem_Ok in Himg as (kb & _ & Himg).
  apply getitem_Ok in Hrow as (kh & _ & Hrow).
  apply getitem_Ok in Hget as (kw & _ & Hget).
  exists (kb, kh, kw). apply cell_at_Some. eauto.
Qed.

(** The traversal writes only values that the grid of true classes already
    holds. *)
Lemma tolerant_matching_values B H W (P : Z → Prop) pm tm st' :
  has_shape3 B H W tm → (∀ q v, cell_at tm q = Some v → P v) →
  tolerant_matching pm tm = Ok st' →
  has_shape3 B H W st'.2 ∧ ∀ q v, cell_at st'.2 q = Some v → P v.
Proof.
  intros Hs HP Hrun. unfold tolerant_matching in Hrun.
  pose (Inv := fun st : tensor3 Z * tensor3 Z =>
    has_shape3 B H W st.2 ∧ ∀ q v, cell_at st.2 q = Some v → P v).
  apply (for_each_preserves _ Inv _ _ _) in Hrun; [done| |done].
  intros st ti st1 _ Hst Hrun1. unfold match_target in Hrun1.
  apply (for_each_preserves _ Inv _ _ _) in Hrun1; [done| |done].
  clear. intros [pm1 tm1] po st2 _ [Hs1 HP1] Hpo. simpl in *.
  apply match_site_Ok_inv in Hpo
    as [->|(t & tm' & _ & _ & _ & Ht & Hset & ->)]; [done|].
  destruct (add3 ti po) as [[sb sh] sw].
  destruct (setitem3_cells _ _ _ _ _ _ _ _ _ Hs1 Hset)
    as (nb & nh & nw & x & _ & _ & _ & _ & Hs' & Hc').
  split; [done|]. simpl. intros q v Hq.
  pose proof (Hc' q) as E. case_decide.
  - apply getitem3_Ok_cell in Ht as [q' Hq']. apply (HP1 q'). congruence.
  - apply (HP1 q). congruence.
Qed.

Lemma metric_index_error_only self preds target B H W :
  has_shape4 B H W (num_classes self + 1) target →
  raises_only [IndexError] (get_pricsion_recall_f1 self preds target).
Proof.
  intros Hs. unfold get_pricsion_recall_f1.
  apply raises_only_bind; [apply raises_only_argmax_last, list_elem_of_here|].
  intros tm Htm.
  apply raises_only_bind; [apply raises_only_argmax_last, list_elem_of_here|].
  intros pm Hpm. unfold precision_recall_f1_of.
  apply raises_only_bind; [apply raises_only_tolerant_matching, list_elem_of_here|].
  intros [pm' tm'] Hmatch.
  destruct (argmax_last_cells _ _ _ _ _ _ Hs Htm) as [Hs3 Hrange].
  destruct (tolerant_matching_values B H W
              (fun v => 0 <= v < Z.of_nat (num_classes self + 1))
              _ _ _ Hs3 Hrange Hmatch) as [_ Hrange'].
  simpl in Hrange'.
  destruct (confusion_matrix_labels_in_range (flatten3 tm') (flatten3 pm')
              (num_attrib self)) as [m Hm]; [unfold num_attrib; lia| |].
  { apply flatten3_Forall. intros q v Hq. unfold num_attrib. by eapply Hrange'. }
  rewrite Hm. cbn [mbind result_bind]. apply raises_only_scores.
Qed.

(** X13.  For predictions on the grid of a target with [num_classes + 1]
    channels, the only exception [get_pricsion_recall_f1] can raise is
    IndexError (from a site that passes the bound of 11 but lies outside
    the grid): the confusion matrix always finds a true label among its
    labels. *)
Theorem metric_raises_only_index_error self preds target B H W C :
  has_shape4 B H W C preds →
  has_shape4 B H W (num_classes self + 1) target →
  raises_only [IndexError] (get_pricsion_recall_f1 self preds target).
Proof. intros _. apply metric_index_error_only. Qed.

(** On a grid of 6 rows the exception is raised: the site below the true
    object passes the bound. *)
Lemma metric_raises_only_index_error_witness :
  get_pricsion_recall_f1 head3
    (of_Z4 (one_hot_grid 1 6 7 4 (0, 5, 6)%nat 3))
    (of_Z4 (one_hot_grid 1 6 7 4 (0, 5, 5)%nat 3)) = Raise IndexError ∧
  raises_only [IndexError]
    (get_pricsion_recall_f1 head3
       (of_Z4 (one_hot_grid 1 6 7 4 (0, 5, 6)%nat 3))
       (of_Z4 (one_hot_grid 1 6 7 4 (0, 5, 5)%nat 3))).
Proof.
  split.
  - rewrite get_pricsion_recall_f1_of_Z. vm_compute. reflexivity.
  - apply (metric_raises_only_index_error head3 _ _ 1 6 7 4); decide_shape.
Defined.

(** * The tolerance never lowers a score *)

Lemma flat_index_decode B H W k :
  (k < B * H * W)%nat →
  ∃ b h w, (b < B)%nat ∧ (h < H)%nat ∧ (w < W)%nat ∧ k = flat_index H W (b, h, w).
Proof.
  intros Hk.
  assert (0 < W)%nat as HW by (destruct W; lia).
  assert (0 < H)%nat as HH by (destruct H; lia).
  exists (k / W / H)%nat, ((k / W) mod H)%nat, (k mod W)%nat.
  pose proof (Nat.div_mod_eq k W) as E1.
  pose proof (Nat.div_mod_eq (k / W) H) as E2.
  pose proof (Nat.mod_upper_bound k W ltac:(lia)).
  pose proof (Nat.mod_upper_bound (k / W) H ltac:(lia)).
  split_and!; [|done..|].
  - apply Nat.Div0.div_lt_upper_bound. apply Nat.Div0.div_lt_upper_bound. lia.
  - unfold flat_index. simpl. lia.
Qed.

Lemma flatten3_lookup {A : Type} B H W (t : list (list (list A))) b h w :
  has_shape3 B H W t → (b < B)%nat → (h < H)%nat → (w < W)%nat →
  flatten3 t !! flat_index H W (b, h, w) = cell_at t (b, h, w).
Proof.
  intros [Hl Hall] Hb Hh Hw. unfold flatten3, flat_index, cell_at. simpl.
  destruct (lookup_lt_Some_ex t b) as [img Himg]; [lia|].
  pose proof (Forall_lookup_1 _ _ _ _ Hall Himg) as [Hli Hrows]. simpl in *.
  destruct (lookup_lt_Some_ex img h) as [row Hrow]; [lia|].
  rewrite Himg. simpl. rewrite Hrow. simpl.
  apply (join_lookup_uniform W).
  - by apply (join_uniform_length H).
  - rewrite <- Hrow. apply (join_lookup_uniform H); [|done..].
    eapply Forall_impl; [exact Hall|]. by intros ? [? _].
  - done.
Qed.

Lemma count_cells_mono f g l l' p :
  length l = length l' →
  (∀ k x x' y, l !! k = Some x → l' !! k = Some x' → p !! k = Some y →
     f x y = true → g x' y = true) →
  count_cells f l p <= count_cells g l' p.
Proof.
  revert l' p. induction l as [|x l IH]; intros [|x' l'] [|y p] Hlen Hpt;
    try discriminate; rewrite ?count_cells_nil_l, ?count_cells_nil_r; try lia.
  rewrite !count_cells_cons. injection Hlen as Hlen.
  specialize (IH l' p Hlen (fun k => Hpt (S k))).
  specialize (Hpt 0%nat x x' y eq_refl eq_refl eq_refl).
  destruct (f x y); [rewrite Hpt by done|destruct (g x' y)]; lia.
Qed.

(** The cell-wise relation between the grids of true classes before and
    after the traversal, on the flattened grids. *)
Lemma matching_invariant_flat B H W pm tm tm' k x x' y :
  has_shape3 B H W pm → has_shape3 B H W tm →
  matching_invariant B H W pm tm (pm, tm') →
  flatten3 tm !! k = Some x → flatten3 tm' !! k = Some x' →
  flatten3 pm !! k = Some y →
  x' = x ∨ (x' = y ∧ 0 < y).
Proof.
  intros Hsp Hst (_ & Hst' & Hcells) Hx Hx' Hy. simpl in *.
  assert (k < B * H * W)%nat as Hk.
  { rewrite <- (flatten3_length B H W tm Hst). by eapply lookup_lt_Some. }
  destruct (flat_index_decode B H W k Hk) as (b & h & w & Hb & Hh & Hw & ->).
  rewrite (flatten3_lookup B H W) in Hx, Hx', Hy by done.
  destruct (Hcells _ _ Hx') as [E|[E Hpos]].
  - left. congruence.
  - right. split; [congruence|]. congruence.
Qed.

Lemma inject_Z_le a b : a <= b → (inject_Z a <= inject_Z b)%Q.
Proof. intros. by rewrite <- Zle_Qle. Qed.

(** X14.  The tolerance never lowers a score: on grids of the same shape,
    each of precision, recall and F1 computed after the traversal is at
    least the one that the confusion matrix of the untouched grids gives. *)
Theorem tolerance_never_lowers_scores self B H W preds_max target_max
    p r f1 p' r' f1' :
  has_shape3 B H W preds_max → has_shape3 B H W target_max →
  precision_recall_f1_without_matching self preds_max target_max = Ok (p, r, f1) →
  precision_recall_f1_of self preds_max target_max = Ok (p', r', f1') →
  (p <= p')%Q ∧ (r <= r')%Q ∧ (f1 <= f1')%Q.
Proof.
  intros Hsp Hst Hexact Htol.
  unfold precision_recall_f1_without_matching in Hexact.
  apply bind_Ok in Hexact as (m & Hm & Hs).
  unfold precision_recall_f1_of in Htol.
  apply bind_Ok in Htol as ([pm' tm'] & Hmatch & Htol).
  apply bind_Ok in Htol as (m' & Hm' & Hs').
  pose proof (tolerant_matching_invariant _ _ _ _ _ _ Hst Hmatch) as Hinv.
  pose proof Hinv as (Hpm & Hst' & _). simpl in Hpm, Hst'. subst pm'.
  set (n := num_attrib self) in *.
  set (yt := flatten3 target_max) in *. set (yt' := flatten3 tm') in *.
  set (yp := flatten3 preds_max) in *.
  assert (length yt = length yt') as Hlen
    by (unfold yt, yt'; by rewrite !(flatten3_length B H W)).
  pose proof (confusion_counts_count _ _ _ _ Hm) as Hc.
  pose proof (confusion_counts_count _ _ _ _ Hm') as Hc'.
  set (tp := count_cells
    (fun t p => label_in_range n t && label_in_range n p && is_tp t p) yt yp) in *.
  set (fn := count_cells
    (fun t p => label_in_range n t && label_in_range n p && is_fn t p) yt yp) in *.
  set (fp := count_cells
    (fun t p => label_in_range n t && label_in_range n p && is_fp t p) yt yp) in *.
  set (tp' := count_cells
    (fun t p => label_in_range n t && label_in_range n p && is_tp t p) yt' yp) in *.
  set (fn' := count_cells
    (fun t p => label_in_range n t && label_in_range n p && is_fn t p) yt' yp) in *.
  set (fp' := count_cells
    (fun t p => label_in_range n t && label_in_range n p && is_fp t p) yt' yp) in *.
  assert (0 <= tp ∧ 0 <= fn ∧ 0 <= fp ∧ 0 <= tp' ∧ 0 <= fn' ∧ 0 <= fp')
    as (Htp & Hfn & Hfp & Htp' & Hfn' & Hfp')
    by (split_and!; apply count_cells_nonneg).
  assert (tp <= tp') as Htpm.
  { apply count_cells_mono; [done|]. intros k x x' y Hx Hx' Hy.
    destruct (matching_invariant_flat _ _ _ _ _ _ _ _ _ _ Hsp Hst Hinv Hx Hx' Hy)
      as [->|[-> Hpos]]; [done|].
    intros [[_ Hr]%andb_true_iff _]%andb_true_iff.
    rewrite Hr. cbn [andb]. unfold is_tp. rewrite Z.eqb_refl. cbn [andb].
    by apply Z.ltb_lt. }
  assert (fn' <= fn) as Hfnm.
  { apply count_cells_mono; [done|]. intros k x' x y Hx' Hx Hy.
    destruct (matching_invariant_flat _ _ _ _ _ _ _ _ _ _ Hsp Hst Hinv Hx Hx' Hy)
      as [->|[-> Hpos]]; [done|].
    intros [_ Hlt]%andb_true_iff. unfold is_fn in Hlt. apply Z.ltb_lt in Hlt. lia. }
  assert (fp' <= fp) as Hfpm.
  { apply count_cells_mono; [done|]. intros k x' x y Hx' Hx Hy.
    destruct (matching_invariant_flat _ _ _ _ _ _ _ _ _ _ Hsp Hst Hinv Hx Hx' Hy)
      as [->|[-> Hpos]]; [done|].
    intros [_ Hlt]%andb_true_iff. unfold is_fp in Hlt. apply Z.ltb_lt in Hlt. lia. }
  destruct (scores_closed_form _ _ _ _ _ _ _ _ Hc Htp Hfn Hfp Hs) as (-> & -> & ->).
  destruct (scores_closed_form _ _ _ _ _ _ _ _ Hc' Htp' Hfn' Hfp' Hs')
    as (-> & -> & ->).
  pose proof (inject_Z_nonneg _ Htp). pose proof (inject_Z_nonneg _ Hfn').
  pose proof (inject_Z_nonneg _ Hfp').
  pose proof (inject_Z_le _ _ Htpm). pose proof (inject_Z_le _ _ Hfnm).
  pose proof (inject_Z_le _ _ Hfpm).
  split_and!.
  - by apply ratio_monotone.
  - by apply ratio_monotone.
  - rewrite <- !Qplus_assoc. apply ratio_monotone; Lqa.lra.
Qed.

(** One true object with a predicted object of its class beside it and a
    predicted object of another class elsewhere: every score is 0 on the
    untouched grids and 1/2 after the traversal. *)
Lemma tolerance_never_lowers_scores_witness :
  ∃ p r f1 p' r' f1',
    precision_recall_f1_without_matching head2 two_preds_grid one_target_grid
      = Ok (p, r, f1) ∧
    precision_recall_f1_of head2 two_preds_grid one_target_grid = Ok (p', r', f1') ∧
    (p == 0)%Q ∧ (p' == 1 # 2)%Q ∧ (r' == 1 # 2)%Q ∧ (f1' == 1 # 2)%Q ∧
    (p <= p')%Q ∧ (r <= r')%Q ∧ (f1 <= f1')%Q.
Proof.
  eexists _, _, _, _, _, _.
  split; [vm_compute; reflexivity|]. split; [vm_compute; reflexivity|].
  split_and!; [reflexivity..| | |];
    apply (tolerance_never_lowers_scores head2 1 12 12 two_preds_grid one_target_grid
             _ _ _ _ _ _
             (has_shape3_set_cell 1 12 12 _ _ _ (class_grid_shape 1 12 12 _ _))
             (class_grid_shape 1 12 12 _ _)
             ltac:(vm_compute; reflexivity) ltac:(vm_compute; reflexivity)).
Defined.

(** * Further properties of [lossFunction] *)

Lemma has_shape4_entry4 {A : Type} B H W C (t : tensor4 A) b h w c :
  has_shape4 B H W C t → (b < B)%nat → (h < H)%nat → (w < W)%nat → (c < C)%nat →
  ∃ x, entry4 t b h w c = Some x.
Proof.
  intros Hs Hb Hh Hw Hc.
  destruct (has_shape3_cell_at B H W t b h w (has_shape4_shape3 _ _ _ _ _ Hs))
    as [cell Hcell]; [lia..|].
  pose proof (has_shape4_cell_length _ _ _ _ _ _ _ Hs Hcell) as Hlen.
  destruct (lookup_lt_is_Some_2 cell c) as [x Hx]; [lia|].
  exists x. unfold entry4. by rewrite Hcell.
Qed.

Lemma flatten4_elem {A : Type} (t : tensor4 A) v :
  v ∈ flatten4 t → ∃ b h w c, entry4 t b h w c = Some v.
Proof.
  change (flatten4 t) with (mjoin (flatten3 t)).
  intros (cell & Hv & [[[b h] w] Hcell]%flatten3_elem)%list_elem_of_join.
  apply list_elem_of_lookup in Hv as [c Hc].
  exists b, h, w, c. unfold entry4. by rewrite Hcell.
Qed.

Lemma has_shape4_map3 {A B0 : Type} (f : list A → list B0) B H W C C'
    (t : tensor4 A) :
  (∀ cell, length cell = C → length (f cell) = C') →
  has_shape4 B H W C t → has_shape4 B H W C' (map3 f t).
Proof.
  intros Hf [HB HF]. unfold map3. split; [by rewrite length_fmap|].
  apply Forall_fmap. eapply Forall_impl; [exact HF|].
  intros img [HH HFr]. simpl. split; [by rewrite length_fmap|].
  apply Forall_fmap. eapply Forall_impl; [exact HFr|].
  intros row [HW HFc]. simpl. split; [by rewrite length_fmap|].
  apply Forall_fmap. eapply Forall_impl; [exact HFc|].
  intros cell Hcell. simpl. by apply Hf.
Qed.

(** Two tensors of one shape with the same entries are equal. *)
Lemma tensor4_ext {A : Type} B H W C (t t' : tensor4 A) :
  has_shape4 B H W C t → has_shape4 B H W C t' →
  (∀ b h w c x, entry4 t b h w c = Some x → entry4 t' b h w c = Some x) →
  t = t'.
Proof.
  intros Hs Hs' Hentries.
  apply (tensor3_ext B H W); [by eapply has_shape4_shape3..|].
  intros [[b h] w].
  destruct (cell_at t (b, h, w)) as [cell|] eqn:Hcell.
  - destruct (has_shape3_cell_at_lt B H W t b h w cell
                (has_shape4_shape3 _ _ _ _ _ Hs) Hcell) as (Hb & Hh & Hw).
    destruct (has_shape3_cell_at B H W t' b h w (has_shape4_shape3 _ _ _ _ _ Hs'))
      as [cell' Hcell']; [lia..|].
    rewrite Hcell'. f_equal.
    pose proof (has_shape4_cell_length _ _ _ _ _ _ _ Hs Hcell) as Hl.
    pose proof (has_shape4_cell_length _ _ _ _ _ _ _ Hs' Hcell') as Hl'.
    apply (list_eq_same_length _ _ C); [done..|].
    intros c x y Hc Hx Hy.
    specialize (Hentries b h w c x). unfold entry4 in Hentries.
    rewrite Hcell, Hcell' in Hentries. simpl in Hentries.
    specialize (Hentries Hx). congruence.
  - destruct (cell_at t' (b, h, w)) as [cell'|] eqn:Hcell'; [|done].
    destruct (has_shape3_cell_at_lt B H W t' b h w cell'
                (has_shape4_shape3 _ _ _ _ _ Hs') Hcell') as (Hb & Hh & Hw).
    destruct (has_shape3_cell_at B H W t b h w (has_shape4_shape3 _ _ _ _ _ Hs))
      as [cell Hc]; [lia..|]. congruence.
Qed.

(** The positive-weight mask and its complement. *)
Lemma weight_length n : length (<[0%nat := 1%R]> (replicate n 0%R)) = n.
Proof. by rewrite length_insert, length_replicate. Qed.

(** What [lossFunction] computes on prediction maps of [num_classes + 1]
    channels over a grid that is not empty. *)
Lemma lossFunction_unfold self pred_maps target B H W :
  has_shape4 B (num_classes self + 1) H W pred_maps →
  (0 < B)%nat → (0 < H)%nat → (0 < W)%nat →
  let preds := permute_0231 pred_maps in
  let weight := <[0%nat := 1%R]> (replicate (num_attrib self) 0%R) in
  lossFunction self pred_maps target =
    data ← build_target preds target;
    let bg_loss :=
      map3 (fun cell => zip_with Rmult cell weight)
        (zip_with4 (bce_with_logits None) preds data) in
    let cls_loss :=
      map3 (fun cell => zip_with Rmult cell ((fun m => (1 - m)%R) <$> weight))
        (zip_with4 (bce_with_logits (Some (cls_weight self))) preds data) in
    '(p, r, f1) ← get_pricsion_recall_f1 self preds data;
    Ok {| d_loss := mean (flatten4 (zip_with4 Rplus cls_loss bg_loss));
          d_fgnd := cls_loss; d_bgnd := bg_loss;
          d_P := Q2R p; d_R := Q2R r; d_F1 := Q2R f1 |}.
Proof.
  intros Hsp%permute_0231_shape HB HH HW preds weight; [|lia].
  fold preds in Hsp.
  pose proof (shape4_of_has_shape4 B H W _ preds Hsp HB HH HW) as Hshape.
  unfold lossFunction. fold preds. rewrite Hshape.
  rewrite weight_update by (unfold num_attrib; lia).
  cbn [mbind result_bind]. fold weight.
  destruct (build_target preds target) as [data|e] eqn:Hdata; [|done].
  cbn [mbind result_bind].
  pose proof (build_target_shape preds target data B H W _ Hshape Hdata) as Hsd.
  assert (length weight = (num_classes self + 1)%nat) as Hwl
    by (unfold weight, num_attrib; apply weight_length).
  rewrite (imul_mask_tiled B H W (num_classes self + 1));
    [|by apply has_shape4_zip_with4|done].
  cbn [mbind result_bind]. rewrite map3_replicate.
  rewrite (imul_mask_tiled B H W (num_classes self + 1));
    [|by apply has_shape4_zip_with4|by rewrite length_fmap].
  done.
Qed.

(** The entries of [cls_loss + bg_loss]: the unweighted loss on channel 0,
    the loss with positive weight on the other channels. *)
Lemma loss_entry (cw : R) n (preds data : tensor4 R) b h w c x y :
  (c < n)%nat →
  entry4 preds b h w c = Some x → entry4 data b h w c = Some y →
  entry4
    (zip_with4 Rplus
       (map3 (fun cell => zip_with Rmult cell
                ((fun m => (1 - m)%R) <$> <[0%nat := 1%R]> (replicate n 0%R)))
          (zip_with4 (bce_with_logits (Some cw)) preds data))
       (map3 (fun cell => zip_with Rmult cell (<[0%nat := 1%R]> (replicate n 0%R)))
          (zip_with4 (bce_with_logits None) preds data))) b h w c
  = Some (if decide (c = 0%nat) then bce_with_logits None x y
          else bce_with_logits (Some cw) x y).
Proof.
  intros Hc Hx Hy.
  erewrite entry4_zip_with4; cycle 1.
  - apply entry4_scaled; [by apply entry4_zip_with4|].
    rewrite list_lookup_fmap, weight_lookup by done. done.
  - apply entry4_scaled; [by apply entry4_zip_with4|].
    by apply weight_lookup.
  - f_equal. unfold background_mask. case_decide; lra.
Qed.

Lemma loss_tensor_shape (cw : R) n B H W (preds data : tensor4 R) :
  has_shape4 B H W n preds → has_shape4 B H W n data →
  has_shape4 B H W n
    (zip_with4 Rplus
       (map3 (fun cell => zip_with Rmult cell
                ((fun m => (1 - m)%R) <$> <[0%nat := 1%R]> (replicate n 0%R)))
          (zip_with4 (bce_with_logits (Some cw)) preds data))
       (map3 (fun cell => zip_with Rmult cell (<[0%nat := 1%R]> (replicate n 0%R)))
          (zip_with4 (bce_with_logits None) preds data))).
Proof.
  intros Hp Hd. apply has_shape4_zip_with4.
  - apply (has_shape4_map3 _ _ _ _ n); [|by apply has_shape4_zip_with4].
    intros cell Hl. rewrite length_zip_with, length_fmap, weight_length. lia.
  - apply (has_shape4_map3 _ _ _ _ n); [|by apply has_shape4_zip_with4].
    intros cell Hl. rewrite length_zip_with, weight_length. lia.
Qed.

(** ** The sign of the loss *)

Lemma sigmoid_range x : (0 < sigmoid x < 1)%R.
Proof.
  unfold sigmoid. pose proof (exp_pos (- x)) as He.
  assert (1 / (1 + exp (- x)) * (1 + exp (- x)) = 1)%R as Hs by (field; lra).
  split.
  - apply Rdiv_lt_0_compat; lra.
  - assert (0 < 1 / (1 + exp (- x)))%R by (apply Rdiv_lt_0_compat; lra). nra.
Qed.

Lemma ln_nonpos x : (0 < x < 1)%R → (ln x <= 0)%R.
Proof.
  intros [H0 H1]. rewrite <- ln_1. left. by apply ln_increasing.
Qed.

(** The element-wise loss of a binary target is never negative, with or
    without a positive weight that is itself not negative. *)
Lemma bce_with_logits_nonneg pos_weight x y :
  (0 <= default 1 pos_weight)%R → y = 0%R ∨ y = 1%R →
  (0 <= bce_with_logits pos_weight x y)%R.
Proof.
  intros Hp Hy. unfold bce_with_logits.
  pose proof (sigmoid_range x) as [Hs0 Hs1].
  pose proof (ln_nonpos (sigmoid x) (conj Hs0 Hs1)) as Hl.
  assert (ln (1 - sigmoid x) <= 0)%R as Hl' by (apply ln_nonpos; lra).
  destruct Hy as [->| ->].
  - lra.
  - nra.
Qed.

Lemma sumR_nonneg xs : Forall (fun x => (0 <= x)%R) xs → (0 <= sumR xs)%R.
Proof.
  induction 1 as [|x xs Hx _ IH]; simpl; lra.
Qed.

Lemma mean_nonneg xs : Forall (fun x => (0 <= x)%R) xs → (0 <= mean xs)%R.
Proof.
  intros Hxs. unfold mean. pose proof (sumR_nonneg xs Hxs) as Hsum.
  destruct xs as [|x xs'] eqn:E.
  - simpl. rewrite Rdiv_0_r. lra.
  - rewrite <- E in *. unfold Rdiv. apply Rmult_le_pos; [done|].
    left. apply Rinv_0_lt_compat. apply lt_0_INR. rewrite E. simpl. lia.
Qed.

(** The entries of a returned target grid are 0 or 1. *)
Lemma build_target_entry_binary preds targets data b h w c y :
  build_target preds targets = Ok data → entry4 data b h w c = Some y →
  y = 0%R ∨ y = 1%R.
Proof.
  intros Hrun Hy. unfold entry4 in Hy.
  destruct (cell_at data (b, h, w)) as [cell|] eqn:Hcell; [|done]. simpl in Hy.
  destruct (build_target_values _ _ _ Hrun _ _ Hcell) as [Hv _].
  apply Hv. by eapply list_elem_of_lookup_2.
Qed.

(** On valid annotations for a grid of at least 12 rows and 12 columns
    [lossFunction] returns. *)
Lemma lossFunction_returns self pred_maps target B H W :
  has_shape4 B (num_classes self + 1) H W pred_maps →
  (0 < B)%nat → (12 <= H)%nat → (12 <= W)%nat →
  (∀ a, a ∈ target → valid_annotation B H W (num_classes self + 1) a) →
  ∃ d, lossFunction self pred_maps target = Ok d.
Proof.
  intros Hs HB HH HW Hvalid.
  rewrite (lossFunction_unfold self pred_maps target B H W Hs) by lia.
  apply permute_0231_shape in Hs as Hsp; [|lia].
  assert (shape4 (permute_0231 pred_maps) = (B, H, W, (num_classes self + 1)%nat))
    as Hshape by (apply shape4_of_has_shape4; [done|lia..]).
  destruct (build_target_total _ target B H W _ Hshape)
    as (data & Hdata & Hsd); [lia..|done|].
  destruct (get_pricsion_recall_f1_total self _ data B H W Hsp Hsd HH HW)
    as [[[p r] f1] Hprf].
  cbn zeta. rewrite Hdata. cbn [mbind result_bind]. rewrite Hprf.
  cbn [mbind result_bind]. by eexists.
Qed.

(** X15.  The loss is never negative: for prediction maps of
    [num_classes + 1] channels on a grid that is not empty and a positive
    weight [cls_weight] that is not negative, every [loss] that
    [lossFunction] returns is at least 0, whatever the logits and the
    annotations are. *)
Theorem lossFunction_loss_nonneg self pred_maps target B H W d :
  has_shape4 B (num_classes self + 1) H W pred_maps →
  (0 < B)%nat → (0 < H)%nat → (0 < W)%nat →
  (0 <= cls_weight self)%R →
  lossFunction self pred_maps target = Ok d →
  (0 <= d_loss d)%R.
Proof.
  intros Hs HB HH HW Hcw Hrun.
  rewrite (lossFunction_unfold self pred_maps target B H W Hs HB HH HW) in Hrun.
  apply permute_0231_shape in Hs as Hsp; [|lia].
  cbn zeta in Hrun.
  apply bind_Ok in Hrun as (data & Hdata & Hrun).
  apply bind_Ok in Hrun as ([[p r] f1] & _ & Hrun).
  injection Hrun as <-. cbn [d_loss].
  pose proof (build_target_shape _ target data B H W _
                (shape4_of_has_shape4 B H W _ _ Hsp HB HH HW) Hdata) as Hsd.
  apply mean_nonneg, Forall_forall. intros v (b & h & w & c & Hv)%flatten4_elem.
  unfold num_attrib in Hv.
  destruct (entry4_in_range _ _ _ _ _ _ _ _ _ _
              (loss_tensor_shape (cls_weight self) _ B H W _ _ Hsp Hsd) Hv)
    as (Hb & Hh & Hw & Hc).
  destruct (has_shape4_entry4 _ _ _ _ _ b h w c Hsp) as [x Hx]; [done..|].
  destruct (has_shape4_entry4 _ _ _ _ _ b h w c Hsd) as [y Hy]; [done..|].
  rewrite (loss_entry (cls_weight self) _ _ _ b h w c x y Hc Hx Hy) in Hv.
  injection Hv as <-.
  pose proof (build_target_entry_binary _ _ _ _ _ _ _ _ Hdata Hy) as Hbin.
  case_decide; apply bce_with_logits_nonneg; simpl; (done || lra).
Qed.

(** The scenario of a 12 by 12 grid with one box in the centre, under a
    positive weight of 3. *)
Lemma lossFunction_loss_nonneg_witness :
  ∃ d, lossFunction weighted_head2 zero_pred_maps center_targets = Ok d ∧
       (0 <= d_loss d)%R.
Proof.
  destruct (lossFunction_returns weighted_head2 zero_pred_maps center_targets 1 12 12)
    as [d Hd]; [decide_shape|lia..| |].
  { intros a Ha. apply list_elem_of_singleton in Ha as ->. by_computation. }
  exists d. split; [exact Hd|].
  apply (lossFunction_loss_nonneg weighted_head2 zero_pred_maps center_targets
           1 12 12 d); [decide_shape|lia..| |exact Hd].
  simpl. lra.
Defined.

(** ** The default positive weight *)

Lemma bce_with_logits_unit_weight x y :
  bce_with_logits (Some 1%R) x y = bce_with_logits None x y.
Proof. done. Qed.

(** X16.  With the default [cls_weight] of 1 the two masks cancel: for
    prediction maps of [num_classes + 1] channels on a grid that is not
    empty, every [loss] that [lossFunction] returns is the plain mean of the
    element-wise BCE-with-logits of the permuted predictions against the
    target grid. *)
Theorem lossFunction_unit_weight_plain_mean self pred_maps target B H W d :
  has_shape4 B (num_classes self + 1) H W pred_maps →
  (0 < B)%nat → (0 < H)%nat → (0 < W)%nat →
  cls_weight self = 1%R →
  lossFunction self pred_maps target = Ok d →
  ∃ data, build_target (permute_0231 pred_maps) target = Ok data ∧
    d_loss d = mean (flatten4 (zip_with4 (bce_with_logits None)
                                 (permute_0231 pred_maps) data)).
Proof.
  intros Hs HB HH HW Hcw Hrun.
  rewrite (lossFunction_unfold self pred_maps target B H W Hs HB HH HW) in Hrun.
  apply permute_0231_shape in Hs as Hsp; [|lia].
  cbn zeta in Hrun.
  apply bind_Ok in Hrun as (data & Hdata & Hrun).
  apply bind_Ok in Hrun as ([[p r] f1] & _ & Hrun).
  injection Hrun as <-. cbn [d_loss].
  pose proof (build_target_shape _ target data B H W _
                (shape4_of_has_shape4 B H W _ _ Hsp HB HH HW) Hdata) as Hsd.
  exists data. split; [done|]. do 2 f_equal. unfold num_attrib.
  symmetry. apply (tensor4_ext B H W (num_classes self + 1)).
  - by apply has_shape4_zip_with4.
  - by apply loss_tensor_shape.
  - intros b h w c v Hv.
    destruct (entry4_in_range _ _ _ _ _ _ _ _ _ _
                (has_shape4_zip_with4 _ _ _ _ _ _ _ Hsp Hsd) Hv)
      as (Hb & Hh & Hw & Hc).
    destruct (has_shape4_entry4 _ _ _ _ _ b h w c Hsp) as [x Hx]; [done..|].
    destruct (has_shape4_entry4 _ _ _ _ _ b h w c Hsd) as [y Hy]; [done..|].
    rewrite (entry4_zip_with4 _ _ _ _ _ _ _ _ _ Hx Hy) in Hv. injection Hv as <-.
    rewrite (loss_entry (cls_weight self) _ _ _ b h w c x y Hc Hx Hy).
    rewrite Hcw. by case_decide.
Qed.

Lemma lossFunction_unit_weight_plain_mean_witness :
  ∃ d data,
    lossFunction head2 zero_pred_maps center_targets = Ok d ∧
    build_target (permute_0231 zero_pred_maps) center_targets = Ok data ∧
    d_loss d = mean (flatten4 (zip_with4 (bce_with_logits None)
                                 (permute_0231 zero_pred_maps) data)).
Proof.
  destruct (lossFunction_returns head2 zero_pred_maps center_targets 1 12 12)
    as [d Hd]; [decide_shape|lia..| |].
  { intros a Ha. apply list_elem_of_singleton in Ha as ->. by_computation. }
  destruct (lossFunction_unit_weight_plain_mean head2 zero_pred_maps center_targets
              1 12 12 d) as (data & Hdata & Hloss);
    [decide_shape|lia..|reflexivity|exact Hd|].
  by exists d, data.
Defined.

(** ** The exceptions of [lossFunction] *)

(** A mask whose channel count is neither that of the tensor nor 1 cannot
    be broadcast. *)
Lemma imul_mask_mismatch B H W C (t : tensor4 R) (wt : list R) :
  has_shape4 B H W C t → (0 < B)%nat → (0 < H)%nat → (0 < W)%nat →
  length wt ≠ C → length wt ≠ 1%nat →
  imul_mask t (replicate H (replicate W wt)) = Raise RuntimeError.
Proof.
  intros [HB HF] HB0 HH0 HW0 HC H1.
  destruct t as [|img t]; [simpl in HB; lia|].
  apply Forall_cons in HF as [[HH HFr] _].
  destruct img as [|row img]; [simpl in HH; lia|].
  apply Forall_cons in HFr as [[HW HFc] _].
  destruct row as [|cell row]; [simpl in HW; lia|].
  apply Forall_cons in HFc as [Hc _]. simpl in Hc.
  destruct H as [|H']; [lia|]. destruct W as [|W']; [lia|].
  unfold imul_mask. cbn [mapM replicate zip zip_with fst snd mbind result_bind].
  assert (mul_channels cell wt = Raise RuntimeError) as ->; [|done].
  unfold mul_channels. rewrite decide_False by congruence.
  by rewrite decide_False.
Qed.

(** X17.  Prediction maps whose channel count differs from
    [num_classes + 1] never give a loss (for a head with at least one
    object class, on a grid that is not empty): [lossFunction] raises the
    IndexError of [build_target] if there is one and otherwise RuntimeError
    at [bg_loss *= self.weight_mask], before the metric is computed. *)
Theorem lossFunction_channel_mismatch self pred_maps target B C H W :
  has_shape4 B C H W pred_maps →
  (0 < B)%nat → (0 < C)%nat → (0 < H)%nat → (0 < W)%nat →
  C ≠ (num_classes self + 1)%nat → num_classes self ≠ 0%nat →
  lossFunction self pred_maps target =
    match build_target (permute_0231 pred_maps) target with
    | Ok _ => Raise RuntimeError
    | Raise e => Raise e
    end.
Proof.
  intros Hs HB HC HH HW Hne Hnc.
  apply permute_0231_shape in Hs as Hsp; [|done].
  pose proof (shape4_of_has_shape4 B H W C _ Hsp HB HH HW) as Hshape.
  unfold lossFunction. rewrite Hshape.
  rewrite weight_update by (unfold num_attrib; lia).
  cbn [mbind result_bind].
  destruct (build_target (permute_0231 pred_maps) target) as [data|e] eqn:Hdata;
    [|done].
  cbn [mbind result_bind].
  pose proof (build_target_shape _ target data B H W C Hshape Hdata) as Hsd.
  rewrite (imul_mask_mismatch B H W C); [done| |done..| |].
  - by apply has_shape4_zip_with4.
  - rewrite weight_length. unfold num_attrib. lia.
  - rewrite weight_length. unfold num_attrib. lia.
Qed.

(** Two channels for a head of two object classes, which needs three. *)
Lemma lossFunction_channel_mismatch_witness :
  lossFunction head2 two_channel_pred_maps center_targets = Raise RuntimeError.
Proof.
  rewrite (lossFunction_channel_mismatch head2 two_channel_pred_maps center_targets
             1 2 12 12); [|decide_shape|lia..|simpl; lia|simpl; lia].
  assert (∃ data, build_target (permute_0231 two_channel_pred_maps) center_targets
                  = Ok data) as [data ->]; [|done].
  destruct (build_target_total (permute_0231 two_channel_pred_maps) center_targets
              1 12 12 2) as (data & Hdata & _); [reflexivity|lia..| |by eexists].
  intros a Ha. apply list_elem_of_singleton in Ha as ->. by_computation.
Defined.



(** * The layers that the constructor builds *)



(** * The reach of the guard *)

Lemma match_site_guarded preds_index ti st po :
  any_lt (add3 ti po) 0 || any_gt (add3 ti po) 11 = true →
  match_site preds_index ti st po = Ok st.
Proof.
  intros Hguard. unfold match_site. destruct st as [pm tm]. by rewrite Hguard.
Qed.

(** From a true object in an image of index above 11, or in a row or a
    column above 12, every site fails the guard. *)
Lemma match_target_guarded preds_index st ti :
  11 < ti.1.1 ∨ 12 < ti.1.2 ∨ 12 < ti.2 →
  match_target preds_index st ti = Ok st.
Proof.
  intros Hti. unfold match_target. apply for_each_fixed. intros po Hpo.
  apply match_site_guarded. destruct ti as [[b h] w]. cbn [fst snd] in Hti.
  unfold posit_offset in Hpo.
  repeat (apply elem_of_cons in Hpo as [->|Hpo];
    [unfold add3, any_lt, any_gt;
     rewrite !orb_true_iff, !Z.ltb_lt, !Z.gtb_ltb, !Z.ltb_lt; lia|]).
  by apply elem_of_nil in Hpo.
Qed.

(** X20.  The tolerance reaches only the first 12 images and the first 13
    rows and columns: when every true object lies in an image of index
    above 11, or in a row or a column of index above 12, the traversal
    changes nothing and the scores are those of the exact cells (lines 147
    to 163 on the untouched grids), whatever is predicted next to the
    objects. *)
Theorem tolerance_absent_beyond_guard self preds_max target_max :
  (∀ ti, ti ∈ where_positive target_max →
     11 < ti.1.1 ∨ 12 < ti.1.2 ∨ 12 < ti.2) →
  tolerant_matching preds_max target_max = Ok (preds_max, target_max) ∧
  precision_recall_f1_of self preds_max target_max
    = precision_recall_f1_without_matching self preds_max target_max.
Proof.
  intros Hout.
  assert (tolerant_matching preds_max target_max = Ok (preds_max, target_max)) as Hm.
  { unfold tolerant_matching. apply for_each_fixed. intros ti Hti.
    by apply match_target_guarded, Hout. }
  split; [done|].
  unfold precision_recall_f1_of, precision_recall_f1_without_matching.
  by rewrite Hm.
Qed.

(** In the image of index 12 the prediction in the next cell is not
    matched, where the same pair in an image of index below 12 is. *)
Lemma tolerance_absent_beyond_guard_witness :
  tolerant_matching late_image_preds late_image_target
    = Ok (late_image_preds, late_image_target) ∧
  precision_recall_f1_of head3 late_image_preds late_image_target
    = precision_recall_f1_without_matching head3 late_image_preds late_image_target.
Proof.
  apply (tolerance_absent_beyond_guard head3 late_image_preds late_image_target).
  intros ti Hti.
  assert (where_positive late_image_target = [(12, 3, 3)]) as E
    by (vm_compute; reflexivity).
  rewrite E in Hti. apply list_elem_of_singleton in Hti as ->.
  left. simpl. lia.
Defined.

(** * Grids of at least 12 rows and 12 columns *)

(** X21.  On predictions and targets of [num_classes + 1] channels over a
    grid of at least 12 rows and 12 columns (and any number of images)
    [get_pricsion_recall_f1] raises nothing: every site that passes the
    guard is a cell of the grid. *)
Theorem metric_returns_on_large_grids self preds target B H W :
  has_shape4 B H W (num_classes self + 1) preds →
  has_shape4 B H W (num_classes self + 1) target →
  (12 <= H)%nat → (12 <= W)%nat →
  ∃ p r f1, get_pricsion_recall_f1 self preds target = Ok (p, r, f1).
Proof.
  intros Hsp Hst HH HW.
  destruct (get_pricsion_recall_f1_total self preds target B H W Hsp Hst HH HW)
    as [[[p r] f1] Hres].
  by exists p, r, f1.
Qed.

Lemma metric_returns_on_large_grids_witness :
  ∃ p r f1,
    get_pricsion_recall_f1 head3
      (of_Z4 (one_hot_grid 13 12 12 4 (12, 3, 4)%nat 3))
      (of_Z4 (one_hot_grid 13 12 12 4 (12, 3, 3)%nat 3)) = Ok (p, r, f1).
Proof.
  apply (metric_returns_on_large_grids head3 _ _ 13 12 12); [decide_shape..|lia|lia].
Defined.
